(** * The pull replication worker (Replicator/Puller.cc)

    A shallow embedding of [litecore::repl::Puller]: the state of the worker
    is a record, every member function is a function on that record, and the
    actors around it (transport, RevFinder, IncomingRev workers) are a set of
    events that call the worker's handlers.  Logging and signposts are left
    out; everything else follows Puller.cc statement by statement. *)

From Stdlib Require Import ZArith NArith Lia Bool.
From stdpp Require Import gmap strings list.

#[local] Open Scope Z_scope.

(** ** Slices, sequences *)

(** A [fleece::slice] holding text; [None] is the null slice, and the
    [explicit operator bool] of the source is [slice_bool]. *)
Definition slice := option string.

Definition slice_bool (s : slice) : bool :=
  match s with Some _ => true | None => false end.

(** A remote sequence id.  The Puller never looks inside one: it stores it,
    compares it for equality and hands it to the missing-sequence set.  The
    order is the remote's, so a sequence is represented by its rank in that
    order; rank 0 is the null slice (the start of the feed). *)
Abbreviation RemoteSequence := N (only parsing).

Definition nullslice : RemoteSequence := 0%N.

Definition sequence_bool (s : RemoteSequence) : bool := negb (s =? nullslice)%N.

(** ** The missing-sequence set *)

Module MissingSequences.

Record t := mk {
  base : RemoteSequence;
  greatestRemoved : RemoteSequence;
  members : gmap N N
}.

Fixpoint minimum (l : list N) : option N :=
  match l with
  | [] => None
  | k :: rest =>
      match minimum rest with
      | None => Some k
      | Some k' => Some (N.min k k')
      end
  end.

(** The minimum member, if any. *)
Definition earliest (m : gmap N N) : option N :=
  minimum (map fst (map_to_list m)).

(** Modelled from the spec: the class of [_missingSequences] is declared in
    a header that is not among the sources.  [clear base] empties the set
    and installs the watermark; nothing has been removed yet, so the
    greatest removed sequence starts at the watermark too. *)
Definition clear (since : RemoteSequence) : t :=
  mk since since ∅.

(** Modelled from the spec: "[since()] returns [base] if the set is
    non-empty, else the greatest removed sequence." *)
Definition since (s : t) : RemoteSequence :=
  match earliest (members s) with
  | Some _ => base s
  | None => greatestRemoved s
  end.

(** Modelled from the spec: "Adding a sequence already present is
    idempotent."  A new member is stored with its body size.  The spec
    gives no rule for the watermark on [add]; [since()] is the low-water
    mark below which nothing is pending, which an addition cannot move,
    so the watermark of the new set is the old [since()]. *)
Definition add (seq : RemoteSequence) (bodySize : N) (s : t) : t :=
  match members s !! seq with
  | Some _ => s
  | None => mk (since s) (greatestRemoved s) (<[seq := bodySize]> (members s))
  end.

(** Modelled from the spec: "[remove(s)] reports whether [s] was the
    minimum element; if so, [base] is advanced to the next-smallest member
    (or to [s] if the set becomes empty)", and "removing a sequence not
    present is a no-op".  The result is [(wasEarliest, bodySize)] and the
    new set; an absent sequence has body size 0. *)
Definition remove (seq : RemoteSequence) (s : t) : (bool * N) * t :=
  match members s !! seq with
  | None => ((false, 0%N), s)
  | Some bodySize =>
      let wasEarliest := bool_decide (earliest (members s) = Some seq) in
      let rest := delete seq (members s) in
      let base' := if wasEarliest
                   then match earliest rest with
                        | Some next => next
                        | None => seq
                        end
                   else base s in
      ((wasEarliest, bodySize),
       mk base' (N.max (greatestRemoved s) seq) rest)
  end.

(** Modelled from the spec: [bodySizeOfSequence(seq)] looks the body size
    up and leaves the set alone. *)
Definition bodySizeOfSequence (seq : RemoteSequence) (s : t) : N :=
  default 0%N (members s !! seq).

Definition size (s : t) : nat := base.size (members s).

End MissingSequences.

(** ** Messages, options and the collaborators' data *)

(** A fleece value, as far as the options of the replicator need one. *)
Inductive Value :=
| VNull
| VBool (b : bool)
| VInt (n : Z)
| VString (s : string).

(** [Value::asString()]: the text of a string value, the null slice for a
    value of any other type. *)
Definition asString (v : Value) : slice :=
  match v with VString s => Some s | _ => None end.

(** One entry [[seq, docID, revID, flags, bodySize]] of a "changes" body, as
    the Puller reads it: [change[0].toJSON()] (the null slice when the entry
    has no first element) and [change[4].asUnsigned()] (0 when absent).  The
    docID is read by the RevFinder only. *)
Record Change := mkChange {
  change_sequence : RemoteSequence;
  change_docID : string;
  change_bodySize : N
}.

(** What indexing past the end of the array, or an entry that is not an
    array, yields: no sequence and size 0. *)
Definition undefinedChange : Change := mkChange nullslice "" 0%N.

(** An incoming BLIP message.  [JSONBody] is [JSONBody().asArray()]: [None]
    is the null Array (the body is not a JSON array). *)
Record MessageIn := mkMessageIn {
  number : N;
  Profile : string;
  body : string;
  JSONBody : option (list Change);
  noReply : bool;
  id : string;
  sequence : RemoteSequence
}.

(** [Array::empty()]: the null Array is empty as well. *)
Definition Array_empty (a : option (list Change)) : bool :=
  match a with
  | None => true
  | Some [] => true
  | Some (_ :: _) => false
  end.

(** [changes[i]], which is undefined past the end and on the null Array. *)
Definition Array_get (a : option (list Change)) (i : nat) : Change :=
  match a with
  | None => undefinedChange
  | Some l => nth i l undefinedChange
  end.

Inductive C4ReplicatorMode := kC4Disabled | kC4Passive | kC4OneShot | kC4Continuous.

Definition C4ReplicatorMode_rank (m : C4ReplicatorMode) : Z :=
  match m with
  | kC4Disabled => 0 | kC4Passive => 1 | kC4OneShot => 2 | kC4Continuous => 3
  end.

Inductive C4ReplicatorActivityLevel := kC4Stopped | kC4Idle | kC4Busy.

#[global] Instance C4ReplicatorMode_eq_dec : EqDecision C4ReplicatorMode.
Proof. solve_decision. Defined.

#[global] Instance C4ReplicatorActivityLevel_eq_dec : EqDecision C4ReplicatorActivityLevel.
Proof. solve_decision. Defined.

Record Options := mkOptions {
  pull : C4ReplicatorMode;
  skipDeleted : bool;
  noIncomingConflicts : bool;
  channels : option (list Value);
  filter : slice;
  filterParams : list (string * Value);
  docIDs : option (list Value)
}.

(** ReplicatedRev.hh: the metadata of a revision, reported to the delegate
    when the revision is finished. *)
Record ReplicatedRev := mkReplicatedRev {
  docID : string;
  revID : string;
  flags : Z;
  rev_sequence : Z;
  error : Z;
  errorIsTransient : bool
}.

(** [deleted()]; the flag [kRevDeleted] is declared in a header that is not
    among the sources. *)
Definition deleted (kRevDeleted : Z) (r : ReplicatedRev) : bool :=
  negb (Z.land (flags r) kRevDeleted =? 0).

(** An IncomingRev worker, by its accessors. *)
Record IncomingRev := mkIncomingRev {
  rev : ReplicatedRev;
  remoteSequence : RemoteSequence;
  wasProvisionallyInserted : bool
}.

(** A property value of an outgoing message. *)
Inductive PropertyValue :=
| PText (s : slice)
| PSequence (s : RemoteSequence)
| PNumber (n : Z).

Record MessageBuilder := mkMessageBuilder {
  mb_profile : string;
  properties : list (string * PropertyValue);
  jsonBody : option (list Value)
}.

(** What the worker sends out or asks of its collaborators, oldest first. *)
Inductive Output :=
| SendRequest (msg : MessageBuilder)
| Respond (req : MessageIn)
| RespondWithError (req : MessageIn) (domain : string) (code : Z) (message : string)
| FindOrRequestRevs (req : MessageIn)
| UpdatePullCheckpoint (s : RemoteSequence)
| FinishedDocument (r : ReplicatedRev)
| GotError.

(** [C4Progress]: units completed and units in total. *)
Definition C4Progress := (N * N)%type.

(** ** The state of the worker *)

(** The members of [Puller] that Puller.cc reads or writes, the connection
    state of its base class, and the collaborators the handlers are called
    back from: [revFinderRequests] holds the requests handed to the RevFinder
    whose callback has not run, [incomingRevs] the IncomingRev workers that
    were started and have not reported back, [_returningRevs] the workers
    handed back and not yet drained, [sent] what went out. *)
Record Puller := mkPuller {
  _options : Options;
  connection : bool;
  isOpenServer : bool;
  _lastSequence : RemoteSequence;
  _missingSequences : MissingSequences.t;
  _skipDeleted : bool;
  _caughtUp : bool;
  _fatalError : bool;
  _waitingChangesMessages : list MessageIn;
  _waitingRevMessages : list MessageIn;
  _pendingRevMessages : Z;
  _activeIncomingRevs : Z;
  _unfinishedIncomingRevs : Z;
  _pendingRevFinderCalls : Z;
  _spareIncomingRevs : Z;
  _incomingDocIDs : gset string;
  _returningRevs : list IncomingRev;
  progress : C4Progress;
  revFinderRequests : list MessageIn;
  incomingRevs : list IncomingRev;
  sent : list Output
}.

Definition set_connection (v : bool) (p : Puller) : Puller :=
  mkPuller (_options p) v (isOpenServer p) (_lastSequence p)
    (_missingSequences p) (_skipDeleted p) (_caughtUp p) (_fatalError p)
    (_waitingChangesMessages p) (_waitingRevMessages p)
    (_pendingRevMessages p) (_activeIncomingRevs p)
    (_unfinishedIncomingRevs p) (_pendingRevFinderCalls p)
    (_spareIncomingRevs p) (_incomingDocIDs p) (_returningRevs p) (progress p)
    (revFinderRequests p) (incomingRevs p) (sent p).

Definition set_lastSequence (v : RemoteSequence) (p : Puller) : Puller :=
  mkPuller (_options p) (connection p) (isOpenServer p) v
    (_missingSequences p) (_skipDeleted p) (_caughtUp p) (_fatalError p)
    (_waitingChangesMessages p) (_waitingRevMessages p)
    (_pendingRevMessages p) (_activeIncomingRevs p)
    (_unfinishedIncomingRevs p) (_pendingRevFinderCalls p)
    (_spareIncomingRevs p) (_incomingDocIDs p) (_returningRevs p) (progress p)
    (revFinderRequests p) (incomingRevs p) (sent p).

Definition set_missingSequences (v : MissingSequences.t) (p : Puller) : Puller :=
  mkPuller (_options p) (connection p) (isOpenServer p) (_lastSequence p) v
    (_skipDeleted p) (_caughtUp p) (_fatalError p) (_waitingChangesMessages p)
    (_waitingRevMessages p) (_pendingRevMessages p) (_activeIncomingRevs p)
    (_unfinishedIncomingRevs p) (_pendingRevFinderCalls p)
    (_spareIncomingRevs p) (_incomingDocIDs p) (_returningRevs p) (progress p)
    (revFinderRequests p) (incomingRevs p) (sent p).

Definition set_skipDeleted (v : bool) (p : Puller) : Puller :=
  mkPuller (_options p) (connection p) (isOpenServer p) (_lastSequence p)
    (_missingSequences p) v (_caughtUp p) (_fatalError p)
    (_waitingChangesMessages p) (_waitingRevMessages p)
    (_pendingRevMessages p) (_activeIncomingRevs p)
    (_unfinishedIncomingRevs p) (_pendingRevFinderCalls p)
    (_spareIncomingRevs p) (_incomingDocIDs p) (_returningRevs p) (progress p)
    (revFinderRequests p) (incomingRevs p) (sent p).

Definition set_caughtUp (v : bool) (p : Puller) : Puller :=
  mkPuller (_options p) (connection p) (isOpenServer p) (_lastSequence p)
    (_missingSequences p) (_skipDeleted p) v (_fatalError p)
    (_waitingChangesMessages p) (_waitingRevMessages p)
    (_pendingRevMessages p) (_activeIncomingRevs p)
    (_unfinishedIncomingRevs p) (_pendingRevFinderCalls p)
    (_spareIncomingRevs p) (_incomingDocIDs p) (_returningRevs p) (progress p)
    (revFinderRequests p) (incomingRevs p) (sent p).

Definition set_fatalError (v : bool) (p : Puller) : Puller :=
  mkPuller (_options p) (connection p) (isOpenServer p) (_lastSequence p)
    (_missingSequences p) (_skipDeleted p) (_caughtUp p) v
    (_waitingChangesMessages p) (_waitingRevMessages p)
    (_pendingRevMessages p) (_activeIncomingRevs p)
    (_unfinishedIncomingRevs p) (_pendingRevFinderCalls p)
    (_spareIncomingRevs p) (_incomingDocIDs p) (_returningRevs p) (progress p)
    (revFinderRequests p) (incomingRevs p) (sent p).

Definition set_waitingChangesMessages (v : list MessageIn) (p : Puller) : Puller :=
  mkPuller (_options p) (connection p) (isOpenServer p) (_lastSequence p)
    (_missingSequences p) (_skipDeleted p) (_caughtUp p) (_fatalError p) v
    (_waitingRevMessages p) (_pendingRevMessages p) (_activeIncomingRevs p)
    (_unfinishedIncomingRevs p) (_pendingRevFinderCalls p)
    (_spareIncomingRevs p) (_incomingDocIDs p) (_returningRevs p) (progress p)
    (revFinderRequests p) (incomingRevs p) (sent p).

Definition set_waitingRevMessages (v : list MessageIn) (p : Puller) : Puller :=
  mkPuller (_options p) (connection p) (isOpenServer p) (_lastSequence p)
    (_missingSequences p) (_skipDeleted p) (_caughtUp p) (_fatalError p)
    (_waitingChangesMessages p) v (_pendingRevMessages p)
    (_activeIncomingRevs p) (_unfinishedIncomingRevs p)
    (_pendingRevFinderCalls p) (_spareIncomingRevs p) (_incomingDocIDs p)
    (_returningRevs p) (progress p) (revFinderRequests p) (incomingRevs p)
    (sent p).

Definition set_pendingRevMessages (v : Z) (p : Puller) : Puller :=
  mkPuller (_options p) (connection p) (isOpenServer p) (_lastSequence p)
    (_missingSequences p) (_skipDeleted p) (_caughtUp p) (_fatalError p)
    (_waitingChangesMessages p) (_waitingRevMessages p) v
    (_activeIncomingRevs p) (_unfinishedIncomingRevs p)
    (_pendingRevFinderCalls p) (_spareIncomingRevs p) (_incomingDocIDs p)
    (_returningRevs p) (progress p) (revFinderRequests p) (incomingRevs p)
    (sent p).

Definition set_activeIncomingRevs (v : Z) (p : Puller) : Puller :=
  mkPuller (_options p) (connection p) (isOpenServer p) (_lastSequence p)
    (_missingSequences p) (_skipDeleted p) (_caughtUp p) (_fatalError p)
    (_waitingChangesMessages p) (_waitingRevMessages p)
    (_pendingRevMessages p) v (_unfinishedIncomingRevs p)
    (_pendingRevFinderCalls p) (_spareIncomingRevs p) (_incomingDocIDs p)
    (_returningRevs p) (progress p) (revFinderRequests p) (incomingRevs p)
    (sent p).

Definition set_unfinishedIncomingRevs (v : Z) (p : Puller) : Puller :=
  mkPuller (_options p) (connection p) (isOpenServer p) (_lastSequence p)
    (_missingSequences p) (_skipDeleted p) (_caughtUp p) (_fatalError p)
    (_waitingChangesMessages p) (_waitingRevMessages p)
    (_pendingRevMessages p) (_activeIncomingRevs p) v
    (_pendingRevFinderCalls p) (_spareIncomingRevs p) (_incomingDocIDs p)
    (_returningRevs p) (progress p) (revFinderRequests p) (incomingRevs p)
    (sent p).

Definition set_pendingRevFinderCalls (v : Z) (p : Puller) : Puller :=
  mkPuller (_options p) (connection p) (isOpenServer p) (_lastSequence p)
    (_missingSequences p) (_skipDeleted p) (_caughtUp p) (_fatalError p)
    (_waitingChangesMessages p) (_waitingRevMessages p)
    (_pendingRevMessages p) (_activeIncomingRevs p)
    (_unfinishedIncomingRevs p) v (_spareIncomingRevs p) (_incomingDocIDs p)
    (_returningRevs p) (progress p) (revFinderRequests p) (incomingRevs p)
    (sent p).

Definition set_spareIncomingRevs (v : Z) (p : Puller) : Puller :=
  mkPuller (_options p) (connection p) (isOpenServer p) (_lastSequence p)
    (_missingSequences p) (_skipDeleted p) (_caughtUp p) (_fatalError p)
    (_waitingChangesMessages p) (_waitingRevMessages p)
    (_pendingRevMessages p) (_activeIncomingRevs p)
    (_unfinishedIncomingRevs p) (_pendingRevFinderCalls p) v
    (_incomingDocIDs p) (_returningRevs p) (progress p) (revFinderRequests p)
    (incomingRevs p) (sent p).

Definition set_incomingDocIDs (v : gset string) (p : Puller) : Puller :=
  mkPuller (_options p) (connection p) (isOpenServer p) (_lastSequence p)
    (_missingSequences p) (_skipDeleted p) (_caughtUp p) (_fatalError p)
    (_waitingChangesMessages p) (_waitingRevMessages p)
    (_pendingRevMessages p) (_activeIncomingRevs p)
    (_unfinishedIncomingRevs p) (_pendingRevFinderCalls p)
    (_spareIncomingRevs p) v (_returningRevs p) (progress p)
    (revFinderRequests p) (incomingRevs p) (sent p).

Definition set_returningRevs (v : list IncomingRev) (p : Puller) : Puller :=
  mkPuller (_options p) (connection p) (isOpenServer p) (_lastSequence p)
    (_missingSequences p) (_skipDeleted p) (_caughtUp p) (_fatalError p)
    (_waitingChangesMessages p) (_waitingRevMessages p)
    (_pendingRevMessages p) (_activeIncomingRevs p)
    (_unfinishedIncomingRevs p) (_pendingRevFinderCalls p)
    (_spareIncomingRevs p) (_incomingDocIDs p) v (progress p)
    (revFinderRequests p) (incomingRevs p) (sent p).

Definition set_progress (v : C4Progress) (p : Puller) : Puller :=
  mkPuller (_options p) (connection p) (isOpenServer p) (_lastSequence p)
    (_missingSequences p) (_skipDeleted p) (_caughtUp p) (_fatalError p)
    (_waitingChangesMessages p) (_waitingRevMessages p)
    (_pendingRevMessages p) (_activeIncomingRevs p)
    (_unfinishedIncomingRevs p) (_pendingRevFinderCalls p)
    (_spareIncomingRevs p) (_incomingDocIDs p) (_returningRevs p) v
    (revFinderRequests p) (incomingRevs p) (sent p).

Definition set_revFinderRequests (v : list MessageIn) (p : Puller) : Puller :=
  mkPuller (_options p) (connection p) (isOpenServer p) (_lastSequence p)
    (_missingSequences p) (_skipDeleted p) (_caughtUp p) (_fatalError p)
    (_waitingChangesMessages p) (_waitingRevMessages p)
    (_pendingRevMessages p) (_activeIncomingRevs p)
    (_unfinishedIncomingRevs p) (_pendingRevFinderCalls p)
    (_spareIncomingRevs p) (_incomingDocIDs p) (_returningRevs p) (progress p)
    v (incomingRevs p) (sent p).

Definition set_incomingRevs (v : list IncomingRev) (p : Puller) : Puller :=
  mkPuller (_options p) (connection p) (isOpenServer p) (_lastSequence p)
    (_missingSequences p) (_skipDeleted p) (_caughtUp p) (_fatalError p)
    (_waitingChangesMessages p) (_waitingRevMessages p)
    (_pendingRevMessages p) (_activeIncomingRevs p)
    (_unfinishedIncomingRevs p) (_pendingRevFinderCalls p)
    (_spareIncomingRevs p) (_incomingDocIDs p) (_returningRevs p) (progress p)
    (revFinderRequests p) v (sent p).

Definition set_sent (v : list Output) (p : Puller) : Puller :=
  mkPuller (_options p) (connection p) (isOpenServer p) (_lastSequence p)
    (_missingSequences p) (_skipDeleted p) (_caughtUp p) (_fatalError p)
    (_waitingChangesMessages p) (_waitingRevMessages p)
    (_pendingRevMessages p) (_activeIncomingRevs p)
    (_unfinishedIncomingRevs p) (_pendingRevFinderCalls p)
    (_spareIncomingRevs p) (_incomingDocIDs p) (_returningRevs p) (progress p)
    (revFinderRequests p) (incomingRevs p) v.

(** ** Helpers of the base class *)

(** Modelled from the spec: [increment] and [decrement] come from the base
    class Worker, which is not among the sources; the counters are
    [unsigned], so adding and subtracting wrap around at 2^32. *)
Definition increment (value n : Z) : Z := (value + n) mod 2 ^ 32.

Definition decrement (value n : Z) : Z := (value - n) mod 2 ^ 32.

(** Modelled from the spec: [addProgress] of the base class adds a delta to
    the worker's progress, component by component. *)
Definition addProgress (delta : C4Progress) (p : Puller) : Puller :=
  set_progress ((fst (progress p) + fst delta)%N,
                (snd (progress p) + snd delta)%N) p.

(** Modelled from the spec: a pull is active ("non-passive") when the client
    initiated it, that is when its mode is above [kC4Passive]. *)
Definition nonPassive (p : Puller) : bool :=
  C4ReplicatorMode_rank kC4Passive <? C4ReplicatorMode_rank (pull (_options p)).

Definition send (o : Output) (p : Puller) : Puller :=
  set_sent (sent p ++ [o]) p.

Definition respond (req : MessageIn) (p : Puller) : Puller :=
  send (Respond req) p.

Definition respondWithError (req : MessageIn) (domain : string) (code : Z)
    (message : string) (p : Puller) : Puller :=
  send (RespondWithError req domain code message) p.

(** The constructor: [_skipDeleted] is taken from the options; the other
    members start as their initialisers in the header leave them, counters
    at zero, flags cleared, queues empty. *)
Definition Puller_new (options : Options) (openServer : bool) : Puller :=
  mkPuller options true openServer nullslice (MissingSequences.clear nullslice)
    (skipDeleted options) false false [] [] 0 0 0 0 0 ∅ [] (0%N, 0%N) [] [] [].

(** ** Starting an active pull *)

(** The loop of [_start] that writes the channel names into the
    stringstream [value]; [n] counts the names written so far. *)
Fixpoint joinChannels (chs : list Value) (n : nat) (value : string) : string :=
  match chs with
  | [] => value
  | v :: rest =>
      let name := asString v in
      match name with
      | Some text =>
          let value := match n with O => value | S _ => value +:+ "," end in
          joinChannels rest (S n) (value +:+ text)
      | None => joinChannels rest n value
      end
  end.

Section Tuning.

(** The constants of ReplicatorTuning.hh, which is not among the sources. *)
Variables kChangesBatchSize kMaxPendingRevs : Z.
Variables kMaxActiveIncomingRevs kMaxUnfinishedIncomingRevs : Z.

(** The properties [_start] sets on the "subChanges" request before it
    looks at the filters, in the order it sets them. *)
Definition subChangesCommon (p : Puller) : list (string * PropertyValue) :=
  let props := [] in
  let props := if sequence_bool (_lastSequence p)
               then props ++ [("since", PSequence (_lastSequence p))]
               else props in
  let props := match pull (_options p) with
               | kC4Continuous => props ++ [("continuous", PText (Some "true"))]
               | _ => props
               end in
  let props := props ++ [("batch", PNumber kChangesBatchSize)] in
  if _skipDeleted p
  then props ++ [("activeOnly", PText (Some "true"))]
  else props.

(** All the properties of the "subChanges" request. *)
Definition subChangesProperties (p : Puller) : list (string * PropertyValue) :=
  let props := subChangesCommon p in
  match channels (_options p) with
  | Some chs =>
      props ++ [("filter", PText (Some "sync_gateway/bychannel"));
                ("channels", PText (Some (joinChannels chs 0 "")))]
  | None =>
      let filter := filter (_options p) in
      if slice_bool filter
      then props ++ [("filter", PText filter)]
                 ++ map (fun kv => (fst kv, PText (asString (snd kv))))
                        (filterParams (_options p))
      else props
  end.

Definition _start (sinceSequence : RemoteSequence) (p : Puller) : Puller :=
  let p := set_lastSequence sinceSequence p in
  let p := set_missingSequences (MissingSequences.clear sinceSequence) p in
  let msg := mkMessageBuilder "subChanges" (subChangesProperties p)
               (docIDs (_options p)) in
  send (SendRequest msg) p.

(** The callback [_start] gives to [sendRequest], run when the reply to
    "subChanges" arrives. *)
Definition subChangesReply (isError : bool) (p : Puller) : Puller :=
  if isError then set_fatalError true (send GotError p) else p.

(** ** The checkpoint *)

Definition updateLastSequence (p : Puller) : Puller :=
  let since := MissingSequences.since (_missingSequences p) in
  if negb (since =? _lastSequence p)%N
  then send (UpdatePullCheckpoint since) (set_lastSequence since p)
  else p.

(** Records that a sequence has been pulled.  The header gives the last
    two parameters the defaults [false] and [true]. *)
Definition completedSequence (sequence : RemoteSequence)
    (withTransientError shouldUpdateLastSequence : bool) (p : Puller) : Puller :=
  if withTransientError then
    let bodySize := MissingSequences.bodySizeOfSequence sequence (_missingSequences p) in
    addProgress (bodySize, 0%N) p
  else
    let r := MissingSequences.remove sequence (_missingSequences p) in
    let wasEarliest := fst (fst r) in
    let bodySize := snd (fst r) in
    let p := set_missingSequences (snd r) p in
    let p := if wasEarliest && shouldUpdateLastSequence
             then updateLastSequence p else p in
    addProgress (bodySize, 0%N) p.

(** ** Incoming change lists *)

(** Actually handle a "changes" message. *)
Definition handleChangesNow (req : MessageIn) (p : Puller) : Puller :=
  let reqType := Profile req in
  let proposed := String.eqb reqType "proposeChanges" in
  let changes := JSONBody req in
  if negb (bool_decide (is_Some changes)) && negb (String.eqb (body req) "null") then
    respondWithError req "BLIP" 400 "Invalid JSON body" p
  else if Array_empty changes then
    respond req (set_skipDeleted false (set_caughtUp true p))
  else if noReply req then
    p
  else if noIncomingConflicts (_options p) && negb proposed then
    respondWithError req "BLIP" 409 "" p
  else
    let p := set_pendingRevFinderCalls (increment (_pendingRevFinderCalls p) 1) p in
    send (FindOrRequestRevs req)
         (set_revFinderRequests (revFinderRequests p ++ [req]) p).

(** One turn of the loop in the RevFinder's callback. *)
Definition revsFound_step (changes : option (list Change)) (i : nat)
    (requesting : bool) (p : Puller) : Puller :=
  let p :=
    if nonPassive p then
      let change := Array_get changes i in
      let sequence := change_sequence change in
      let bodySize := if requesting
                      then N.max (change_bodySize change) 1 else 0%N in
      let p := if sequence_bool sequence
               then set_missingSequences
                      (MissingSequences.add sequence bodySize (_missingSequences p)) p
               else p in
      let p := addProgress (0%N, bodySize) p in
      if negb requesting then completedSequence sequence false true p else p
    else p in
  if requesting
  then set_pendingRevMessages (increment (_pendingRevMessages p) 1) p
  else p.

Fixpoint revsFound_loop (changes : option (list Change)) (i : nat)
    (which : list bool) (p : Puller) : Puller :=
  match which with
  | [] => p
  | requesting :: rest =>
      revsFound_loop changes (S i) rest (revsFound_step changes i requesting p)
  end.

(** The callback [handleChangesNow] hands to the RevFinder, run with the
    vector [which] once the RevFinder returns. *)
Definition revsFound (req : MessageIn) (which : list bool) (p : Puller) : Puller :=
  let p := set_pendingRevFinderCalls (decrement (_pendingRevFinderCalls p) 1) p in
  revsFound_loop (JSONBody req) 0 which p.

(** The loop of [handleMoreChanges]; [waiting] is the queue, which
    [handleChangesNow] leaves alone. *)
Fixpoint handleMoreChanges_loop (waiting : list MessageIn) (p : Puller) : Puller :=
  match waiting with
  | [] => p
  | req :: rest =>
      if _pendingRevMessages p <? kMaxPendingRevs
      then handleMoreChanges_loop rest
             (handleChangesNow req (set_waitingChangesMessages rest p))
      else p
  end.

(** Process waiting "changes" messages if not throttled. *)
Definition handleMoreChanges (p : Puller) : Puller :=
  handleMoreChanges_loop (_waitingChangesMessages p) p.

(** Receiving an incoming "changes" (or "proposeChanges") message. *)
Definition handleChanges (req : MessageIn) (p : Puller) : Puller :=
  handleMoreChanges
    (set_waitingChangesMessages (_waitingChangesMessages p ++ [req]) p).

(** ** Incoming revisions *)

(** The worker [inc->handleRev(msg)] sets to work on a "rev" message. *)
Definition newIncomingRev (msg : MessageIn) : IncomingRev :=
  mkIncomingRev (mkReplicatedRev (id msg) "" 0 0 0 false) (sequence msg) false.

(** Actually process an incoming "rev" now. *)
Definition startIncomingRev (msg : MessageIn) (p : Puller) : Puller :=
  let p := set_pendingRevMessages (decrement (_pendingRevMessages p) 1) p in
  let p := set_activeIncomingRevs (increment (_activeIncomingRevs p) 1) p in
  let p := set_unfinishedIncomingRevs (increment (_unfinishedIncomingRevs p) 1) p in
  let p := if _spareIncomingRevs p =? 0
           then p
           else set_spareIncomingRevs (_spareIncomingRevs p - 1) p in
  let p := set_incomingRevs (incomingRevs p ++ [newIncomingRev msg]) p in
  handleMoreChanges p.

(** Received an incoming "rev" message. *)
Definition handleRev (msg : MessageIn) (p : Puller) : Puller :=
  if (_activeIncomingRevs p <? kMaxActiveIncomingRevs)
     && (_unfinishedIncomingRevs p <? kMaxUnfinishedIncomingRevs)
  then startIncomingRev msg p
  else set_waitingRevMessages (_waitingRevMessages p ++ [msg]) p.

Definition handleNoRev (msg : MessageIn) (p : Puller) : Puller :=
  let p := set_incomingDocIDs (_incomingDocIDs p ∖ {[id msg]}) p in
  let p := set_pendingRevMessages (decrement (_pendingRevMessages p) 1) p in
  let sequence := sequence msg in
  let p := if sequence_bool sequence
           then completedSequence sequence false true p else p in
  let p := handleMoreChanges p in
  if negb (noReply msg) then respond msg p else p.

(** Callback from an IncomingRev when it's been written to the db but
    before the commit. *)
Definition _revWasProvisionallyHandled (p : Puller) : Puller :=
  let p := set_activeIncomingRevs (decrement (_activeIncomingRevs p) 1) p in
  if (_activeIncomingRevs p <? kMaxActiveIncomingRevs)
     && (_unfinishedIncomingRevs p <? kMaxUnfinishedIncomingRevs)
  then match _waitingRevMessages p with
       | [] => p
       | msg :: rest =>
           let p := set_waitingRevMessages rest p in
           let p := startIncomingRev msg p in
           handleMoreChanges p
       end
  else p.

(** Callback from an IncomingRev when it's finished. *)
Definition revWasHandled (inc : IncomingRev) (p : Puller) : Puller :=
  let p := set_incomingDocIDs (_incomingDocIDs p ∖ {[docID (rev inc)]}) p in
  set_returningRevs (_returningRevs p ++ [inc]) p.

Definition finishedDocument (r : ReplicatedRev) (p : Puller) : Puller :=
  send (FinishedDocument r) p.

(** The body of the loop of [_revsFinished]. *)
Definition revsFinished_step (inc : IncomingRev) (p : Puller) : Puller :=
  let p := if negb (wasProvisionallyInserted inc)
           then _revWasProvisionallyHandled p else p in
  let r := rev inc in
  let p := if nonPassive p
           then completedSequence (remoteSequence inc) (errorIsTransient r) false p
           else p in
  finishedDocument r p.

Fixpoint revsFinished_loop (revs : list IncomingRev) (p : Puller) : Puller :=
  match revs with
  | [] => p
  | inc :: rest => revsFinished_loop rest (revsFinished_step inc p)
  end.

Definition _revsFinished (p : Puller) : Puller :=
  let revs := _returningRevs p in
  let p := set_returningRevs [] p in
  let p := revsFinished_loop revs p in
  let p := set_unfinishedIncomingRevs
             (decrement (_unfinishedIncomingRevs p)
                        (Z.of_nat (length revs) mod 2 ^ 32)) p in
  let p := if nonPassive p then updateLastSequence p else p in
  let capacity := kMaxActiveIncomingRevs - _spareIncomingRevs p in
  if capacity >? 0
  then set_spareIncomingRevs
         (_spareIncomingRevs p + Z.min capacity (Z.of_nat (length revs))) p
  else p.

(** ** Status *)

(** [workerLevel] is what [Worker::computeActivityLevel()] answers. *)
Definition computeActivityLevel (workerLevel : C4ReplicatorActivityLevel)
    (p : Puller) : C4ReplicatorActivityLevel * Puller :=
  if _fatalError p || negb (connection p) then
    (kC4Stopped, p)
  else if bool_decide (workerLevel = kC4Busy)
          || (negb (_caughtUp p) && nonPassive p)
          || (_pendingRevMessages p >? 0)
          || (_unfinishedIncomingRevs p >? 0)
          || (_pendingRevFinderCalls p >? 0) then
    (kC4Busy, p)
  else if bool_decide (pull (_options p) = kC4Continuous) || isOpenServer p then
    (kC4Idle, set_spareIncomingRevs 0 p)
  else
    (kC4Stopped, p).

(** ** The actors around the worker *)

(** What can happen to the worker: the transport delivers the reply to
    "subChanges" or a message, or drops the connection; the RevFinder
    answers its oldest outstanding request; the IncomingRev worker at
    position [i] of [incomingRevs] reports a provisional insertion, or
    finishes with an error code and hands itself back; the batch of
    returned workers is drained. *)
Inductive Event :=
| EvSubChangesReply (isError : bool)
| EvConnectionClosed
| EvChanges (req : MessageIn)
| EvRev (msg : MessageIn)
| EvNoRev (msg : MessageIn)
| EvRevsFound (which : list bool)
| EvProvisionallyInserted (i : nat)
| EvRevWasHandled (i : nat) (err : Z) (transient : bool)
| EvRevsFinished.

(** Modelled from the spec: the RevFinder is not among the sources; it
    "must update the shared incoming-docID set (adding each requested
    docID)". *)
Fixpoint requestedDocIDs (changes : list Change) (which : list bool) : gset string :=
  match changes, which with
  | c :: changes', w :: which' =>
      (if w then {[change_docID c]} else ∅) ∪ requestedDocIDs changes' which'
  | _, _ => ∅
  end.

Definition markProvisionallyInserted (inc : IncomingRev) : IncomingRev :=
  mkIncomingRev (rev inc) (remoteSequence inc) true.

Definition finishWith (err : Z) (transient : bool) (inc : IncomingRev) : IncomingRev :=
  let r := rev inc in
  mkIncomingRev
    (mkReplicatedRev (docID r) (revID r) (flags r) (rev_sequence r) err transient)
    (remoteSequence inc) (wasProvisionallyInserted inc).

(** One event; [None] when the event cannot happen in this state (no
    request is outstanding, no such worker, or the worker has already
    reported its provisional insertion). *)
Definition step (p : Puller) (ev : Event) : option Puller :=
  match ev with
  | EvSubChangesReply isError => Some (subChangesReply isError p)
  | EvConnectionClosed => Some (set_connection false p)
  | EvChanges req => Some (handleChanges req p)
  | EvRev msg => Some (handleRev msg p)
  | EvNoRev msg => Some (handleNoRev msg p)
  | EvRevsFound which =>
      match revFinderRequests p with
      | [] => None
      | req :: rest =>
          let p := set_revFinderRequests rest p in
          let p := set_incomingDocIDs
                     (_incomingDocIDs p
                        ∪ requestedDocIDs (default [] (JSONBody req)) which) p in
          Some (revsFound req which p)
      end
  | EvProvisionallyInserted i =>
      match incomingRevs p !! i with
      | Some inc =>
          if wasProvisionallyInserted inc then None
          else Some (_revWasProvisionallyHandled
                       (set_incomingRevs
                          (<[i := markProvisionallyInserted inc]> (incomingRevs p)) p))
      | None => None
      end
  | EvRevWasHandled i err transient =>
      match incomingRevs p !! i with
      | Some inc =>
          Some (revWasHandled (finishWith err transient inc)
                  (set_incomingRevs (delete i (incomingRevs p)) p))
      | None => None
      end
  | EvRevsFinished => Some (_revsFinished p)
  end.

Fixpoint run (p : Puller) (evs : list Event) : option Puller :=
  match evs with
  | [] => Some p
  | ev :: rest =>
      match step p ev with
      | Some p' => run p' rest
      | None => None
      end
  end.

End Tuning.

(** * The vocabulary of the properties *)

(** The flow-control counters and the missing set, which a message that is
    answered on the spot must leave alone. *)
Definition sameCountersAndMissing (p p' : Puller) : Prop :=
  _missingSequences p' = _missingSequences p
  /\ _lastSequence p' = _lastSequence p
  /\ _pendingRevMessages p' = _pendingRevMessages p
  /\ _activeIncomingRevs p' = _activeIncomingRevs p
  /\ _unfinishedIncomingRevs p' = _unfinishedIncomingRevs p
  /\ _pendingRevFinderCalls p' = _pendingRevFinderCalls p
  /\ revFinderRequests p' = revFinderRequests p.

(** C7 as the spec words it: a body that is not a JSON array is answered
    with error 400, and neither the missing set nor a counter changes. *)
Definition rejectsMalformedBody (req : MessageIn) (p : Puller) : Prop :=
  JSONBody req = None ->
  sent (handleChangesNow req p)
    = sent p ++ [RespondWithError req "BLIP" 400 "Invalid JSON body"]
  /\ sameCountersAndMissing p (handleChangesNow req p).

(** The channel names joined by commas, as the spec words the value of the
    [channels] property. *)
Fixpoint commaJoined (names : list string) : string :=
  match names with
  | [] => ""
  | [name] => name
  | name :: rest => name +:+ "," +:+ commaJoined rest
  end.

(** The names of the channel entries [_start] writes: those whose
    [asString()] is not the null slice. *)
Definition channelNames (chs : list Value) : list string := omap asString chs.

(** The worker with another custom filter configured. *)
Definition withCustomFilter (f : slice) (params : list (string * Value))
    (p : Puller) : Puller :=
  let o := _options p in
  mkPuller
    (mkOptions (pull o) (skipDeleted o) (noIncomingConflicts o) (channels o)
       f params (docIDs o))
    (connection p) (isOpenServer p) (_lastSequence p) (_missingSequences p)
    (_skipDeleted p) (_caughtUp p) (_fatalError p) (_waitingChangesMessages p)
    (_waitingRevMessages p) (_pendingRevMessages p) (_activeIncomingRevs p)
    (_unfinishedIncomingRevs p) (_pendingRevFinderCalls p) (_spareIncomingRevs p)
    (_incomingDocIDs p) (_returningRevs p) (progress p) (revFinderRequests p)
    (incomingRevs p) (sent p).

(** The members that handling "changes" messages never writes. *)
Definition besideChanges (p : Puller) :=
  (_options p, connection p, isOpenServer p, _lastSequence p,
   _missingSequences p, _fatalError p, _waitingRevMessages p,
   _pendingRevMessages p, _activeIncomingRevs p, _unfinishedIncomingRevs p,
   _spareIncomingRevs p, _incomingDocIDs p, _returningRevs p, progress p,
   incomingRevs p).

(** What handling a "changes" message of the queue [waiting] may send. *)
Inductive changesOutput (waiting : list MessageIn) : Output -> Prop :=
| changesOutput_respond req :
    req ∈ waiting -> changesOutput waiting (Respond req)
| changesOutput_error req domain code message :
    req ∈ waiting -> changesOutput waiting (RespondWithError req domain code message)
| changesOutput_find req :
    req ∈ waiting -> changesOutput waiting (FindOrRequestRevs req).

(** The members that [completedSequence] and [updateLastSequence] never
    write. *)
Definition besideCheckpoint (p : Puller) :=
  (_options p, connection p, isOpenServer p, _skipDeleted p, _caughtUp p,
   _fatalError p, _waitingChangesMessages p, _waitingRevMessages p,
   _pendingRevMessages p, _activeIncomingRevs p, _unfinishedIncomingRevs p,
   _pendingRevFinderCalls p, _spareIncomingRevs p, _incomingDocIDs p,
   _returningRevs p, revFinderRequests p, incomingRevs p).

Definition isCheckpointUpdate (o : Output) : Prop :=
  exists s, o = UpdatePullCheckpoint s.

(** The states the worker can be in: a new worker, started at any point,
    after any number of events. *)
Inductive reachable (kChangesBatchSize kMaxPendingRevs kMaxActiveIncomingRevs
    kMaxUnfinishedIncomingRevs : Z) : Puller -> Prop :=
| reachable_new options openServer :
    reachable kChangesBatchSize kMaxPendingRevs kMaxActiveIncomingRevs
      kMaxUnfinishedIncomingRevs (Puller_new options openServer)
| reachable_start sinceSequence p :
    reachable kChangesBatchSize kMaxPendingRevs kMaxActiveIncomingRevs
      kMaxUnfinishedIncomingRevs p ->
    reachable kChangesBatchSize kMaxPendingRevs kMaxActiveIncomingRevs
      kMaxUnfinishedIncomingRevs (_start kChangesBatchSize sinceSequence p)
| reachable_step p ev p' :
    reachable kChangesBatchSize kMaxPendingRevs kMaxActiveIncomingRevs
      kMaxUnfinishedIncomingRevs p ->
    step kMaxPendingRevs kMaxActiveIncomingRevs kMaxUnfinishedIncomingRevs p ev
      = Some p' ->
    reachable kChangesBatchSize kMaxPendingRevs kMaxActiveIncomingRevs
      kMaxUnfinishedIncomingRevs p'.

(** C3 as the spec words it. *)
Definition withinCaps (kMaxPendingRevs kMaxActiveIncomingRevs
    kMaxUnfinishedIncomingRevs : Z) (p : Puller) : Prop :=
  _pendingRevMessages p <= kMaxPendingRevs
  /\ _activeIncomingRevs p <= kMaxActiveIncomingRevs
  /\ _unfinishedIncomingRevs p <= kMaxUnfinishedIncomingRevs.

(** The workers that have not reported a provisional insertion. *)
Fixpoint notProvisional (l : list IncomingRev) : Z :=
  match l with
  | [] => 0
  | inc :: rest =>
      (if wasProvisionallyInserted inc then 0 else 1) + notProvisional rest
  end.

(** The counters count the workers: [_unfinishedIncomingRevs] those that
    were started and whose final report is not drained, and
    [_activeIncomingRevs] those among them that have not reported a
    provisional insertion; [extra] are workers taken out of the batch being
    drained. *)
Definition countsWorkers (kMaxActiveIncomingRevs kMaxUnfinishedIncomingRevs : Z)
    (extra : list IncomingRev) (drained : Z) (p : Puller) : Prop :=
  _activeIncomingRevs p
    = notProvisional (incomingRevs p ++ _returningRevs p ++ extra)
  /\ _unfinishedIncomingRevs p
     = Z.of_nat (length (incomingRevs p ++ _returningRevs p ++ extra)) + drained
  /\ _activeIncomingRevs p <= kMaxActiveIncomingRevs
  /\ _unfinishedIncomingRevs p <= kMaxUnfinishedIncomingRevs.

(** The members that the RevFinder's callback never writes. *)
Definition besideFound (p : Puller) :=
  (_options p, connection p, isOpenServer p, _skipDeleted p, _caughtUp p,
   _fatalError p, _waitingChangesMessages p, _waitingRevMessages p,
   _activeIncomingRevs p, _unfinishedIncomingRevs p, _spareIncomingRevs p,
   _incomingDocIDs p, _returningRevs p, revFinderRequests p, incomingRevs p).

(** The two counters and the workers they count. *)
Definition workersView (p : Puller) :=
  (_activeIncomingRevs p, _unfinishedIncomingRevs p, incomingRevs p, _returningRevs p).

(** A message waits in [_waitingChangesMessages] only while
    [_pendingRevMessages] has reached its cap. *)
Definition changesSettled (kMaxPendingRevs : Z) (p : Puller) : Prop :=
  _waitingChangesMessages p = [] \/ kMaxPendingRevs <= _pendingRevMessages p.

(** A message waits in [_waitingRevMessages] only while
    [_activeIncomingRevs] or [_unfinishedIncomingRevs] has reached its cap. *)
Definition revsSettled (kMaxActiveIncomingRevs kMaxUnfinishedIncomingRevs : Z)
    (p : Puller) : Prop :=
  _waitingRevMessages p = []
  \/ kMaxActiveIncomingRevs <= _activeIncomingRevs p
  \/ kMaxUnfinishedIncomingRevs <= _unfinishedIncomingRevs p.

(** C4 as the spec words its consequence: both queues are settled. *)
Definition pumpsSettled (kMaxPendingRevs kMaxActiveIncomingRevs
    kMaxUnfinishedIncomingRevs : Z) (p : Puller) : Prop :=
  changesSettled kMaxPendingRevs p
  /\ revsSettled kMaxActiveIncomingRevs kMaxUnfinishedIncomingRevs p.

(** What decides whether a queue is settled. *)
Definition changesView (p : Puller) := (_waitingChangesMessages p, _pendingRevMessages p).

Definition revsView (p : Puller) :=
  (_waitingRevMessages p, _activeIncomingRevs p, _unfinishedIncomingRevs p).

(** The watermark is not above any member, and not above the greatest
    removed sequence when there is no member. *)
Definition watermarked (s : MissingSequences.t) : Prop :=
  (forall k, is_Some (MissingSequences.members s !! k) -> (MissingSequences.base s <= k)%N)
  /\ (MissingSequences.members s = ∅ ->
      (MissingSequences.base s <= MissingSequences.greatestRemoved s)%N).

(** Nothing the set knows of is above [h]. *)
Definition below (h : N) (s : MissingSequences.t) : Prop :=
  (MissingSequences.base s <= h)%N
  /\ (MissingSequences.greatestRemoved s <= h)%N
  /\ forall k, is_Some (MissingSequences.members s !! k) -> (k <= h)%N.

(** The sequences a list of changes announces: the entries whose sequence
    is not the null slice, in order. *)
Fixpoint sequencesOf (l : list Change) : list N :=
  match l with
  | [] => []
  | c :: rest =>
      if sequence_bool (change_sequence c)
      then change_sequence c :: sequencesOf rest
      else sequencesOf rest
  end.

Definition announced (req : MessageIn) : list N :=
  sequencesOf (default [] (JSONBody req)).

Definition queuedFeed (msgs : list MessageIn) : list N := flat_map announced msgs.

(** The sequences announced to the worker and not yet given to the missing
    set: those of the requests the RevFinder still holds, then those of the
    messages waiting in the queue. *)
Definition pendingFeed (p : Puller) : list N :=
  queuedFeed (revFinderRequests p) ++ queuedFeed (_waitingChangesMessages p).

(** The sequences the "changes" messages of a trace announce. *)
Definition eventsFeed (evs : list Event) : list N :=
  flat_map (fun ev => match ev with EvChanges req => announced req | _ => [] end) evs.

(** The remote announces in its own order: no sequence is before the one
    announced before it, and none is before [h]. *)
Fixpoint ascendingFrom (h : N) (feed : list N) : Prop :=
  match feed with
  | [] => True
  | x :: rest => (h <= x)%N /\ ascendingFrom x rest
  end.

(** Handling "changes" messages, starting workers and sending leave the
    missing set and the checkpoint alone, and can only take announced
    sequences out of the pending feed. *)
Definition feedShrinks (p p' : Puller) : Prop :=
  _missingSequences p' = _missingSequences p
  /\ _lastSequence p' = _lastSequence p
  /\ _options p' = _options p
  /\ pendingFeed p' `sublist_of` pendingFeed p.

(** The checkpoint is not beyond [since()], and every sequence still to be
    announced ([feed], in order) is not before anything the missing set
    knows of. *)
Definition checkpointInv (feed : list N) (p : Puller) : Prop :=
  watermarked (_missingSequences p)
  /\ (_lastSequence p <= MissingSequences.since (_missingSequences p))%N
  /\ exists h, below h (_missingSequences p) /\ ascendingFrom h feed.

(** The checkpoint equals [since()]. *)
Definition synced (p : Puller) : Prop :=
  _lastSequence p = MissingSequences.since (_missingSequences p).

(** The options and both queues of "changes" messages are as before. *)
Definition sameFeed (p p' : Puller) : Prop :=
  _options p' = _options p /\ pendingFeed p' = pendingFeed p.

(** While a batch is drained the checkpoint may lag behind [since()], but
    only in an active pull, which ends the batch with
    [updateLastSequence]. *)
Definition draining (future : list N) (p : Puller) : Prop :=
  checkpointInv (pendingFeed p ++ future) p
  /\ (nonPassive p = false -> synced p).

Definition eventFeed (ev : Event) : list N :=
  match ev with EvChanges req => announced req | _ => [] end.

(** C1 as the spec words it, between an earlier state [p1] and a later
    state [p2] of a trace: the checkpoint has not moved back, and it is not
    greater than any sequence still in the missing set. *)
Definition checkpointHolds (p1 p2 : Puller) : Prop :=
  (_lastSequence p1 <= _lastSequence p2)%N
  /\ forall s, is_Some (MissingSequences.members (_missingSequences p2) !! s) ->
               (_lastSequence p2 <= s)%N.

(** The channel names that are not the empty text. *)
Definition nonEmptyNames (chs : list Value) : list string :=
  List.filter (fun name => negb (String.eqb name "")) (channelNames chs).

(** C9 as the spec words it: the [channels] property of the request is the
    comma-joined non-empty channel names. *)
Definition joinsNonEmptyNames (kChangesBatchSize : Z) (sinceSequence : N)
    (p : Puller) (chs : list Value) : Prop :=
  sent (_start kChangesBatchSize sinceSequence p)
  = sent p ++
    [SendRequest
       (mkMessageBuilder "subChanges"
          (subChangesCommon kChangesBatchSize (set_lastSequence sinceSequence p)
             ++ [("filter", PText (Some "sync_gateway/bychannel"));
                 ("channels", PText (Some (commaJoined (nonEmptyNames chs))))])
          (docIDs (_options p)))].

(** * Messages, states and traces used as instances *)

Definition busyButFatal : Puller :=
  set_fatalError true
    (set_pendingRevMessages 7
       (set_unfinishedIncomingRevs 3
          (Puller_new (mkOptions kC4Continuous false false None None [] None) false))).

Definition nullBodyMessage : MessageIn :=
  mkMessageIn 1 "changes" "null" None false "" nullslice.

Definition freshPuller : Puller :=
  Puller_new (mkOptions kC4OneShot false false None None [] None) false.

Definition garbageBodyMessage : MessageIn :=
  mkMessageIn 1 "changes" "{" None false "" nullslice.

Definition emptyChangesMessage : MessageIn :=
  mkMessageIn 4 "changes" "[]" (Some []) false "" nullslice.

Definition skippingPuller : Puller :=
  Puller_new (mkOptions kC4OneShot true false None None [] None) false.

Definition noreplyChangesMessage : MessageIn :=
  mkMessageIn 5 "changes" "[[101,...]]" (Some [mkChange 101%N "doc1" 500%N]) true "" nullslice.

Definition channelOptions : Options :=
  mkOptions kC4Continuous false false
    (Some [VString "news"; VInt 7; VString ""; VString "sport"])
    (Some "myFilter") [("level", VString "3")] None.

(** A "changes" message that announces [count] revisions, with the
    sequences [first], [first+1], ... *)
Definition announcing (number : N) (first count : nat) : MessageIn :=
  mkMessageIn number "changes" "[[...]]"
    (Some (map (fun k => mkChange (N.of_nat k) "doc" 10%N) (seq first count)))
    false "" nullslice.

Definition oneShot : Options := mkOptions kC4OneShot false false None None [] None.

(** Two batches of 200 changes arrive while nothing is pending, so both are
    handed to the RevFinder; it wants them all. *)
Definition twoBatches : list Event :=
  [EvChanges (announcing 1 1 200); EvChanges (announcing 2 201 200);
   EvRevsFound (replicate 200 true); EvRevsFound (replicate 200 true)].

Definition afterTwoBatches : Puller :=
  default freshPuller
    (run 200 100 200 (_start 200 nullslice (Puller_new oneShot false)) twoBatches).

Definition oneRevStarted : Puller :=
  default freshPuller
    (run 2 1 1 (_start 200 100%N (Puller_new oneShot false))
       [EvChanges (announcing 1 101 2); EvRevsFound [true; true];
        EvRev (mkMessageIn 2 "rev" "{}" None false "doc" 101%N)]).

(** With room for one active and one unfinished revision: two revisions are
    wanted, the first "rev" starts a worker, the second has to wait; the
    worker reports its provisional insertion and then finishes. *)
Definition oneWaitingRev : list Event :=
  [EvChanges (announcing 1 101 2); EvRevsFound [true; true];
   EvRev (mkMessageIn 2 "rev" "{}" None false "doc" 102%N);
   EvRev (mkMessageIn 3 "rev" "{}" None false "doc" 101%N);
   EvProvisionallyInserted 0;
   EvRevWasHandled 0 0 false].

Definition beforeDraining : Puller :=
  default freshPuller
    (run 2 1 1 (_start 200 100%N (Puller_new oneShot false)) oneWaitingRev).

(** Two revisions, 101 and 102, are wanted; 102 is finished first. *)
Definition secondFinishesFirst : list Event :=
  [EvChanges (announcing 1 101 2); EvRevsFound [true; true];
   EvRev (mkMessageIn 2 "rev" "{}" None false "doc" 102%N);
   EvRev (mkMessageIn 3 "rev" "{}" None false "doc" 101%N);
   EvProvisionallyInserted 0; EvRevWasHandled 0 0 false; EvRevsFinished].

(** Then 101 is finished as well. *)
Definition thenTheFirst : list Event :=
  [EvProvisionallyInserted 0; EvRevWasHandled 0 0 false; EvRevsFinished].

Definition afterSecond : Puller :=
  default freshPuller
    (run 200 100 200 (_start 200 100%N (Puller_new oneShot false)) secondFinishesFirst).

Definition afterBoth : Puller :=
  default freshPuller (run 200 100 200 afterSecond thenTheFirst).

(** The scenarios of the spec: one wanted revision of 500 bytes after
    sequence 100, which either succeeds or fails with a transient error;
    and three announced revisions of which only the second is wanted. *)
Definition oneDocument : MessageIn :=
  mkMessageIn 1 "changes" "[[101,...]]" (Some [mkChange 101%N "doc1" 500%N])
    false "" nullslice.

Definition pullOneDocument (transient : bool) : list Event :=
  [EvChanges oneDocument; EvRevsFound [true];
   EvRev (mkMessageIn 2 "rev" "{}" None false "doc1" 101%N);
   EvProvisionallyInserted 0;
   EvRevWasHandled 0 (if transient then 1 else 0) transient;
   EvRevsFinished].

Definition threeAnnounced : list Event :=
  [EvChanges (announcing 1 101 3); EvRevsFound [false; true; false]].

Definition startedAt100 : Puller := _start 200 100%N (Puller_new oneShot false).

(** A pull started at sequence 200 to which the remote then announces the
    sequences 50 and 51, both wanted; then the remote refuses 50. *)
Definition startedAt200 : Puller := _start 200 200%N (Puller_new oneShot false).

Definition lateAnnouncement : list Event :=
  [EvChanges (announcing 1 50 2); EvRevsFound [true; true]].

Definition refusing50 : list Event :=
  [EvNoRev (mkMessageIn 2 "norev" "" None false "doc" 50%N)].

Definition afterLateAnnouncement : Puller :=
  default freshPuller (run 200 100 200 startedAt200 lateAnnouncement).

Definition afterRefusing50 : Puller :=
  default freshPuller (run 200 100 200 afterLateAnnouncement refusing50).

(** Channels of which two are named by the empty text. *)
Definition emptyNamedChannels : list Value := [VString ""; VString "a"; VString ""].

Definition emptyNamedOptions : Options :=
  mkOptions kC4OneShot false false (Some emptyNamedChannels) None [] None.

(** * The vocabulary of the further properties *)

(** The guard of the last branch of [handleChangesNow]: the message carries
    a non-empty list of changes, expects a reply, and is not a plain
    "changes" under [noIncomingConflicts]. *)
Definition accepted (options : Options) (req : MessageIn) : bool :=
  negb (Array_empty (JSONBody req))
  && negb (noReply req)
  && negb (noIncomingConflicts options
           && negb (String.eqb (Profile req) "proposeChanges")).

(** The revisions the RevFinder wants. *)
Fixpoint countTrue (which : list bool) : Z :=
  match which with
  | [] => 0
  | w :: rest => (if w then 1 else 0) + countTrue rest
  end.

(** The revisions reported to the delegate, oldest first. *)
Fixpoint finishedDocuments (outs : list Output) : list ReplicatedRev :=
  match outs with
  | [] => []
  | FinishedDocument r :: rest => r :: finishedDocuments rest
  | _ :: rest => finishedDocuments rest
  end.

(** The keys of the properties [_start] sets before it looks at the
    filters. *)
Definition commonKeys (kChangesBatchSize : Z) (p : Puller) : list string :=
  map fst (subChangesCommon kChangesBatchSize p).

(** The spare pool holds at most [kMaxActiveIncomingRevs] workers. *)
Definition sparePoolBounded (kMaxActiveIncomingRevs : Z) (p : Puller) : Prop :=
  0 <= _spareIncomingRevs p <= kMaxActiveIncomingRevs.

(** [_pendingRevFinderCalls] counts the requests the RevFinder holds. *)
Definition countsRevFinderCalls (p : Puller) : Prop :=
  _pendingRevFinderCalls p = Z.of_nat (length (revFinderRequests p)) mod 2 ^ 32.

(** What only the constructor and the caught-up branch write. *)
Definition caughtUpClearsSkipDeleted (p : Puller) : Prop :=
  _caughtUp p = true -> _skipDeleted p = false.

(** The members no handler of the worker writes, apart from the handling
    of a "changes" message, the RevFinder's callback and the transport. *)
Definition flagsView (p : Puller) :=
  (_options p, connection p, isOpenServer p, _skipDeleted p, _caughtUp p,
   _fatalError p, _pendingRevFinderCalls p, revFinderRequests p).

(** The worker cannot work any more. *)
Definition stoppedForGood (p : Puller) : Prop :=
  _fatalError p = true \/ connection p = false.

(** What the RevFinder's callback adds to the total of the progress: for
    every wanted change its body size, or 1 when that is 0. *)
Fixpoint wantedUnits (changes : option (list Change)) (i : nat) (which : list bool) : N :=
  match which with
  | [] => 0%N
  | w :: rest =>
      ((if w then N.max (change_bodySize (Array_get changes i)) 1 else 0)
       + wantedUnits changes (S i) rest)%N
  end.

(** * Messages and states used as instances of the further properties *)

Definition conflictFree : Options := mkOptions kC4Passive false true None None [] None.

Definition plainChanges : MessageIn :=
  mkMessageIn 7 "changes" "[[5,...]]" (Some [mkChange 5%N "doc5" 40%N]) false "" nullslice.

Definition proposedChanges : MessageIn :=
  mkMessageIn 8 "proposeChanges" "[[5,...]]" (Some [mkChange 5%N "doc5" 40%N])
    false "" nullslice.

Definition continuousServer : Options :=
  mkOptions kC4Continuous true false None None [] None.

(** With room for two pending revisions: two are wanted, so the next
    "changes" message has to wait. *)
Definition throttledTrace : list Event :=
  [EvChanges (announcing 1 101 2); EvRevsFound [true; true];
   EvChanges (announcing 2 103 1)].

Definition throttled : Puller :=
  default freshPuller
    (run 2 1 1 (_start 200 100%N (Puller_new oneShot false)) throttledTrace).

(** * Properties *)

(** ** The scenarios of the spec, run on the model *)

Example missing_set_out_of_order :
  let s := MissingSequences.add 102%N 200%N
             (MissingSequences.add 101%N 100%N (MissingSequences.clear 100%N)) in
  MissingSequences.since s = 100%N
  /\ MissingSequences.since (snd (MissingSequences.remove 102%N s)) = 100%N
  /\ MissingSequences.since
       (snd (MissingSequences.remove 101%N (snd (MissingSequences.remove 102%N s))))
     = 102%N.
Proof. vm_compute. auto. Qed.

(** X18: one document, pulled without error.  An active one-shot pull
    started at sequence 100 is told of one revision of 500 bytes with
    sequence 101, which the RevFinder wants; the "rev" arrives, its worker
    reports the provisional insertion and finishes, and the batch is
    drained.  The checkpoint is then 101, the missing set is empty, the
    progress is 500 of 500, and after the "subChanges" request the worker
    has handed the message to the RevFinder, reported the document and
    updated the checkpoint, in this order. *)
Example single_document_happy_path :
  match run 200 100 200 startedAt100 (pullOneDocument false) with
  | Some p =>
      _lastSequence p = 101%N
      /\ MissingSequences.members (_missingSequences p) = ∅
      /\ progress p = (500%N, 500%N)
      /\ sent p
         = sent startedAt100
           ++ [FindOrRequestRevs oneDocument;
               FinishedDocument (mkReplicatedRev "doc1" "" 0 0 0 false);
               UpdatePullCheckpoint 101%N]
  | None => False
  end.
Proof. vm_compute. auto. Qed.

(** X19: the same pull when the worker finishes with a transient error:
    the checkpoint stays at 100 and sequence 101 stays in the missing set
    with its body size, while the progress still reaches 500 of 500. *)
Example transient_error_keeps_sequence :
  match run 200 100 200 startedAt100 (pullOneDocument true) with
  | Some p =>
      _lastSequence p = 100%N
      /\ MissingSequences.members (_missingSequences p) !! 101%N = Some 500%N
      /\ progress p = (500%N, 500%N)
  | None => False
  end.
Proof. vm_compute. auto. Qed.

(** X20: three revisions are announced after sequence 100 and the
    RevFinder wants only the second.  The first is completed on the spot and
    takes the checkpoint to 101; the second is pending and in the missing
    set with its body size; the third is completed too but cannot move the
    checkpoint past the second. *)
Example not_wanted_prefix_advances_checkpoint :
  match run 200 100 200 startedAt100 threeAnnounced with
  | Some p =>
      _lastSequence p = 101%N
      /\ _pendingRevMessages p = 1
      /\ MissingSequences.members (_missingSequences p) !! 102%N = Some 10%N
      /\ MissingSequences.members (_missingSequences p) !! 103%N = None
  | None => False
  end.
Proof. vm_compute. auto. Qed.

(** ** The status *)

(** C5: once [_fatalError] is set, or when there is no connection,
    [computeActivityLevel] answers [kC4Stopped], whatever the counters, the
    caught-up flag and the level of the base class are. *)
Theorem computeActivityLevel_fatal_stopped :
  forall (workerLevel : C4ReplicatorActivityLevel) (p : Puller),
    _fatalError p = true \/ connection p = false ->
    fst (computeActivityLevel workerLevel p) = kC4Stopped.
Proof.
  intros workerLevel p H. unfold computeActivityLevel.
  destruct H as [-> | ->]; [reflexivity|].
  rewrite orb_true_r. reflexivity.
Qed.

Lemma computeActivityLevel_fatal_stopped_witness :
  fst (computeActivityLevel kC4Busy busyButFatal) = kC4Stopped.
Proof.
  apply computeActivityLevel_fatal_stopped. left. reflexivity.
Defined.

(** ** Completing a sequence *)

(** C2: with a transient error, [completedSequence] only adds the body size
    recorded for the sequence to the completed progress: the missing set,
    the membership of the sequence in it, and the checkpoint stay as they
    were. *)
Theorem completedSequence_transient :
  forall (sequence : RemoteSequence) (shouldUpdateLastSequence : bool) (p : Puller),
    let p' := completedSequence sequence true shouldUpdateLastSequence p in
    _missingSequences p' = _missingSequences p
    /\ _lastSequence p' = _lastSequence p
    /\ fst (progress p')
       = (fst (progress p)
          + MissingSequences.bodySizeOfSequence sequence (_missingSequences p))%N
    /\ snd (progress p') = snd (progress p)
    /\ sent p' = sent p.
Proof.
  intros sequence b p. cbn. repeat split. apply N.add_0_r.
Qed.

(** ** Handling one "changes" message *)

(** C7, counterexample: the body [null] is not a JSON array, yet the worker
    takes it for the empty list: it answers with a plain reply and sets
    [_caughtUp]. *)
Lemma null_body_is_caught_up :
  JSONBody nullBodyMessage = None
  /\ sent (handleChangesNow nullBodyMessage freshPuller) = [Respond nullBodyMessage]
  /\ _caughtUp (handleChangesNow nullBodyMessage freshPuller) = true
  /\ ~ rejectsMalformedBody nullBodyMessage freshPuller.
Proof.
  repeat split; try reflexivity.
  intros H. destruct (H eq_refl) as [Hsent _]. vm_compute in Hsent. discriminate.
Qed.

(** The body [null] is handled like the empty list, for every message and
    state. *)
Lemma handleChangesNow_null_body (req : MessageIn) (p : Puller) :
  JSONBody req = None ->
  body req = "null" ->
  handleChangesNow req p = respond req (set_skipDeleted false (set_caughtUp true p)).
Proof.
  intros Hbody Hnull. unfold handleChangesNow. rewrite Hbody, Hnull. reflexivity.
Qed.

(** C7, amended: a body that is not a JSON array and is not the text
    [null] is answered with error 400 "Invalid JSON body"; nothing is added
    to the missing set and no counter changes. *)
Theorem handleChangesNow_invalid_body :
  forall (req : MessageIn) (p : Puller),
    JSONBody req = None ->
    body req <> "null" ->
    sent (handleChangesNow req p)
      = sent p ++ [RespondWithError req "BLIP" 400 "Invalid JSON body"]
    /\ sameCountersAndMissing p (handleChangesNow req p)
    /\ _caughtUp (handleChangesNow req p) = _caughtUp p.
Proof.
  intros req p Hbody Hnull. unfold handleChangesNow. rewrite Hbody.
  apply String.eqb_neq in Hnull. rewrite Hnull. cbn.
  unfold sameCountersAndMissing. cbn. repeat split.
Qed.

Lemma handleChangesNow_invalid_body_witness :
  sent (handleChangesNow garbageBodyMessage freshPuller)
    = sent freshPuller
      ++ [RespondWithError garbageBodyMessage "BLIP" 400 "Invalid JSON body"]
  /\ sameCountersAndMissing freshPuller (handleChangesNow garbageBodyMessage freshPuller)
  /\ _caughtUp (handleChangesNow garbageBodyMessage freshPuller) = _caughtUp freshPuller.
Proof.
  apply handleChangesNow_invalid_body.
  - reflexivity.
  - vm_compute. discriminate.
Defined.

(** C8: the empty JSON array sets [_caughtUp], clears [_skipDeleted] and is
    answered with an empty reply; the missing set and the counters stay as
    they were, and the RevFinder is not called. *)
Theorem handleChangesNow_empty_array :
  forall (req : MessageIn) (p : Puller),
    JSONBody req = Some [] ->
    let p' := handleChangesNow req p in
    _caughtUp p' = true
    /\ _skipDeleted p' = false
    /\ sent p' = sent p ++ [Respond req]
    /\ sameCountersAndMissing p p'.
Proof.
  intros req p Hbody. unfold handleChangesNow. rewrite Hbody. cbn.
  unfold sameCountersAndMissing. cbn. repeat split.
Qed.

Lemma handleChangesNow_empty_array_witness :
  _skipDeleted skippingPuller = true
  /\ _caughtUp (handleChangesNow emptyChangesMessage skippingPuller) = true
  /\ _skipDeleted (handleChangesNow emptyChangesMessage skippingPuller) = false.
Proof.
  split; [reflexivity|].
  destruct (handleChangesNow_empty_array emptyChangesMessage skippingPuller eq_refl)
    as (H1 & H2 & _).
  split; assumption.
Defined.

(** C10: a non-empty list of changes in a message marked no-reply is
    dropped: the state of the worker is the one before, so nothing is sent,
    the RevFinder is not called, no counter moves and the missing set is
    untouched. *)
Theorem handleChangesNow_noreply_dropped :
  forall (req : MessageIn) (c : Change) (rest : list Change) (p : Puller),
    JSONBody req = Some (c :: rest) ->
    noReply req = true ->
    handleChangesNow req p = p
    /\ sent (handleChangesNow req p) = sent p
    /\ sameCountersAndMissing p (handleChangesNow req p).
Proof.
  intros req c rest p Hbody Hnoreply.
  assert (handleChangesNow req p = p) as ->.
  { unfold handleChangesNow. rewrite Hbody, Hnoreply. reflexivity. }
  unfold sameCountersAndMissing. repeat split.
Qed.

Lemma handleChangesNow_noreply_dropped_witness :
  handleChangesNow noreplyChangesMessage freshPuller = freshPuller.
Proof.
  apply (handleChangesNow_noreply_dropped noreplyChangesMessage
           (mkChange 101%N "doc1" 500%N) [] freshPuller); reflexivity.
Defined.

(** [handleChangesNow] leaves the queue of waiting messages alone. *)
Lemma handleChangesNow_queue (req : MessageIn) (p : Puller) :
  _waitingChangesMessages (handleChangesNow req p) = _waitingChangesMessages p.
Proof.
  unfold handleChangesNow.
  repeat match goal with |- context [if ?b then _ else _] => destruct b end;
    reflexivity.
Qed.

(** An unthrottled worker with an empty queue handles a "changes" message
    at once: the registered handler is [handleChangesNow]. *)
Lemma handleChanges_unthrottled (kMaxPendingRevs : Z) (req : MessageIn) (p : Puller) :
  _waitingChangesMessages p = [] ->
  _pendingRevMessages p < kMaxPendingRevs ->
  handleChanges kMaxPendingRevs req p = handleChangesNow req p.
Proof.
  intros Hw Hlt. apply Z.ltb_lt in Hlt.
  destruct p. cbn in Hw, Hlt. subst.
  unfold handleChanges, handleMoreChanges. cbn. rewrite Hlt. reflexivity.
Qed.

(** ** The "subChanges" request *)

Lemma string_app_assoc (a b c : string) : (a +:+ b) +:+ c = a +:+ b +:+ c.
Proof.
  induction a as [|x a IH]; [reflexivity|].
  change (String x ((a +:+ b) +:+ c) = String x (a +:+ b +:+ c)).
  by rewrite IH.
Qed.

Lemma string_app_nil_r (a : string) : a +:+ "" = a.
Proof.
  induction a as [|x a IH]; [reflexivity|].
  change (String x (a +:+ "") = String x a). by rewrite IH.
Qed.

(** After the first name every further name is written behind a comma. *)
Lemma joinChannels_more (chs : list Value) (n : nat) (value : string) :
  joinChannels chs (S n) value
  = value +:+ foldr (fun name acc => "," +:+ name +:+ acc) "" (channelNames chs).
Proof.
  revert n value. induction chs as [|v chs IH]; intros n value; cbn.
  - by rewrite string_app_nil_r.
  - destruct (asString v) as [name|]; cbn.
    + rewrite IH. by rewrite !string_app_assoc.
    + apply IH.
Qed.

Lemma commaJoined_cons (name : string) (rest : list string) :
  commaJoined (name :: rest)
  = name +:+ foldr (fun name acc => "," +:+ name +:+ acc) "" rest.
Proof.
  revert name. induction rest as [|name' rest IH]; intros name.
  - cbn. by rewrite string_app_nil_r.
  - change (name +:+ "," +:+ commaJoined (name' :: rest)
            = name +:+ "," +:+ name' +:+ foldr (fun name acc => "," +:+ name +:+ acc) "" rest).
    by rewrite IH.
Qed.

Lemma joinChannels_commaJoined (chs : list Value) :
  joinChannels chs 0 "" = commaJoined (channelNames chs).
Proof.
  induction chs as [|v chs IH]; [reflexivity|].
  assert (channelNames (v :: chs)
          = match asString v with
            | Some name => name :: channelNames chs
            | None => channelNames chs
            end) as -> by reflexivity.
  cbn [joinChannels]. destruct (asString v) as [name|].
  - rewrite joinChannels_more, commaJoined_cons. reflexivity.
  - exact IH.
Qed.

(** C9, counterexample: with the channels [""], ["a"], [""] the request
    carries [channels = ",a,"]: an empty name passes [if (name)], which
    tests the slice for null, so it is written and gets its commas.  The
    comma-joined non-empty names would be ["a"]. *)
Lemma empty_channel_names_are_joined :
  channels (_options (Puller_new emptyNamedOptions false)) = Some emptyNamedChannels
  /\ sent (_start 200 nullslice (Puller_new emptyNamedOptions false))
     = [SendRequest
          (mkMessageBuilder "subChanges"
             [("batch", PNumber 200);
              ("filter", PText (Some "sync_gateway/bychannel"));
              ("channels", PText (Some ",a,"))]
             None)]
  /\ commaJoined (nonEmptyNames emptyNamedChannels) = "a"
  /\ ~ joinsNonEmptyNames 200 nullslice (Puller_new emptyNamedOptions false)
        emptyNamedChannels.
Proof.
  split; [reflexivity|]. split; [reflexivity|]. split; [reflexivity|].
  intros H. vm_compute in H. discriminate.
Qed.

(** C9, amended: when the [channels] option is set, the "subChanges" request
    carries [filter = sync_gateway/bychannel] and [channels] = the
    comma-joined names of the channel entries that are strings (an entry of
    another type is skipped, an empty string is kept as an empty name), and
    nothing of the custom filter: the request is the same whatever filter
    name and filter parameters are configured. *)
Theorem start_channels_override_filter :
  forall (kChangesBatchSize : Z) (sinceSequence : RemoteSequence) (p : Puller)
         (chs : list Value),
    channels (_options p) = Some chs ->
    sent (_start kChangesBatchSize sinceSequence p)
      = sent p ++
        [SendRequest
           (mkMessageBuilder "subChanges"
              (subChangesCommon kChangesBatchSize (set_lastSequence sinceSequence p)
                 ++ [("filter", PText (Some "sync_gateway/bychannel"));
                     ("channels", PText (Some (commaJoined (channelNames chs))))])
              (docIDs (_options p)))]
    /\ forall (f : slice) (params : list (string * Value)),
         sent (_start kChangesBatchSize sinceSequence (withCustomFilter f params p))
         = sent (_start kChangesBatchSize sinceSequence p).
Proof.
  intros batch since p chs Hch. split.
  - unfold _start, send, subChangesProperties. cbn. rewrite Hch.
    by rewrite joinChannels_commaJoined.
  - intros f params. unfold _start, send, subChangesProperties. cbn.
    rewrite Hch. reflexivity.
Qed.

Lemma start_channels_override_filter_witness :
  sent (_start 200 100%N (Puller_new channelOptions false))
  = [SendRequest
       (mkMessageBuilder "subChanges"
          [("since", PSequence 100%N);
           ("continuous", PText (Some "true"));
           ("batch", PNumber 200);
           ("filter", PText (Some "sync_gateway/bychannel"));
           ("channels", PText (Some "news,,sport"))]
          None)].
Proof.
  destruct (start_channels_override_filter 200 100%N (Puller_new channelOptions false)
              [VString "news"; VInt 7; VString ""; VString "sport"] eq_refl) as [H _].
  exact H.
Defined.

(** Without the [channels] option the custom filter, if any, is sent with
    its parameters. *)
Lemma start_custom_filter_without_channels (kChangesBatchSize : Z)
    (sinceSequence : N) (p : Puller) (name : string) :
  channels (_options p) = None ->
  filter (_options p) = Some name ->
  sent (_start kChangesBatchSize sinceSequence p)
  = sent p ++
    [SendRequest
       (mkMessageBuilder "subChanges"
          (subChangesCommon kChangesBatchSize (set_lastSequence sinceSequence p)
             ++ [("filter", PText (Some name))]
             ++ map (fun kv => (fst kv, PText (asString (snd kv))))
                    (filterParams (_options p)))
          (docIDs (_options p)))].
Proof.
  intros Hch Hf. unfold _start, send, subChangesProperties. cbn.
  rewrite Hch, Hf. reflexivity.
Qed.

(** ** What the changes pump leaves alone *)

(** Closes a goal [exists outs, sent p = sent p ++ outs /\ Forall P outs]
    when nothing was sent. *)
Ltac nothing_sent :=
  exists []; split; [by rewrite app_nil_r | constructor].


Lemma changesOutput_mono (w w' : list MessageIn) (o : Output) :
  w ⊆ w' -> changesOutput w o -> changesOutput w' o.
Proof.
  intros Hsub H. destruct H; constructor; by apply Hsub.
Qed.

Lemma handleChangesNow_beside (req : MessageIn) (p : Puller) :
  besideChanges (handleChangesNow req p) = besideChanges p
  /\ _waitingChangesMessages (handleChangesNow req p) = _waitingChangesMessages p
  /\ exists outs, sent (handleChangesNow req p) = sent p ++ outs
                  /\ Forall (changesOutput [req]) outs.
Proof.
  unfold handleChangesNow.
  repeat match goal with |- context [if ?b then _ else _] => destruct b end;
    cbn; (split; [reflexivity|]); (split; [reflexivity|]).
  all: try (eexists [_]; split; [reflexivity|];
            repeat constructor; apply list_elem_of_singleton; reflexivity).
  nothing_sent.
Qed.

Section Pump.

Variable kMaxPendingRevs : Z.

Lemma handleMoreChanges_loop_beside (waiting : list MessageIn) (p : Puller) :
  let p' := handleMoreChanges_loop kMaxPendingRevs waiting p in
  besideChanges p' = besideChanges p
  /\ exists outs, sent p' = sent p ++ outs /\ Forall (changesOutput waiting) outs.
Proof.
  revert p. induction waiting as [|req rest IH]; intros p; cbn.
  - split; [reflexivity|]. nothing_sent.
  - destruct (_pendingRevMessages p <? kMaxPendingRevs).
    + destruct (IH (handleChangesNow req (set_waitingChangesMessages rest p)))
        as (Hb & outs & Hs & Ho).
      destruct (handleChangesNow_beside req (set_waitingChangesMessages rest p))
        as (Hb1 & _ & outs1 & Hs1 & Ho1).
      split; [by rewrite Hb, Hb1|].
      exists (outs1 ++ outs). split.
      * rewrite Hs, Hs1. cbn. by rewrite app_assoc.
      * apply Forall_app. split.
        -- eapply Forall_impl; [exact Ho1|]. intros o.
           apply changesOutput_mono.
           intros x Hx%list_elem_of_singleton. subst x. by left.
        -- eapply Forall_impl; [exact Ho|]. intros o.
           apply changesOutput_mono. intros x Hx. by right.
    + split; [reflexivity|]. nothing_sent.
Qed.

Lemma handleMoreChanges_beside (p : Puller) :
  besideChanges (handleMoreChanges kMaxPendingRevs p) = besideChanges p
  /\ exists outs, sent (handleMoreChanges kMaxPendingRevs p) = sent p ++ outs
                  /\ Forall (changesOutput (_waitingChangesMessages p)) outs.
Proof. apply handleMoreChanges_loop_beside. Qed.

End Pump.

(** ** What completing a sequence changes *)

Lemma remove_members (seq : RemoteSequence) (s : MissingSequences.t) :
  MissingSequences.members (snd (MissingSequences.remove seq s))
  = delete seq (MissingSequences.members s).
Proof.
  unfold MissingSequences.remove.
  destruct (MissingSequences.members s !! seq) eqn:E; cbn; [reflexivity|].
  symmetry. by apply delete_id.
Qed.

Lemma updateLastSequence_spec (p : Puller) :
  _lastSequence (updateLastSequence p) = MissingSequences.since (_missingSequences p)
  /\ _missingSequences (updateLastSequence p) = _missingSequences p
  /\ progress (updateLastSequence p) = progress p
  /\ besideCheckpoint (updateLastSequence p) = besideCheckpoint p
  /\ exists outs, sent (updateLastSequence p) = sent p ++ outs
                  /\ Forall isCheckpointUpdate outs.
Proof.
  unfold updateLastSequence.
  destruct (MissingSequences.since (_missingSequences p) =? _lastSequence p)%N eqn:E; cbn.
  - apply N.eqb_eq in E. repeat split; [by symmetry|].
    nothing_sent.
  - repeat split. eexists [_]. split; [reflexivity|].
    repeat constructor. by eexists.
Qed.

Lemma completedSequence_spec (seq : RemoteSequence) (shouldUpdate : bool) (p : Puller) :
  let r := MissingSequences.remove seq (_missingSequences p) in
  let p' := completedSequence seq false shouldUpdate p in
  _missingSequences p' = snd r
  /\ _lastSequence p'
     = (if fst (fst r) && shouldUpdate
        then MissingSequences.since (snd r) else _lastSequence p)
  /\ progress p' = ((progress p).1 + snd (fst r), (progress p).2 + 0)%N
  /\ besideCheckpoint p' = besideCheckpoint p
  /\ exists outs, sent p' = sent p ++ outs /\ Forall isCheckpointUpdate outs.
Proof.
  cbn zeta. unfold completedSequence.
  set (r := MissingSequences.remove seq (_missingSequences p)).
  destruct (fst (fst r) && shouldUpdate); cbn.
  - destruct (updateLastSequence_spec (set_missingSequences (snd r) p))
      as (H1 & H2 & H3 & H4 & H5).
    cbn in H1, H2, H3, H5. rewrite H1, H2, H3. repeat split; try done.
  - repeat split. nothing_sent.
Qed.

(** ** A "norev" message *)

(** C6: [handleNoRev] takes one off [_pendingRevMessages], removes the
    docID of the message from the incoming-docID set, removes the sequence
    of the message (and no other) from the missing set, brings the
    checkpoint up to [since()] when that sequence was the earliest, and
    answers the message with an empty reply unless it is marked no-reply.
    The other two counters stay as they were.  Besides the reply, only a
    checkpoint update and what the changes pump sends for the messages that
    were waiting goes out. *)
Theorem handleNoRev_effect :
  forall (kMaxPendingRevs : Z) (msg : MessageIn) (p : Puller),
    let p' := handleNoRev kMaxPendingRevs msg p in
    let removed := MissingSequences.remove (sequence msg) (_missingSequences p) in
    _pendingRevMessages p' = (_pendingRevMessages p - 1) mod 2 ^ 32
    /\ _incomingDocIDs p' = _incomingDocIDs p ∖ {[id msg]}
    /\ MissingSequences.members (_missingSequences p')
       = (if sequence_bool (sequence msg)
          then delete (sequence msg) (MissingSequences.members (_missingSequences p))
          else MissingSequences.members (_missingSequences p))
    /\ _lastSequence p'
       = (if sequence_bool (sequence msg) && fst (fst removed)
          then MissingSequences.since (_missingSequences p')
          else _lastSequence p)
    /\ _activeIncomingRevs p' = _activeIncomingRevs p
    /\ _unfinishedIncomingRevs p' = _unfinishedIncomingRevs p
    /\ exists outs,
         sent p' = sent p ++ outs ++ (if noReply msg then [] else [Respond msg])
         /\ Forall (fun o => isCheckpointUpdate o
                             \/ changesOutput (_waitingChangesMessages p) o) outs.
Proof.
  intros cap msg p. cbn zeta. unfold handleNoRev.
  set (p1 := set_pendingRevMessages _ (set_incomingDocIDs _ p)).
  set (p2 := if sequence_bool (sequence msg)
             then completedSequence (sequence msg) false true p1 else p1).
  destruct (handleMoreChanges_beside cap p2) as (Hb & outs3 & Hs3 & Ho3).
  set (p3 := handleMoreChanges cap p2) in *.
  assert (_missingSequences p2
          = (if sequence_bool (sequence msg)
             then snd (MissingSequences.remove (sequence msg) (_missingSequences p))
             else _missingSequences p)
          /\ _lastSequence p2
             = (if sequence_bool (sequence msg)
                   && fst (fst (MissingSequences.remove (sequence msg) (_missingSequences p)))
                then MissingSequences.since (_missingSequences p2)
                else _lastSequence p)
          /\ besideCheckpoint p2 = besideCheckpoint p1
          /\ exists outs, sent p2 = sent p ++ outs /\ Forall isCheckpointUpdate outs)
    as (Hm2 & Hl2 & Hb2 & outs2 & Hs2 & Ho2).
  { subst p2. destruct (sequence_bool (sequence msg)); cbn [andb].
    - destruct (completedSequence_spec (sequence msg) true p1)
        as (H1 & H2 & _ & H4 & H5).
      cbn zeta in *. rewrite H1, H2. rewrite andb_true_r.
      split; [reflexivity|]. split; [reflexivity|]. split; [exact H4|]. exact H5.
    - repeat split. nothing_sent. }
  assert (sent (if negb (noReply msg) then respond msg p3 else p3)
          = sent p3 ++ (if noReply msg then [] else [Respond msg])) as Hs.
  { destruct (noReply msg); cbn; [by rewrite app_nil_r | reflexivity]. }
  assert (forall q, besideChanges (if negb (noReply msg) then respond msg q else q)
                    = besideChanges q) as Hr.
  { intros q. by destruct (noReply msg). }
  specialize (Hr p3). rewrite Hb in Hr.
  assert (_waitingChangesMessages p2 = _waitingChangesMessages p) as Hw.
  { unfold besideCheckpoint in Hb2. by simplify_eq. }
  rewrite Hw in Ho3. rewrite Hs, Hs3, Hs2.
  unfold besideChanges in Hr. unfold besideCheckpoint in Hb2.
  simplify_eq. cbn in *.
  repeat match goal with H : _ = _ |- _ => rewrite H; clear H end.
  repeat split.
  - destruct (sequence_bool (sequence msg)); [apply remove_members | reflexivity].
  - exists (outs2 ++ outs3). split.
    + by rewrite <- !app_assoc.
    + apply Forall_app. split.
      * eapply Forall_impl; [exact Ho2|]. intros o Ho. by left.
      * eapply Forall_impl; [exact Ho3|]. intros o Ho. by right.
Qed.

(** ** Reachable states and the flow-control counters *)

Lemma notProvisional_app (l1 l2 : list IncomingRev) :
  notProvisional (l1 ++ l2) = notProvisional l1 + notProvisional l2.
Proof.
  induction l1 as [|inc l1 IH]; cbn; [reflexivity|]. rewrite IH. lia.
Qed.

Lemma notProvisional_nonneg (l : list IncomingRev) : 0 <= notProvisional l.
Proof.
  induction l as [|inc l IH]; cbn; [lia|].
  destruct (wasProvisionallyInserted inc); lia.
Qed.

Lemma revsFound_step_beside (changes : option (list Change)) (i : nat)
    (requesting : bool) (p : Puller) :
  besideFound (revsFound_step changes i requesting p) = besideFound p.
Proof.
  unfold revsFound_step.
  destruct (nonPassive p) eqn:Hnp.
  - set (q := addProgress _ _).
    assert (besideFound q = besideFound p) as Hq.
    { subst q. destruct (sequence_bool _); reflexivity. }
    destruct requesting; cbn [negb].
    + exact Hq.
    + destruct (completedSequence_spec
                  (change_sequence (Array_get changes i)) true q) as (_ & _ & _ & Hb & _).
      rewrite <- Hq. unfold besideCheckpoint in Hb. unfold besideFound.
      simplify_eq. congruence.
  - by destruct requesting.
Qed.

Lemma revsFound_loop_beside (changes : option (list Change)) (which : list bool)
    (i : nat) (p : Puller) :
  besideFound (revsFound_loop changes i which p) = besideFound p.
Proof.
  revert i p. induction which as [|w which IH]; intros i p; cbn; [reflexivity|].
  by rewrite IH, revsFound_step_beside.
Qed.

Lemma revsFound_beside (req : MessageIn) (which : list bool) (p : Puller) :
  besideFound (revsFound req which p) = besideFound p.
Proof. unfold revsFound. by rewrite revsFound_loop_beside. Qed.

Lemma besideChanges_workersView (p p' : Puller) :
  besideChanges p' = besideChanges p -> workersView p' = workersView p.
Proof. unfold besideChanges, workersView. intros H. simplify_eq. congruence. Qed.

Lemma besideCheckpoint_workersView (p p' : Puller) :
  besideCheckpoint p' = besideCheckpoint p -> workersView p' = workersView p.
Proof. unfold besideCheckpoint, workersView. intros H. simplify_eq. congruence. Qed.

Lemma besideFound_workersView (p p' : Puller) :
  besideFound p' = besideFound p -> workersView p' = workersView p.
Proof. unfold besideFound, workersView. intros H. simplify_eq. congruence. Qed.

Lemma countsWorkers_view (capA capU : Z) (extra : list IncomingRev) (drained : Z)
    (p p' : Puller) :
  workersView p' = workersView p ->
  countsWorkers capA capU extra drained p -> countsWorkers capA capU extra drained p'.
Proof.
  unfold workersView, countsWorkers. intros H. simplify_eq.
  repeat match goal with H : _ = _ |- _ => rewrite H; clear H end. done.
Qed.

Lemma notProvisional_insert (l : list IncomingRev) (i : nat) (inc : IncomingRev) :
  l !! i = Some inc ->
  wasProvisionallyInserted inc = false ->
  notProvisional (<[i := markProvisionallyInserted inc]> l) = notProvisional l - 1
  /\ length (<[i := markProvisionallyInserted inc]> l) = length l.
Proof.
  intros Hi Hp. split; [|apply length_insert].
  revert i Hi. induction l as [|x l IH]; intros [|i] Hi; cbn in Hi; try discriminate.
  - simplify_eq. cbn. rewrite Hp. lia.
  - change (notProvisional (x :: <[i := markProvisionallyInserted inc]> l)
            = notProvisional (x :: l) - 1).
    cbn [notProvisional]. rewrite (IH i Hi). lia.
Qed.

Lemma notProvisional_delete (l : list IncomingRev) (i : nat) (inc : IncomingRev) :
  l !! i = Some inc ->
  notProvisional l = notProvisional (delete i l) + notProvisional [inc]
  /\ length l = S (length (delete i l)).
Proof.
  revert i. induction l as [|x l IH]; intros [|i] Hi; cbn in Hi; try discriminate.
  - simplify_eq. cbn. split; [lia | reflexivity].
  - destruct (IH i Hi) as [H1 H2].
    change (notProvisional (x :: l)
            = notProvisional (x :: delete i l) + notProvisional [inc]
            /\ length (x :: l) = S (length (x :: delete i l))).
    cbn [notProvisional length] in H1 |- *. rewrite H1, H2.
    split; [lia | reflexivity].
Qed.

Section Counters.

Variables kChangesBatchSize kMaxPendingRevs : Z.
Variables kMaxActiveIncomingRevs kMaxUnfinishedIncomingRevs : Z.

(** The caps are [unsigned] constants. *)
Hypothesis active_cap : 0 <= kMaxActiveIncomingRevs < 2 ^ 32.
Hypothesis unfinished_cap : 0 <= kMaxUnfinishedIncomingRevs < 2 ^ 32.

Abbreviation counts := (countsWorkers kMaxActiveIncomingRevs kMaxUnfinishedIncomingRevs).

Lemma startIncomingRev_counts (msg : MessageIn) (p : Puller) :
  0 <= _activeIncomingRevs p < kMaxActiveIncomingRevs ->
  0 <= _unfinishedIncomingRevs p < kMaxUnfinishedIncomingRevs ->
  workersView (startIncomingRev kMaxPendingRevs msg p)
  = (_activeIncomingRevs p + 1, _unfinishedIncomingRevs p + 1,
     incomingRevs p ++ [newIncomingRev msg], _returningRevs p).
Proof.
  intros Ha Hu. unfold startIncomingRev.
  match goal with |- workersView (handleMoreChanges _ ?q) = _ => set (p1 := q) end.
  destruct (handleMoreChanges_beside kMaxPendingRevs p1) as [Hb _].
  rewrite (besideChanges_workersView _ _ Hb).
  subst p1. unfold workersView.
  destruct (_spareIncomingRevs _ =? 0); cbn; unfold increment;
    rewrite !Z.mod_small by lia; reflexivity.
Qed.

(** The provisional report of a worker that is still counted as active. *)
Lemma revWasProvisionallyHandled_counts (extra : list IncomingRev) (drained : Z)
    (p : Puller) :
  _activeIncomingRevs p
    = notProvisional (incomingRevs p ++ _returningRevs p ++ extra) + 1 ->
  _unfinishedIncomingRevs p
    = Z.of_nat (length (incomingRevs p ++ _returningRevs p ++ extra)) + drained ->
  _activeIncomingRevs p <= kMaxActiveIncomingRevs ->
  _unfinishedIncomingRevs p <= kMaxUnfinishedIncomingRevs ->
  0 <= drained ->
  counts extra drained
    (_revWasProvisionallyHandled kMaxPendingRevs kMaxActiveIncomingRevs
       kMaxUnfinishedIncomingRevs p).
Proof.
  intros Ha Hu Hca Hcu Hd.
  pose proof (notProvisional_nonneg (incomingRevs p ++ _returningRevs p ++ extra)) as Hn.
  unfold _revWasProvisionallyHandled.
  set (p1 := set_activeIncomingRevs _ p).
  assert (_activeIncomingRevs p1 = _activeIncomingRevs p - 1) as Ha1.
  { subst p1. cbn. unfold decrement. rewrite Z.mod_small by lia. reflexivity. }
  assert (counts extra drained p1) as Hc1.
  { unfold countsWorkers. rewrite Ha1. subst p1. cbn. lia. }
  assert (0 <= _activeIncomingRevs p1 /\ 0 <= _unfinishedIncomingRevs p1) as Hpos.
  { rewrite Ha1. subst p1. cbn. lia. }
  clearbody p1.
  destruct ((_activeIncomingRevs p1 <? kMaxActiveIncomingRevs)
            && (_unfinishedIncomingRevs p1 <? kMaxUnfinishedIncomingRevs)) eqn:Hg;
    [|exact Hc1].
  destruct (_waitingRevMessages p1) as [|msg rest] eqn:Hw; [exact Hc1|].
  apply andb_true_iff in Hg. destruct Hg as [Hg1 Hg2].
  apply Z.ltb_lt in Hg1, Hg2.
  set (p2 := set_waitingRevMessages rest p1).
  destruct (handleMoreChanges_beside kMaxPendingRevs
              (startIncomingRev kMaxPendingRevs msg p2)) as [Hb _].
  apply (countsWorkers_view _ _ _ _ (startIncomingRev kMaxPendingRevs msg p2));
    [by apply besideChanges_workersView|].
  assert (workersView (startIncomingRev kMaxPendingRevs msg p2)
          = (_activeIncomingRevs p2 + 1, _unfinishedIncomingRevs p2 + 1,
             incomingRevs p2 ++ [newIncomingRev msg], _returningRevs p2)) as Hv.
  { apply startIncomingRev_counts; subst p2; cbn; lia. }
  unfold workersView in Hv. unfold countsWorkers in *.
  simplify_eq.
  repeat match goal with H : _ = _ |- _ => rewrite H; clear H end.
  subst p2. cbn in *.
  rewrite !notProvisional_app, !length_app in *. cbn. lia.
Qed.

End Counters.

Section Draining.

Variables kChangesBatchSize kMaxPendingRevs : Z.
Variables kMaxActiveIncomingRevs kMaxUnfinishedIncomingRevs : Z.
Hypothesis active_cap : 0 <= kMaxActiveIncomingRevs < 2 ^ 32.
Hypothesis unfinished_cap : 0 <= kMaxUnfinishedIncomingRevs < 2 ^ 32.

Abbreviation counts' := (countsWorkers kMaxActiveIncomingRevs kMaxUnfinishedIncomingRevs).
Abbreviation provisionallyHandled :=
  (_revWasProvisionallyHandled kMaxPendingRevs kMaxActiveIncomingRevs
     kMaxUnfinishedIncomingRevs).

Lemma startIncomingRev_returning (msg : MessageIn) (p : Puller) :
  _returningRevs (startIncomingRev kMaxPendingRevs msg p) = _returningRevs p.
Proof.
  unfold startIncomingRev.
  match goal with |- _returningRevs (handleMoreChanges _ ?q) = _ => set (p1 := q) end.
  destruct (handleMoreChanges_beside kMaxPendingRevs p1) as [Hb _].
  unfold besideChanges in Hb. simplify_eq.
  repeat match goal with H : _ = _ |- _ => rewrite H; clear H end.
  subst p1. by destruct (_spareIncomingRevs _ =? 0).
Qed.

Lemma revWasProvisionallyHandled_returning (p : Puller) :
  _returningRevs (provisionallyHandled p) = _returningRevs p.
Proof.
  unfold _revWasProvisionallyHandled.
  match goal with |- context [if ?b then _ else _] => destruct b end; [|reflexivity].
  cbn [_waitingRevMessages set_activeIncomingRevs].
  destruct (_waitingRevMessages _) as [|msg rest]; [reflexivity|].
  match goal with |- _returningRevs (handleMoreChanges _ ?q) = _ => set (p1 := q) end.
  destruct (handleMoreChanges_beside kMaxPendingRevs p1) as [Hb _].
  unfold besideChanges in Hb. simplify_eq.
  repeat match goal with H : _ = _ |- _ => rewrite H; clear H end.
  subst p1. by rewrite startIncomingRev_returning.
Qed.

Lemma revsFinished_step_counts (inc : IncomingRev) (rest : list IncomingRev)
    (drained : Z) (p : Puller) :
  _returningRevs p = [] ->
  0 <= drained ->
  counts' (inc :: rest) drained p ->
  counts' rest (drained + 1)
    (revsFinished_step kMaxPendingRevs kMaxActiveIncomingRevs
       kMaxUnfinishedIncomingRevs inc p)
  /\ _returningRevs (revsFinished_step kMaxPendingRevs kMaxActiveIncomingRevs
                       kMaxUnfinishedIncomingRevs inc p) = [].
Proof.
  intros Hret Hd Hc. unfold revsFinished_step.
  set (p1 := if negb (wasProvisionallyInserted inc) then provisionallyHandled p else p).
  assert (counts' rest (drained + 1) p1 /\ _returningRevs p1 = []) as [Hc1 Hret1].
  { subst p1. destruct Hc as (Ha & Hu & Hca & Hcu).
    rewrite !notProvisional_app in Ha. rewrite !length_app in Hu.
    cbn [notProvisional length] in Ha, Hu.
    destruct (wasProvisionallyInserted inc) eqn:Hprov; cbn [negb].
    - split; [|exact Hret]. unfold countsWorkers.
      rewrite !notProvisional_app, !length_app. lia.
    - split; [|by rewrite revWasProvisionallyHandled_returning].
      apply revWasProvisionallyHandled_counts; try assumption; try lia.
      + rewrite !notProvisional_app. lia.
      + rewrite !length_app. lia. }
  clearbody p1.
  set (p2 := if nonPassive p1 then _ else p1).
  assert (workersView p2 = workersView p1) as Hv.
  { subst p2. destruct (nonPassive p1); [|reflexivity].
    destruct (errorIsTransient (rev inc)); [reflexivity|].
    apply besideCheckpoint_workersView.
    by destruct (completedSequence_spec (remoteSequence inc) false p1)
      as (_ & _ & _ & Hb & _). }
  clearbody p2.
  assert (workersView (finishedDocument (rev inc) p2) = workersView p1) as Hv'
    by exact Hv.
  split.
  - by apply (countsWorkers_view _ _ _ _ p1).
  - unfold workersView in Hv'. simplify_eq. congruence.
Qed.

Lemma revsFinished_loop_counts (revs : list IncomingRev) (drained : Z) (p : Puller) :
  _returningRevs p = [] ->
  0 <= drained ->
  counts' revs drained p ->
  counts' [] (drained + Z.of_nat (length revs))
    (revsFinished_loop kMaxPendingRevs kMaxActiveIncomingRevs
       kMaxUnfinishedIncomingRevs revs p)
  /\ _returningRevs (revsFinished_loop kMaxPendingRevs kMaxActiveIncomingRevs
                       kMaxUnfinishedIncomingRevs revs p) = [].
Proof.
  revert drained p. induction revs as [|inc rest IH]; intros drained p Hret Hd Hc.
  - cbn. rewrite Z.add_0_r. by split.
  - cbn [revsFinished_loop].
    destruct (revsFinished_step_counts inc rest drained p Hret Hd Hc) as [Hc1 Hret1].
    destruct (IH (drained + 1) _ Hret1 ltac:(lia) Hc1) as [Hc2 Hret2].
    split; [|exact Hret2].
    replace (drained + Z.of_nat (length (inc :: rest)))
      with (drained + 1 + Z.of_nat (length rest)) by (cbn [length]; lia).
    exact Hc2.
Qed.

Lemma revsFinished_counts (p : Puller) :
  counts' [] 0 p ->
  counts' [] 0
    (_revsFinished kMaxPendingRevs kMaxActiveIncomingRevs
       kMaxUnfinishedIncomingRevs p).
Proof.
  intros Hc. unfold _revsFinished.
  set (revs := _returningRevs p).
  destruct (revsFinished_loop_counts revs 0 (set_returningRevs [] p)) as [Hc1 Hret1].
  - reflexivity.
  - lia.
  - unfold countsWorkers in *. cbn. fold revs in Hc.
    by rewrite app_nil_r in Hc.
  - set (p1 := revsFinished_loop _ _ _ revs _) in *. clearbody p1.
    set (p2 := set_unfinishedIncomingRevs _ p1).
    assert (counts' [] 0 p2) as Hc2.
    { destruct Hc1 as (Ha & Hu & Hca & Hcu). unfold countsWorkers. subst p2. cbn.
      rewrite Hret1 in *. cbn in Hu |- *. rewrite app_nil_r in *.
      unfold decrement.
      rewrite (Z.mod_small (Z.of_nat (length revs))) by lia.
      rewrite Z.mod_small by lia. lia. }
    clearbody p2.
    set (p3 := if nonPassive p2 then updateLastSequence p2 else p2).
    assert (workersView p3 = workersView p2) as Hv.
    { subst p3. destruct (nonPassive p2); [|reflexivity].
      apply besideCheckpoint_workersView.
      by destruct (updateLastSequence_spec p2) as (_ & _ & _ & Hb & _). }
    apply (countsWorkers_view _ _ _ _ p3).
    + by destruct (_ >? 0).
    + by apply (countsWorkers_view _ _ _ _ p2).
Qed.

End Draining.

Section Reachable.

Variables kChangesBatchSize kMaxPendingRevs : Z.
Variables kMaxActiveIncomingRevs kMaxUnfinishedIncomingRevs : Z.
Hypothesis active_cap : 0 <= kMaxActiveIncomingRevs < 2 ^ 32.
Hypothesis unfinished_cap : 0 <= kMaxUnfinishedIncomingRevs < 2 ^ 32.

Abbreviation counted :=
  (countsWorkers kMaxActiveIncomingRevs kMaxUnfinishedIncomingRevs [] 0).

Lemma handleNoRev_workersView (msg : MessageIn) (p : Puller) :
  workersView (handleNoRev kMaxPendingRevs msg p) = workersView p.
Proof.
  unfold handleNoRev.
  set (p1 := set_pendingRevMessages _ (set_incomingDocIDs _ p)).
  set (p2 := if sequence_bool (sequence msg)
             then completedSequence (sequence msg) false true p1 else p1).
  assert (workersView p2 = workersView p) as H2.
  { subst p2. destruct (sequence_bool _); [|reflexivity].
    transitivity (workersView p1); [|reflexivity].
    apply besideCheckpoint_workersView.
    by destruct (completedSequence_spec (sequence msg) true p1)
      as (_ & _ & _ & Hb & _). }
  clearbody p2.
  destruct (handleMoreChanges_beside kMaxPendingRevs p2) as [Hb _].
  apply besideChanges_workersView in Hb.
  destruct (negb (noReply msg)); cbn; rewrite <- H2, <- Hb; reflexivity.
Qed.

Lemma step_counted (p p' : Puller) (ev : Event) :
  counted p ->
  step kMaxPendingRevs kMaxActiveIncomingRevs kMaxUnfinishedIncomingRevs p ev
    = Some p' ->
  counted p'.
Proof.
  intros Hc Hstep.
  pose proof (notProvisional_nonneg (incomingRevs p ++ _returningRevs p ++ [])) as Hn.
  destruct ev as [isError| |req|msg|msg|which|i|i err transient|]; cbn in Hstep.
  - simplify_eq. apply (countsWorkers_view _ _ _ _ p); [|exact Hc].
    by destruct isError.
  - simplify_eq. exact Hc.
  - simplify_eq. unfold handleChanges.
    set (p1 := set_waitingChangesMessages _ p).
    destruct (handleMoreChanges_beside kMaxPendingRevs p1) as [Hb _].
    apply (countsWorkers_view _ _ _ _ p1); [by apply besideChanges_workersView|].
    exact Hc.
  - simplify_eq. unfold handleRev.
    destruct ((_activeIncomingRevs p <? kMaxActiveIncomingRevs)
              && (_unfinishedIncomingRevs p <? kMaxUnfinishedIncomingRevs)) eqn:Hg;
      [|exact Hc].
    apply andb_true_iff in Hg. destruct Hg as [Hg1 Hg2].
    apply Z.ltb_lt in Hg1, Hg2.
    destruct Hc as (Ha & Hu & Hca & Hcu).
    pose proof (startIncomingRev_counts kMaxPendingRevs kMaxActiveIncomingRevs
                  kMaxUnfinishedIncomingRevs active_cap unfinished_cap msg p
                  ltac:(lia) ltac:(lia)) as Hv.
    unfold workersView in Hv. injection Hv as Hv1 Hv2 Hv3 Hv4.
    unfold countsWorkers. rewrite Hv1, Hv2, Hv3, Hv4.
    rewrite !notProvisional_app, !length_app in *.
    cbn [notProvisional length] in Ha, Hu. cbn. lia.
  - simplify_eq.
    apply (countsWorkers_view _ _ _ _ p); [apply handleNoRev_workersView | exact Hc].
  - destruct (revFinderRequests p) as [|req rest]; [discriminate|]. simplify_eq.
    apply (countsWorkers_view _ _ _ _ p); [|exact Hc].
    match goal with |- workersView (revsFound _ _ ?q) = _ =>
      transitivity (workersView q); [|reflexivity] end.
    apply besideFound_workersView, revsFound_beside.
  - destruct (incomingRevs p !! i) as [inc|] eqn:Hi; [|discriminate].
    destruct (wasProvisionallyInserted inc) eqn:Hprov; [discriminate|]. simplify_eq.
    destruct Hc as (Ha & Hu & Hca & Hcu).
    destruct (notProvisional_insert _ _ _ Hi Hprov) as [Hn1 Hl1].
    rewrite !notProvisional_app in Ha. rewrite !length_app in Hu.
    apply revWasProvisionallyHandled_counts; try assumption; cbn; try lia.
    + rewrite !notProvisional_app, Hn1. lia.
    + rewrite !length_app, Hl1. lia.
  - destruct (incomingRevs p !! i) as [inc|] eqn:Hi; [|discriminate]. simplify_eq.
    destruct Hc as (Ha & Hu & Hca & Hcu).
    destruct (notProvisional_delete _ _ _ Hi) as [Hn1 Hl1].
    rewrite !notProvisional_app in Ha. rewrite !length_app in Hu.
    unfold countsWorkers, revWasHandled. cbn.
    rewrite !notProvisional_app, !length_app. cbn in *. lia.
  - simplify_eq. by apply revsFinished_counts.
Qed.

Lemma reachable_counted (p : Puller) :
  reachable kChangesBatchSize kMaxPendingRevs kMaxActiveIncomingRevs
    kMaxUnfinishedIncomingRevs p ->
  counted p.
Proof.
  induction 1 as [options openServer|since p Hr IH|p ev p' Hr IH Hstep].
  - unfold countsWorkers. cbn. lia.
  - exact IH.
  - by eapply step_counted.
Qed.

Lemma run_reachable (p p' : Puller) (evs : list Event) :
  reachable kChangesBatchSize kMaxPendingRevs kMaxActiveIncomingRevs
    kMaxUnfinishedIncomingRevs p ->
  run kMaxPendingRevs kMaxActiveIncomingRevs kMaxUnfinishedIncomingRevs p evs
    = Some p' ->
  reachable kChangesBatchSize kMaxPendingRevs kMaxActiveIncomingRevs
    kMaxUnfinishedIncomingRevs p'.
Proof.
  revert p. induction evs as [|ev evs IH]; intros p Hr Hrun; cbn in Hrun.
  - by simplify_eq.
  - destruct (step _ _ _ p ev) as [p1|] eqn:Hstep; [|discriminate].
    apply (IH p1); [|exact Hrun]. by eapply reachable_step.
Qed.

End Reachable.

(** C3, amended: in every reachable state [_activeIncomingRevs] is at most
    [kMaxActiveIncomingRevs] and [_unfinishedIncomingRevs] is at most
    [kMaxUnfinishedIncomingRevs] (the caps being [unsigned] constants);
    both count workers, so they never wrap below zero either. *)
Theorem active_and_unfinished_within_caps :
  forall (kChangesBatchSize kMaxPendingRevs kMaxActiveIncomingRevs
          kMaxUnfinishedIncomingRevs : Z) (p : Puller),
    0 <= kMaxActiveIncomingRevs < 2 ^ 32 ->
    0 <= kMaxUnfinishedIncomingRevs < 2 ^ 32 ->
    reachable kChangesBatchSize kMaxPendingRevs kMaxActiveIncomingRevs
      kMaxUnfinishedIncomingRevs p ->
    0 <= _activeIncomingRevs p <= kMaxActiveIncomingRevs
    /\ 0 <= _unfinishedIncomingRevs p <= kMaxUnfinishedIncomingRevs.
Proof.
  intros batch capP capA capU p HA HU Hr.
  destruct (reachable_counted batch capP capA capU HA HU p Hr) as (Ha & Hu & Hca & Hcu).
  pose proof (notProvisional_nonneg (incomingRevs p ++ _returningRevs p ++ [])).
  lia.
Qed.

(** C3, counterexample: with the caps at 200, 100 and 200 the worker reaches
    a state with 400 revisions pending, twice [kMaxPendingRevs]: the cap is
    looked at before a "changes" message is handled, and the counter grows
    when the RevFinder answers. *)
Lemma pending_exceeds_cap :
  reachable 200 200 100 200 afterTwoBatches
  /\ _pendingRevMessages afterTwoBatches = 400
  /\ ~ withinCaps 200 100 200 afterTwoBatches.
Proof.
  assert (_pendingRevMessages afterTwoBatches = 400) as Hp
    by (vm_compute; reflexivity).
  split; [|split; [exact Hp|]].
  - apply (run_reachable 200 200 100 200
             (_start 200 nullslice (Puller_new oneShot false)) _ twoBatches).
    + apply reachable_start, reachable_new.
    + vm_compute. reflexivity.
  - intros (H & _). rewrite Hp in H. lia.
Qed.

Lemma active_and_unfinished_within_caps_witness :
  _activeIncomingRevs oneRevStarted = 1
  /\ (0 <= _activeIncomingRevs oneRevStarted <= 1
      /\ 0 <= _unfinishedIncomingRevs oneRevStarted <= 1).
Proof.
  split; [reflexivity|].
  apply (active_and_unfinished_within_caps 200 2 1 1 oneRevStarted).
  - lia.
  - lia.
  - apply (run_reachable 200 2 1 1 (_start 200 100%N (Puller_new oneShot false)) _
             [EvChanges (announcing 1 101 2); EvRevsFound [true; true];
              EvRev (mkMessageIn 2 "rev" "{}" None false "doc" 101%N)]).
    + apply reachable_start, reachable_new.
    + vm_compute. reflexivity.
Defined.

(** ** The pumps after a terminal event *)

Lemma changesSettled_view (cap : Z) (p p' : Puller) :
  changesView p' = changesView p -> changesSettled cap p -> changesSettled cap p'.
Proof.
  unfold changesView, changesSettled. intros H. injection H as H1 H2.
  by rewrite H1, H2.
Qed.

Lemma revsSettled_view (capA capU : Z) (p p' : Puller) :
  revsView p' = revsView p -> revsSettled capA capU p -> revsSettled capA capU p'.
Proof.
  unfold revsView, revsSettled. intros H. injection H as H1 H2 H3.
  by rewrite H1, H2, H3.
Qed.

Lemma besideCheckpoint_changesView (p p' : Puller) :
  besideCheckpoint p' = besideCheckpoint p -> changesView p' = changesView p.
Proof. unfold besideCheckpoint, changesView. intros H. simplify_eq. congruence. Qed.

Lemma besideCheckpoint_revsView (p p' : Puller) :
  besideCheckpoint p' = besideCheckpoint p -> revsView p' = revsView p.
Proof. unfold besideCheckpoint, revsView. intros H. simplify_eq. congruence. Qed.

Lemma besideChanges_revsView (p p' : Puller) :
  besideChanges p' = besideChanges p -> revsView p' = revsView p.
Proof. unfold besideChanges, revsView. intros H. simplify_eq. congruence. Qed.

Section Settling.

Variables kMaxPendingRevs kMaxActiveIncomingRevs kMaxUnfinishedIncomingRevs : Z.

(** The loop of the changes pump stops only on an empty queue or at the
    cap. *)
Lemma handleMoreChanges_loop_settles (waiting : list MessageIn) (p : Puller) :
  _waitingChangesMessages p = waiting ->
  changesSettled kMaxPendingRevs (handleMoreChanges_loop kMaxPendingRevs waiting p).
Proof.
  revert p. induction waiting as [|req rest IH]; intros p Hw; cbn.
  - by left.
  - destruct (_pendingRevMessages p <? kMaxPendingRevs) eqn:Hlt.
    + apply IH.
      by destruct (handleChangesNow_beside req (set_waitingChangesMessages rest p))
        as (_ & -> & _).
    + right. by apply Z.ltb_ge.
Qed.

Lemma handleMoreChanges_settles (p : Puller) :
  changesSettled kMaxPendingRevs (handleMoreChanges kMaxPendingRevs p).
Proof. by apply handleMoreChanges_loop_settles. Qed.

Lemma startIncomingRev_settles (msg : MessageIn) (p : Puller) :
  changesSettled kMaxPendingRevs (startIncomingRev kMaxPendingRevs msg p).
Proof. apply handleMoreChanges_settles. Qed.

(** The provisional report leaves the changes queue settled. *)
Lemma revWasProvisionallyHandled_changesSettled (p : Puller) :
  changesSettled kMaxPendingRevs p ->
  changesSettled kMaxPendingRevs
    (_revWasProvisionallyHandled kMaxPendingRevs kMaxActiveIncomingRevs
       kMaxUnfinishedIncomingRevs p).
Proof.
  intros Hs. unfold _revWasProvisionallyHandled.
  match goal with |- context [if ?b then _ else _] => destruct b end; [|exact Hs].
  destruct (_waitingRevMessages _) as [|msg rest]; [exact Hs|].
  apply handleMoreChanges_settles.
Qed.

Lemma revsFinished_step_changesSettled (inc : IncomingRev) (p : Puller) :
  changesSettled kMaxPendingRevs p ->
  changesSettled kMaxPendingRevs
    (revsFinished_step kMaxPendingRevs kMaxActiveIncomingRevs
       kMaxUnfinishedIncomingRevs inc p).
Proof.
  intros Hs. unfold revsFinished_step.
  set (p1 := if negb (wasProvisionallyInserted inc) then _ else p).
  assert (changesSettled kMaxPendingRevs p1) as Hs1.
  { subst p1. destruct (negb _); [|exact Hs].
    by apply revWasProvisionallyHandled_changesSettled. }
  clearbody p1.
  set (p2 := if nonPassive p1 then _ else p1).
  assert (changesView p2 = changesView p1) as Hv.
  { subst p2. destruct (nonPassive p1); [|reflexivity].
    destruct (errorIsTransient (rev inc)); [reflexivity|].
    apply besideCheckpoint_changesView.
    by destruct (completedSequence_spec (remoteSequence inc) false p1)
      as (_ & _ & _ & Hb & _). }
  apply (changesSettled_view _ p1); [exact Hv | exact Hs1].
Qed.

Lemma revsFinished_loop_changesSettled (revs : list IncomingRev) (p : Puller) :
  changesSettled kMaxPendingRevs p ->
  changesSettled kMaxPendingRevs
    (revsFinished_loop kMaxPendingRevs kMaxActiveIncomingRevs
       kMaxUnfinishedIncomingRevs revs p).
Proof.
  revert p. induction revs as [|inc rest IH]; intros p Hs; cbn; [exact Hs|].
  by apply IH, revsFinished_step_changesSettled.
Qed.

Lemma revsFinished_changesSettled (p : Puller) :
  changesSettled kMaxPendingRevs p ->
  changesSettled kMaxPendingRevs
    (_revsFinished kMaxPendingRevs kMaxActiveIncomingRevs
       kMaxUnfinishedIncomingRevs p).
Proof.
  intros Hs. unfold _revsFinished.
  set (p1 := revsFinished_loop _ _ _ _ _).
  assert (changesSettled kMaxPendingRevs p1) as Hs1
    by (by apply revsFinished_loop_changesSettled).
  clearbody p1.
  set (p2 := set_unfinishedIncomingRevs _ p1).
  set (p3 := if nonPassive p2 then updateLastSequence p2 else p2).
  assert (changesView p3 = changesView p1) as Hv.
  { subst p3. destruct (nonPassive p2); [|reflexivity].
    transitivity (changesView p2); [|reflexivity].
    apply besideCheckpoint_changesView.
    by destruct (updateLastSequence_spec p2) as (_ & _ & _ & Hb & _). }
  apply (changesSettled_view _ p3); [|by apply (changesSettled_view _ p1)].
  by destruct (_ >? 0).
Qed.

Lemma handleNoRev_settles (msg : MessageIn) (p : Puller) :
  changesSettled kMaxPendingRevs (handleNoRev kMaxPendingRevs msg p)
  /\ revsView (handleNoRev kMaxPendingRevs msg p) = revsView p.
Proof.
  unfold handleNoRev.
  set (p1 := set_pendingRevMessages _ (set_incomingDocIDs _ p)).
  set (p2 := if sequence_bool (sequence msg)
             then completedSequence (sequence msg) false true p1 else p1).
  assert (revsView p2 = revsView p) as H2.
  { subst p2. destruct (sequence_bool _); [|reflexivity].
    transitivity (revsView p1); [|reflexivity].
    apply besideCheckpoint_revsView.
    by destruct (completedSequence_spec (sequence msg) true p1)
      as (_ & _ & _ & Hb & _). }
  clearbody p2.
  pose proof (handleMoreChanges_settles p2) as Hs.
  destruct (handleMoreChanges_beside kMaxPendingRevs p2) as [Hb _].
  apply besideChanges_revsView in Hb.
  destruct (negb (noReply msg)); split; try exact Hs; cbn;
    rewrite <- H2, <- Hb; reflexivity.
Qed.

End Settling.

Section Provisional.

Variables kChangesBatchSize kMaxPendingRevs : Z.
Variables kMaxActiveIncomingRevs kMaxUnfinishedIncomingRevs : Z.
Hypothesis active_cap : 0 <= kMaxActiveIncomingRevs < 2 ^ 32.
Hypothesis unfinished_cap : 0 <= kMaxUnfinishedIncomingRevs < 2 ^ 32.

Lemma startIncomingRev_waitingRev (msg : MessageIn) (p : Puller) :
  _waitingRevMessages (startIncomingRev kMaxPendingRevs msg p) = _waitingRevMessages p.
Proof.
  unfold startIncomingRev.
  match goal with |- _waitingRevMessages (handleMoreChanges _ ?q) = _ =>
    set (p1 := q) end.
  destruct (handleMoreChanges_beside kMaxPendingRevs p1) as [Hb _].
  apply besideChanges_revsView in Hb. unfold revsView in Hb.
  injection Hb as -> _ _. subst p1. by destruct (_spareIncomingRevs _ =? 0).
Qed.

(** A provisional insertion starts the first waiting "rev" message when
    the counters allow it, and the rev queue stays settled. *)
Lemma provisionallyInserted_revsSettled (p : Puller) (i : nat) (inc : IncomingRev) :
  countsWorkers kMaxActiveIncomingRevs kMaxUnfinishedIncomingRevs [] 0 p ->
  revsSettled kMaxActiveIncomingRevs kMaxUnfinishedIncomingRevs p ->
  incomingRevs p !! i = Some inc ->
  wasProvisionallyInserted inc = false ->
  revsSettled kMaxActiveIncomingRevs kMaxUnfinishedIncomingRevs
    (_revWasProvisionallyHandled kMaxPendingRevs kMaxActiveIncomingRevs
       kMaxUnfinishedIncomingRevs
       (set_incomingRevs (<[i := markProvisionallyInserted inc]> (incomingRevs p)) p)).
Proof.
  intros (Ha & Hu & Hca & Hcu) Hs Hi Hprov.
  destruct (notProvisional_insert _ _ _ Hi Hprov) as [Hn1 _].
  pose proof (notProvisional_nonneg
                (<[i := markProvisionallyInserted inc]> (incomingRevs p))) as Hn2.
  pose proof (notProvisional_nonneg (_returningRevs p)) as Hn3.
  rewrite !notProvisional_app in Ha. rewrite !length_app in Hu.
  cbn [notProvisional length] in Ha, Hu.
  unfold _revWasProvisionallyHandled.
  set (q := set_incomingRevs _ p).
  set (p1 := set_activeIncomingRevs _ q).
  assert (_activeIncomingRevs p1 = _activeIncomingRevs p - 1) as Ha1.
  { subst p1 q. cbn. unfold decrement. rewrite Z.mod_small by lia. reflexivity. }
  assert (_unfinishedIncomingRevs p1 = _unfinishedIncomingRevs p) as Hu1 by reflexivity.
  assert (_waitingRevMessages p1 = _waitingRevMessages p) as Hw1 by reflexivity.
  clearbody p1. clear q.
  destruct ((_activeIncomingRevs p1 <? kMaxActiveIncomingRevs)
            && (_unfinishedIncomingRevs p1 <? kMaxUnfinishedIncomingRevs)) eqn:Hg.
  - apply andb_true_iff in Hg. destruct Hg as [Hg1 Hg2].
    apply Z.ltb_lt in Hg1, Hg2.
    destruct (_waitingRevMessages p1) as [|msg rest] eqn:Hw; [by left|].
    set (p2 := set_waitingRevMessages rest p1).
    destruct (handleMoreChanges_beside kMaxPendingRevs
                (startIncomingRev kMaxPendingRevs msg p2)) as [Hb _].
    apply besideChanges_revsView in Hb.
    apply (revsSettled_view _ _ (startIncomingRev kMaxPendingRevs msg p2));
      [exact Hb|].
    assert (workersView (startIncomingRev kMaxPendingRevs msg p2)
            = (_activeIncomingRevs p2 + 1, _unfinishedIncomingRevs p2 + 1,
               incomingRevs p2 ++ [newIncomingRev msg], _returningRevs p2)) as Hv.
    { apply (startIncomingRev_counts kMaxPendingRevs kMaxActiveIncomingRevs
               kMaxUnfinishedIncomingRevs active_cap unfinished_cap);
        subst p2; cbn; lia. }
    unfold workersView in Hv. injection Hv as Hv1 Hv2 _ _.
    unfold revsSettled. rewrite Hv1. right. left. subst p2. cbn.
    destruct Hs as [Hs | [Hs | Hs]].
    + rewrite <- Hw1 in Hs. congruence.
    + lia.
    + lia.
  - apply andb_false_iff in Hg. unfold revsSettled. right.
    destruct Hg as [Hg | Hg]; apply Z.ltb_ge in Hg; [left | right]; lia.
Qed.

End Provisional.

(** X17: the sibling paths.  From a reachable state in which both queues
    are settled, [handleNoRev] and a provisional insertion leave both queues
    settled, and draining a batch of final completions leaves the changes
    queue settled.  Of the three terminal events only the drained batch can
    leave a "rev" message waiting below the caps. *)
Theorem terminal_events_settle :
  forall (kChangesBatchSize kMaxPendingRevs kMaxActiveIncomingRevs
          kMaxUnfinishedIncomingRevs : Z) (p : Puller),
    0 <= kMaxActiveIncomingRevs < 2 ^ 32 ->
    0 <= kMaxUnfinishedIncomingRevs < 2 ^ 32 ->
    reachable kChangesBatchSize kMaxPendingRevs kMaxActiveIncomingRevs
      kMaxUnfinishedIncomingRevs p ->
    pumpsSettled kMaxPendingRevs kMaxActiveIncomingRevs kMaxUnfinishedIncomingRevs p ->
    (forall msg,
        pumpsSettled kMaxPendingRevs kMaxActiveIncomingRevs kMaxUnfinishedIncomingRevs
          (handleNoRev kMaxPendingRevs msg p))
    /\ (forall i p',
           step kMaxPendingRevs kMaxActiveIncomingRevs kMaxUnfinishedIncomingRevs p
             (EvProvisionallyInserted i) = Some p' ->
           pumpsSettled kMaxPendingRevs kMaxActiveIncomingRevs
             kMaxUnfinishedIncomingRevs p')
    /\ changesSettled kMaxPendingRevs
         (_revsFinished kMaxPendingRevs kMaxActiveIncomingRevs
            kMaxUnfinishedIncomingRevs p).
Proof.
  intros batch capP capA capU p HA HU Hr [Hsc Hsr].
  pose proof (reachable_counted batch capP capA capU HA HU p Hr) as Hc.
  split; [|split].
  - intros msg. destruct (handleNoRev_settles capP msg p) as [H1 H2].
    split; [exact H1|]. by apply (revsSettled_view _ _ p).
  - intros i p' Hstep. cbn in Hstep.
    destruct (incomingRevs p !! i) as [inc|] eqn:Hi; [|discriminate].
    destruct (wasProvisionallyInserted inc) eqn:Hprov; [discriminate|].
    simplify_eq. split.
    + by apply revWasProvisionallyHandled_changesSettled.
    + by apply provisionallyInserted_revsSettled.
  - by apply revsFinished_changesSettled.
Qed.

(** C4: the code at the failing input.  Before the batch is drained both
    queues are settled (the unfinished counter is at its cap);
    [_revsFinished] takes the counter to zero and runs no pump, so the
    second "rev" stays in the queue while both counters are below their
    caps, with no worker left to report anything: after this terminal
    event a message waits in [_waitingRevMessages] although neither counter
    has reached its cap. *)
Lemma drained_batch_leaves_rev_waiting :
  reachable 200 2 1 1 beforeDraining
  /\ pumpsSettled 2 1 1 beforeDraining
  /\ _waitingRevMessages (_revsFinished 2 1 1 beforeDraining)
     = [mkMessageIn 3 "rev" "{}" None false "doc" 101%N]
  /\ _activeIncomingRevs (_revsFinished 2 1 1 beforeDraining) = 0
  /\ _unfinishedIncomingRevs (_revsFinished 2 1 1 beforeDraining) = 0
  /\ incomingRevs (_revsFinished 2 1 1 beforeDraining) = []
  /\ ~ pumpsSettled 2 1 1 (_revsFinished 2 1 1 beforeDraining).
Proof.
  split.
  { apply (run_reachable 200 2 1 1 (_start 200 100%N (Puller_new oneShot false)) _
             oneWaitingRev).
    - apply reachable_start, reachable_new.
    - vm_compute. reflexivity. }
  split.
  { split; [by left|]. right. right. vm_compute. discriminate. }
  repeat (split; [vm_compute; reflexivity|]).
  intros [_ [H | [H | H]]].
  - vm_compute in H. discriminate.
  - vm_compute in H. by apply H.
  - vm_compute in H. by apply H.
Qed.

Lemma terminal_events_settle_witness :
  _waitingChangesMessages throttled = [announcing 2 103 1]
  /\ _waitingChangesMessages
       (handleNoRev 2 (mkMessageIn 3 "norev" "" None false "doc" 101%N) throttled) = []
  /\ pumpsSettled 2 1 1
       (handleNoRev 2 (mkMessageIn 3 "norev" "" None false "doc" 101%N) throttled)
  /\ changesSettled 2 (_revsFinished 2 1 1 throttled).
Proof.
  split; [vm_compute; reflexivity|]. split; [vm_compute; reflexivity|].
  destruct (terminal_events_settle 200 2 1 1 throttled) as (Hnorev & _ & Hdrain).
  - lia.
  - lia.
  - apply (run_reachable 200 2 1 1 (_start 200 100%N (Puller_new oneShot false)) _
             throttledTrace).
    + apply reachable_start, reachable_new.
    + vm_compute. reflexivity.
  - split; [right; vm_compute; discriminate | by left].
  - split; [apply Hnorev | exact Hdrain].
Defined.

(** ** The missing-sequence set as an ordered set *)

Lemma minimum_None (l : list N) : MissingSequences.minimum l = None <-> l = [].
Proof.
  destruct l as [|k l]; cbn.
  - split; intros _; reflexivity.
  - split; [|discriminate]. destruct (MissingSequences.minimum l); discriminate.
Qed.

Lemma minimum_Some (l : list N) (k : N) :
  MissingSequences.minimum l = Some k -> k ∈ l /\ forall k', k' ∈ l -> (k <= k')%N.
Proof.
  revert k. induction l as [|x l IH]; intros k; cbn; [done|].
  destruct (MissingSequences.minimum l) as [m|] eqn:Hm.
  - intros [= <-]. destruct (IH m eq_refl) as [Hin Hle]. split.
    + destruct (N.min_spec x m) as [[_ ->] | [_ ->]]; [left | by right].
    + intros k' [-> | Hk']%elem_of_cons; [lia|].
      specialize (Hle k' Hk'). lia.
  - intros [= <-]. apply minimum_None in Hm as ->. split; [left|].
    intros k' [-> | Hk']%elem_of_cons; [lia | by apply elem_of_nil in Hk'].
Qed.

Lemma elem_of_keys (m : gmap N N) (k : N) :
  k ∈ map fst (map_to_list m) <-> is_Some (m !! k).
Proof.
  change (map fst (map_to_list m)) with (fst <$> map_to_list m).
  rewrite list_elem_of_fmap. split.
  - intros ([k' v] & -> & Hin). apply elem_of_map_to_list in Hin. by exists v.
  - intros [v Hv]. exists (k, v). split; [done | by apply elem_of_map_to_list].
Qed.

Lemma earliest_None (m : gmap N N) : MissingSequences.earliest m = None <-> m = ∅.
Proof.
  unfold MissingSequences.earliest. rewrite minimum_None. split.
  - intros H. apply map_to_list_empty_iff.
    destruct (map_to_list m); [done | discriminate].
  - intros ->. by rewrite map_to_list_empty.
Qed.

Lemma earliest_Some (m : gmap N N) (k : N) :
  MissingSequences.earliest m = Some k ->
  is_Some (m !! k) /\ forall k', is_Some (m !! k') -> (k <= k')%N.
Proof.
  intros [Hin Hle]%minimum_Some. split.
  - by apply elem_of_keys.
  - intros k' Hk'. by apply Hle, elem_of_keys.
Qed.

Lemma since_below (h : N) (s : MissingSequences.t) :
  below h s -> (MissingSequences.since s <= h)%N.
Proof.
  intros (Hb & Hg & _). unfold MissingSequences.since.
  by destruct (MissingSequences.earliest _).
Qed.

Lemma since_le_members (s : MissingSequences.t) (k : N) :
  watermarked s ->
  is_Some (MissingSequences.members s !! k) ->
  (MissingSequences.since s <= k)%N.
Proof.
  intros [Hw _] Hk. unfold MissingSequences.since.
  destruct (MissingSequences.earliest _) eqn:He; [by apply Hw|].
  apply earliest_None in He. rewrite He, lookup_empty in Hk. by destruct Hk.
Qed.

(** Adding a sequence that is not below anything the set knows of keeps
    [since()] where it was. *)
Lemma add_watermarked (seq bodySize h : N) (s : MissingSequences.t) :
  watermarked s -> below h s -> (h <= seq)%N ->
  watermarked (MissingSequences.add seq bodySize s)
  /\ below seq (MissingSequences.add seq bodySize s).
Proof.
  intros Hw Hb Hh. pose proof (since_below h s Hb) as Hs.
  destruct Hb as (Hb1 & Hb2 & Hb3). unfold MissingSequences.add.
  destruct (MissingSequences.members s !! seq) eqn:Hseq.
  - split; [exact Hw|]. repeat split; try lia.
    intros k Hk. specialize (Hb3 k Hk). lia.
  - split.
    + split; cbn.
      * intros k Hk. destruct (decide (k = seq)) as [->|Hne]; [lia|].
        rewrite lookup_insert_ne in Hk by done. by apply since_le_members.
      * intros He. exfalso. apply (insert_non_empty _ _ _ He).
    + repeat split; cbn; try lia.
      intros k Hk. destruct (decide (k = seq)) as [->|Hne]; [lia|].
      rewrite lookup_insert_ne in Hk by done. specialize (Hb3 k Hk). lia.
Qed.

Lemma add_since (seq bodySize : N) (s : MissingSequences.t) :
  MissingSequences.since (MissingSequences.add seq bodySize s) = MissingSequences.since s.
Proof.
  unfold MissingSequences.add.
  destruct (MissingSequences.members s !! seq) eqn:Hseq; [reflexivity|].
  unfold MissingSequences.since at 1. cbn.
  destruct (MissingSequences.earliest (<[seq:=bodySize]> _)) eqn:He; [reflexivity|].
  apply earliest_None in He. exfalso. apply (insert_non_empty _ _ _ He).
Qed.

(** Removing a sequence never moves [since()] back, and moves it only when
    the sequence was the earliest. *)
Lemma remove_watermarked (seq h : N) (s : MissingSequences.t) :
  watermarked s -> below h s ->
  let r := MissingSequences.remove seq s in
  watermarked (snd r)
  /\ below h (snd r)
  /\ (MissingSequences.since s <= MissingSequences.since (snd r))%N
  /\ (fst (fst r) = false -> MissingSequences.since (snd r) = MissingSequences.since s).
Proof.
  intros Hw Hb. cbn zeta. unfold MissingSequences.remove.
  destruct (MissingSequences.members s !! seq) as [bodySize|] eqn:Hseq; cbn [fst snd].
  2: { split; [exact Hw|]. split; [exact Hb|]. split; [lia | reflexivity]. }
  pose proof Hw as [Hw1 Hw2]. pose proof Hb as (Hb1 & Hb2 & Hb3).
  assert (Hin : is_Some (MissingSequences.members s !! seq)) by by eexists.
  pose proof (Hw1 seq Hin) as Hbase. pose proof (Hb3 seq Hin) as Hseqh.
  assert (Hsince : MissingSequences.since s = MissingSequences.base s).
  { unfold MissingSequences.since.
    destruct (MissingSequences.earliest _) eqn:He; [reflexivity|].
    apply earliest_None in He. rewrite He, lookup_empty in Hseq. discriminate. }
  assert (Hrest : forall k, is_Some (delete seq (MissingSequences.members s) !! k) ->
                            k <> seq /\ is_Some (MissingSequences.members s !! k)).
  { intros k [v Hk]. apply lookup_delete_Some in Hk as [Hne Hk]. split; [done | by eexists]. }
  case_bool_decide as Hmin.
  - destruct (MissingSequences.earliest (delete seq _)) as [next|] eqn:Hnext.
    + destruct (earliest_Some _ _ Hnext) as [Hnin Hnle].
      destruct (Hrest next Hnin) as [_ Hnin'].
      repeat split; cbn.
      * exact Hnle.
      * intros He. rewrite He, lookup_empty in Hnin. by destruct Hnin.
      * by apply Hb3.
      * lia.
      * intros k Hk. apply Hb3. by apply Hrest.
      * unfold MissingSequences.since at 2. cbn. rewrite Hnext, Hsince. by apply Hw1.
      * discriminate.
    + repeat split; cbn.
      * intros k Hk. apply earliest_None in Hnext.
        rewrite Hnext, lookup_empty in Hk. by destruct Hk.
      * lia.
      * lia.
      * lia.
      * intros k Hk. apply Hb3. by apply Hrest.
      * unfold MissingSequences.since at 2. cbn. rewrite Hnext, Hsince. lia.
      * discriminate.
  - destruct (MissingSequences.earliest (MissingSequences.members s)) as [first|] eqn:Hfirst.
    2: { apply earliest_None in Hfirst. rewrite Hfirst, lookup_empty in Hseq. discriminate. }
    destruct (earliest_Some _ _ Hfirst) as [[v Hfin] Hfle].
    assert (Hfrest : delete seq (MissingSequences.members s) !! first = Some v).
    { apply lookup_delete_Some. split; [congruence | done]. }
    assert (Hsince' : MissingSequences.since
                        (MissingSequences.mk (MissingSequences.base s)
                           (N.max (MissingSequences.greatestRemoved s) seq)
                           (delete seq (MissingSequences.members s)))
                      = MissingSequences.base s).
    { unfold MissingSequences.since. cbn.
      destruct (MissingSequences.earliest (delete seq _)) eqn:He; [reflexivity|].
      apply earliest_None in He. rewrite He, lookup_empty in Hfrest. discriminate. }
    repeat split; cbn.
    * intros k Hk. apply Hw1. by apply Hrest.
    * intros He. rewrite He, lookup_empty in Hfrest. discriminate.
    * lia.
    * lia.
    * intros k Hk. apply Hb3. by apply Hrest.
    * rewrite Hsince', Hsince. lia.
    * intros _. by rewrite Hsince', Hsince.
Qed.

(** ** The feed of announced sequences *)

Lemma ascendingFrom_le (h h' : N) (feed : list N) :
  (h' <= h)%N -> ascendingFrom h feed -> ascendingFrom h' feed.
Proof.
  destruct feed as [|x rest]; cbn; [done|]. intros Hle [H1 H2]. split; [lia | done].
Qed.

Lemma ascendingFrom_sublist (h : N) (feed feed' : list N) :
  feed' `sublist_of` feed -> ascendingFrom h feed -> ascendingFrom h feed'.
Proof.
  intros Hsub. revert h. induction Hsub as [|x l1 l2 Hsub IH|x l1 l2 Hsub IH]; intros h.
  - done.
  - cbn. intros [H1 H2]. split; [done | by apply IH].
  - cbn. intros [H1 H2]. apply IH. by apply (ascendingFrom_le x).
Qed.

Lemma ascendingFrom_app_r (h : N) (feed1 feed2 : list N) :
  ascendingFrom h (feed1 ++ feed2) -> ascendingFrom h feed2.
Proof.
  apply ascendingFrom_sublist, sublist_inserts_l. reflexivity.
Qed.

Lemma queuedFeed_app (l1 l2 : list MessageIn) :
  queuedFeed (l1 ++ l2) = queuedFeed l1 ++ queuedFeed l2.
Proof. apply flat_map_app. Qed.

Lemma feedShrinks_refl (p : Puller) : feedShrinks p p.
Proof. unfold feedShrinks. by repeat split. Qed.

Lemma feedShrinks_trans (p1 p2 p3 : Puller) :
  feedShrinks p1 p2 -> feedShrinks p2 p3 -> feedShrinks p1 p3.
Proof.
  intros (H1 & H2 & H3 & H4) (H1' & H2' & H3' & H4').
  repeat split; try congruence. by etrans.
Qed.

(** The same, when neither queue of messages is touched. *)
Lemma feedShrinks_same (p p' : Puller) :
  _missingSequences p' = _missingSequences p ->
  _lastSequence p' = _lastSequence p ->
  _options p' = _options p ->
  revFinderRequests p' = revFinderRequests p ->
  _waitingChangesMessages p' = _waitingChangesMessages p ->
  feedShrinks p p'.
Proof.
  intros H1 H2 H3 H4 H5. repeat split; try done.
  unfold pendingFeed. by rewrite H4, H5.
Qed.

Lemma handleChangesNow_requests (req : MessageIn) (p : Puller) :
  revFinderRequests (handleChangesNow req p) = revFinderRequests p
  \/ revFinderRequests (handleChangesNow req p) = revFinderRequests p ++ [req].
Proof.
  unfold handleChangesNow.
  repeat match goal with |- context [if ?b then _ else _] => destruct b end;
    cbn; auto.
Qed.

Section PumpFeed.

Variable kMaxPendingRevs : Z.

Lemma handleMoreChanges_loop_feed (waiting : list MessageIn) (p : Puller) :
  _waitingChangesMessages p = waiting ->
  pendingFeed (handleMoreChanges_loop kMaxPendingRevs waiting p)
    `sublist_of` pendingFeed p.
Proof.
  revert p. induction waiting as [|req rest IH]; intros p Hw; cbn; [done|].
  destruct (_pendingRevMessages p <? kMaxPendingRevs); [|done].
  set (q := handleChangesNow req (set_waitingChangesMessages rest p)).
  destruct (handleChangesNow_beside req (set_waitingChangesMessages rest p))
    as (_ & Hwq & _). fold q in Hwq. cbn in Hwq.
  etrans; [apply (IH q Hwq)|].
  unfold pendingFeed. rewrite Hwq, Hw. cbn [queuedFeed flat_map].
  destruct (handleChangesNow_requests req (set_waitingChangesMessages rest p))
    as [Hr | Hr]; fold q in Hr; rewrite Hr; cbn.
  - apply sublist_app; [done|]. by apply sublist_inserts_l.
  - rewrite queuedFeed_app. cbn. rewrite app_nil_r, <- app_assoc. done.
Qed.

Lemma handleMoreChanges_feedShrinks (p : Puller) :
  feedShrinks p (handleMoreChanges kMaxPendingRevs p).
Proof.
  destruct (handleMoreChanges_beside kMaxPendingRevs p) as [Hb _].
  unfold besideChanges in Hb.
  repeat split; try (by simplify_eq).
  by apply handleMoreChanges_loop_feed.
Qed.

Lemma startIncomingRev_feedShrinks (msg : MessageIn) (p : Puller) :
  feedShrinks p (startIncomingRev kMaxPendingRevs msg p).
Proof.
  unfold startIncomingRev.
  match goal with |- feedShrinks _ (handleMoreChanges _ ?q) => set (p1 := q) end.
  apply (feedShrinks_trans _ p1); [|apply handleMoreChanges_feedShrinks].
  subst p1. destruct (_spareIncomingRevs _ =? 0); by apply feedShrinks_same.
Qed.

Lemma handleRev_feedShrinks (capA capU : Z) (msg : MessageIn) (p : Puller) :
  feedShrinks p (handleRev kMaxPendingRevs capA capU msg p).
Proof.
  unfold handleRev. destruct (_ && _).
  - apply startIncomingRev_feedShrinks.
  - by apply feedShrinks_same.
Qed.

Lemma revWasProvisionallyHandled_feedShrinks (capA capU : Z) (p : Puller) :
  feedShrinks p (_revWasProvisionallyHandled kMaxPendingRevs capA capU p).
Proof.
  unfold _revWasProvisionallyHandled.
  set (p1 := set_activeIncomingRevs _ p).
  assert (feedShrinks p p1) as H1 by by apply feedShrinks_same.
  clearbody p1.
  destruct (_ && _); [|exact H1].
  destruct (_waitingRevMessages p1) as [|msg rest]; [exact H1|].
  apply (feedShrinks_trans _ p1); [exact H1|].
  eapply feedShrinks_trans; [|apply handleMoreChanges_feedShrinks].
  eapply feedShrinks_trans; [|apply startIncomingRev_feedShrinks].
  by apply feedShrinks_same.
Qed.

Lemma handleChanges_feed (req : MessageIn) (p : Puller) :
  _missingSequences (handleChanges kMaxPendingRevs req p) = _missingSequences p
  /\ _lastSequence (handleChanges kMaxPendingRevs req p) = _lastSequence p
  /\ _options (handleChanges kMaxPendingRevs req p) = _options p
  /\ pendingFeed (handleChanges kMaxPendingRevs req p)
       `sublist_of` (pendingFeed p ++ announced req).
Proof.
  unfold handleChanges.
  set (q := set_waitingChangesMessages _ p).
  destruct (handleMoreChanges_feedShrinks q) as (H1 & H2 & H3 & H4).
  repeat split; try done.
  etrans; [exact H4|]. subst q. unfold pendingFeed. cbn.
  rewrite queuedFeed_app. cbn. by rewrite app_nil_r, app_assoc.
Qed.

End PumpFeed.

(** ** The checkpoint along a trace *)

Lemma checkpointInv_sublist (feed feed' : list N) (p : Puller) :
  feed' `sublist_of` feed -> checkpointInv feed p -> checkpointInv feed' p.
Proof.
  intros Hsub (Hw & Hl & h & Hb & Ha).
  split; [exact Hw|]. split; [exact Hl|].
  exists h. split; [done | by eapply ascendingFrom_sublist].
Qed.

Lemma checkpointInv_feedShrinks (future : list N) (p p' : Puller) :
  feedShrinks p p' ->
  checkpointInv (pendingFeed p ++ future) p ->
  checkpointInv (pendingFeed p' ++ future) p'
  /\ _lastSequence p' = _lastSequence p
  /\ (synced p -> synced p').
Proof.
  intros (H1 & H2 & H3 & H4) Hinv.
  apply (checkpointInv_sublist _ (pendingFeed p' ++ future)) in Hinv;
    [|by apply sublist_app].
  unfold checkpointInv, synced in *. rewrite H1, H2.
  split; [exact Hinv|]. split; [reflexivity | done].
Qed.

Lemma besideCheckpoint_sameFeed (p p' : Puller) :
  besideCheckpoint p' = besideCheckpoint p -> sameFeed p p'.
Proof.
  unfold besideCheckpoint, sameFeed, pendingFeed. intros H. simplify_eq.
  split; congruence.
Qed.

Lemma updateLastSequence_inv (feed : list N) (p : Puller) :
  checkpointInv feed p ->
  checkpointInv feed (updateLastSequence p)
  /\ synced (updateLastSequence p)
  /\ (_lastSequence p <= _lastSequence (updateLastSequence p))%N
  /\ sameFeed p (updateLastSequence p).
Proof.
  intros (Hw & Hl & Hh).
  destruct (updateLastSequence_spec p) as (H1 & H2 & _ & H4 & _).
  unfold checkpointInv, synced. rewrite H1, H2.
  split; [|split; [reflexivity | split; [exact Hl | by apply besideCheckpoint_sameFeed]]].
  split; [exact Hw|]. split; [lia | exact Hh].
Qed.

Lemma completedSequence_inv (feed : list N) (seq : N) (transient shouldUpdate : bool)
    (p : Puller) :
  checkpointInv feed p ->
  let p' := completedSequence seq transient shouldUpdate p in
  checkpointInv feed p'
  /\ (_lastSequence p <= _lastSequence p')%N
  /\ (shouldUpdate = true -> synced p -> synced p')
  /\ sameFeed p p'.
Proof.
  intros Hinv. cbn zeta. destruct transient.
  { unfold completedSequence, synced, checkpointInv in *. cbn.
    split; [exact Hinv|]. split; [lia|]. split; [done | by split]. }
  destruct Hinv as (Hw & Hl & h & Hb & Ha).
  destruct (completedSequence_spec seq shouldUpdate p) as (H1 & H2 & _ & H4 & _).
  destruct (remove_watermarked seq h (_missingSequences p) Hw Hb)
    as (Hw' & Hb' & Hmono & Hsame).
  cbn zeta in *. unfold checkpointInv, synced. rewrite H1, H2.
  destruct (fst (fst (MissingSequences.remove seq (_missingSequences p)))) eqn:Hearliest;
    destruct shouldUpdate; cbn [andb].
  - split; [|split; [lia | split; [done | by apply besideCheckpoint_sameFeed]]].
    split; [exact Hw'|]. split; [lia | by exists h].
  - split; [|split; [lia | split; [done | by apply besideCheckpoint_sameFeed]]].
    split; [exact Hw'|]. split; [lia | by exists h].
  - split; [|split; [lia | split; [|by apply besideCheckpoint_sameFeed]]].
    + split; [exact Hw'|]. split; [lia | by exists h].
    + intros _ Hs. rewrite Hs. symmetry. by apply Hsame.
  - split; [|split; [lia | split; [done | by apply besideCheckpoint_sameFeed]]].
    split; [exact Hw'|]. split; [lia | by exists h].
Qed.

Lemma Array_get_nth (changes : option (list Change)) (i : nat) :
  Array_get changes i = nth i (default [] changes) undefinedChange.
Proof. destruct changes as [l|]; cbn; [reflexivity | by destruct i]. Qed.

(** Entry [i] of the list of changes heads what is left to announce from
    position [i] on, when it carries a sequence. *)
Lemma sequencesOf_drop (l : list Change) (i : nat) :
  let seq := change_sequence (nth i l undefinedChange) in
  sequencesOf (drop i l)
  = (if sequence_bool seq then [seq] else []) ++ sequencesOf (drop (S i) l).
Proof.
  cbn zeta. destruct (l !! i) as [c|] eqn:Hi.
  - rewrite (nth_lookup_Some _ _ _ _ Hi), (drop_S _ _ _ Hi). cbn.
    by destruct (sequence_bool (change_sequence c)).
  - rewrite nth_lookup, Hi. cbn.
    apply lookup_ge_None in Hi. rewrite !drop_ge by lia. reflexivity.
Qed.

Section Found.

(** One turn of the RevFinder's callback: the sequence of entry [i], if
    any, goes into the missing set, and comes out again at once when the
    revision is not wanted. *)
Lemma revsFound_step_inv (changes : option (list Change)) (i : nat)
    (requesting : bool) (future : list N) (p : Puller) :
  checkpointInv (sequencesOf (drop i (default [] changes)) ++ future) p ->
  synced p ->
  checkpointInv (sequencesOf (drop (S i) (default [] changes)) ++ future)
    (revsFound_step changes i requesting p)
  /\ synced (revsFound_step changes i requesting p)
  /\ (_lastSequence p <= _lastSequence (revsFound_step changes i requesting p))%N
  /\ sameFeed p (revsFound_step changes i requesting p).
Proof.
  intros Hinv Hsync. unfold revsFound_step.
  rewrite sequencesOf_drop in Hinv. rewrite Array_get_nth.
  set (seq := change_sequence (nth i (default [] changes) undefinedChange)) in *.
  set (rest := sequencesOf (drop (S i) (default [] changes)) ++ future) in *.
  cbn zeta in Hinv. rewrite <- app_assoc in Hinv. fold rest in Hinv.
  set (p2 := if nonPassive p then _ else p).
  assert (checkpointInv rest p2 /\ synced p2
          /\ (_lastSequence p <= _lastSequence p2)%N /\ sameFeed p p2) as H2.
  { subst p2. destruct (nonPassive p).
    - set (bodySize := if requesting then _ else 0%N).
      set (p1 := addProgress _ _).
      assert (checkpointInv rest p1 /\ synced p1
              /\ _lastSequence p1 = _lastSequence p /\ sameFeed p p1)
        as (Hinv1 & Hsync1 & Hl1 & Hf1).
      { subst p1. destruct (sequence_bool seq); cbn.
        - destruct Hinv as (Hw & Hl & h & Hb & Hle & Ha).
          destruct (add_watermarked seq bodySize h _ Hw Hb Hle) as [Hw' Hb'].
          unfold checkpointInv, synced in *. cbn. rewrite add_since.
          split; [|split; [exact Hsync | split; [reflexivity | by split]]].
          split; [exact Hw'|]. split; [exact Hl|]. by exists seq.
        - unfold checkpointInv, synced in *. cbn.
          split; [exact Hinv|]. split; [exact Hsync | split; [reflexivity | by split]]. }
      clearbody p1. destruct requesting; cbn [negb].
      + split; [exact Hinv1|]. split; [exact Hsync1|]. split; [lia | exact Hf1].
      + destruct (completedSequence_inv rest seq false true p1 Hinv1)
          as (Hinv2 & Hl2 & Hsync2 & Hf2).
        cbn zeta in *.
        split; [exact Hinv2|]. split; [by apply Hsync2|]. split; [lia|].
        destruct Hf1, Hf2. split; congruence.
    - split; [|split; [exact Hsync | split; [lia | by split]]].
      eapply checkpointInv_sublist; [|exact Hinv]. by apply sublist_inserts_l. }
  clearbody p2. destruct H2 as (Hinv2 & Hsync2 & Hl2 & Hf2).
  destruct requesting; [|done].
  unfold checkpointInv, synced, sameFeed, pendingFeed in *. cbn. done.
Qed.

Lemma revsFound_loop_inv (changes : option (list Change)) (which : list bool)
    (i : nat) (future : list N) (p : Puller) :
  checkpointInv (sequencesOf (drop i (default [] changes)) ++ future) p ->
  synced p ->
  checkpointInv future (revsFound_loop changes i which p)
  /\ synced (revsFound_loop changes i which p)
  /\ (_lastSequence p <= _lastSequence (revsFound_loop changes i which p))%N
  /\ sameFeed p (revsFound_loop changes i which p).
Proof.
  revert i p. induction which as [|requesting which IH]; intros i p Hinv Hsync; cbn.
  - split; [|split; [exact Hsync | split; [lia | by split]]].
    eapply checkpointInv_sublist; [|exact Hinv]. by apply sublist_inserts_l.
  - destruct (revsFound_step_inv changes i requesting future p Hinv Hsync)
      as (Hinv1 & Hsync1 & Hl1 & Hf1).
    destruct (IH (S i) _ Hinv1 Hsync1) as (Hinv2 & Hsync2 & Hl2 & Hf2).
    split; [exact Hinv2|]. split; [exact Hsync2|]. split; [lia|].
    destruct Hf1, Hf2. split; congruence.
Qed.

Lemma revsFound_inv (req : MessageIn) (which : list bool) (future : list N)
    (p : Puller) :
  checkpointInv (announced req ++ future) p ->
  synced p ->
  checkpointInv future (revsFound req which p)
  /\ synced (revsFound req which p)
  /\ (_lastSequence p <= _lastSequence (revsFound req which p))%N
  /\ sameFeed p (revsFound req which p).
Proof.
  intros Hinv Hsync. unfold revsFound.
  set (p1 := set_pendingRevFinderCalls _ p).
  destruct (revsFound_loop_inv (JSONBody req) which 0 future p1)
    as (H1 & H2 & H3 & H4); try done.
Qed.

End Found.

Lemma nonPassive_options (p p' : Puller) :
  _options p' = _options p -> nonPassive p' = nonPassive p.
Proof. unfold nonPassive. by intros ->. Qed.

Section Trace.

Variables kChangesBatchSize kMaxPendingRevs : Z.
Variables kMaxActiveIncomingRevs kMaxUnfinishedIncomingRevs : Z.

Lemma revsFinished_step_inv (inc : IncomingRev) (future : list N) (p : Puller) :
  draining future p ->
  let p' := revsFinished_step kMaxPendingRevs kMaxActiveIncomingRevs
              kMaxUnfinishedIncomingRevs inc p in
  draining future p'
  /\ (_lastSequence p <= _lastSequence p')%N
  /\ _options p' = _options p.
Proof.
  intros [Hinv Hpassive]. cbn zeta. unfold revsFinished_step.
  set (p1 := if negb (wasProvisionallyInserted inc) then _ else p).
  assert (feedShrinks p p1) as Hshrink.
  { subst p1. destruct (negb _); [|apply feedShrinks_refl].
    apply revWasProvisionallyHandled_feedShrinks. }
  destruct (checkpointInv_feedShrinks future p p1 Hshrink Hinv) as (Hinv1 & Hl1 & Hs1).
  destruct Hshrink as (_ & _ & Ho1 & _).
  pose proof (nonPassive_options _ _ Ho1) as Hnp1.
  clearbody p1.
  set (p2 := if nonPassive p1 then _ else p1).
  assert (draining future p2 /\ (_lastSequence p1 <= _lastSequence p2)%N
          /\ _options p2 = _options p1) as ([Hinv2 Hpassive2] & Hl2 & Ho2).
  { subst p2. destruct (nonPassive p1) eqn:Hnp.
    - destruct (completedSequence_inv (pendingFeed p1 ++ future) (remoteSequence inc)
                  (errorIsTransient (rev inc)) false p1 Hinv1)
        as (Hinv2 & Hl2 & _ & Ho2 & Hf2).
      cbn zeta in *. split; [|by split].
      split; [by rewrite Hf2|].
      intros Hnp2. rewrite (nonPassive_options _ _ Ho2), Hnp in Hnp2. discriminate.
    - split; [|by split]. split; [exact Hinv1|].
      intros _. apply Hs1, Hpassive. by rewrite <- Hnp1. }
  clearbody p2.
  split; [|split; [cbn; lia | cbn; congruence]].
  split; [exact Hinv2 | exact Hpassive2].
Qed.

Lemma revsFinished_loop_inv (revs : list IncomingRev) (future : list N) (p : Puller) :
  draining future p ->
  let p' := revsFinished_loop kMaxPendingRevs kMaxActiveIncomingRevs
              kMaxUnfinishedIncomingRevs revs p in
  draining future p'
  /\ (_lastSequence p <= _lastSequence p')%N
  /\ _options p' = _options p.
Proof.
  revert p. induction revs as [|inc rest IH]; intros p Hd; cbn.
  - split; [exact Hd|]. split; [lia | reflexivity].
  - destruct (revsFinished_step_inv inc future p Hd) as (Hd1 & Hl1 & Ho1).
    destruct (IH _ Hd1) as (Hd2 & Hl2 & Ho2). cbn zeta in *.
    split; [exact Hd2|]. split; [lia | congruence].
Qed.

Lemma revsFinished_inv (future : list N) (p : Puller) :
  checkpointInv (pendingFeed p ++ future) p ->
  synced p ->
  let p' := _revsFinished kMaxPendingRevs kMaxActiveIncomingRevs
              kMaxUnfinishedIncomingRevs p in
  checkpointInv (pendingFeed p' ++ future) p'
  /\ synced p'
  /\ (_lastSequence p <= _lastSequence p')%N.
Proof.
  intros Hinv Hsync. cbn zeta. unfold _revsFinished.
  destruct (revsFinished_loop_inv (_returningRevs p) future (set_returningRevs [] p))
    as ([Hinv1 Hpassive1] & Hl1 & Ho1).
  { split; [exact Hinv | by intros _]. }
  cbn zeta in *.
  set (p1 := revsFinished_loop _ _ _ _ _) in *. clearbody p1.
  set (p2 := set_unfinishedIncomingRevs _ p1).
  set (p3 := if nonPassive p2 then updateLastSequence p2 else p2).
  assert (checkpointInv (pendingFeed p3 ++ future) p3 /\ synced p3
          /\ (_lastSequence p1 <= _lastSequence p3)%N) as (Hinv3 & Hsync3 & Hl3).
  { subst p3. destruct (nonPassive p2) eqn:Hnp.
    - destruct (updateLastSequence_inv (pendingFeed p1 ++ future) p2 Hinv1)
        as (H1 & H2 & H3 & _ & H4).
      split; [by rewrite H4 | by split].
    - split; [exact Hinv1|]. split; [by apply Hpassive1 | cbn; lia]. }
  clearbody p3. cbn in Hl1.
  destruct (_ >? 0); (split; [exact Hinv3 | split; [exact Hsync3 | cbn; lia]]).
Qed.

(** One event keeps the checkpoint at [since()] and never moves it back,
    as long as the sequences still to come are in order. *)
Lemma step_checkpoint (ev : Event) (future : list N) (p p' : Puller) :
  checkpointInv (pendingFeed p ++ eventFeed ev ++ future) p ->
  synced p ->
  step kMaxPendingRevs kMaxActiveIncomingRevs kMaxUnfinishedIncomingRevs p ev
    = Some p' ->
  checkpointInv (pendingFeed p' ++ future) p'
  /\ synced p'
  /\ (_lastSequence p <= _lastSequence p')%N.
Proof.
  intros Hinv Hsync Hstep.
  destruct ev as [isError| |req|msg|msg|which|i|i err transient|];
    cbn [eventFeed app] in Hinv; unfold step in Hstep.
  - simplify_eq. destruct isError; (split; [exact Hinv | split; [exact Hsync | cbn; lia]]).
  - simplify_eq. split; [exact Hinv | split; [exact Hsync | cbn; lia]].
  - simplify_eq.
    destruct (handleChanges_feed kMaxPendingRevs req p) as (H1 & H2 & H3 & H4).
    rewrite app_assoc in Hinv.
    apply (checkpointInv_sublist _
             (pendingFeed (handleChanges kMaxPendingRevs req p) ++ future)) in Hinv;
      [|by apply sublist_app].
    unfold checkpointInv, synced in *. rewrite H1, H2.
    split; [exact Hinv | split; [exact Hsync | lia]].
  - simplify_eq.
    destruct (checkpointInv_feedShrinks future p _
                (handleRev_feedShrinks kMaxPendingRevs kMaxActiveIncomingRevs
                   kMaxUnfinishedIncomingRevs msg p) Hinv) as (H1 & H2 & H3).
    split; [exact H1 | split; [by apply H3 | lia]].
  - simplify_eq. unfold handleNoRev.
    set (p1 := set_pendingRevMessages _ (set_incomingDocIDs _ p)).
    set (p2 := if sequence_bool (sequence msg)
               then completedSequence (sequence msg) false true p1 else p1).
    assert (checkpointInv (pendingFeed p2 ++ future) p2 /\ synced p2
            /\ (_lastSequence p <= _lastSequence p2)%N) as (Hinv2 & Hsync2 & Hl2).
    { subst p2. destruct (sequence_bool _).
      - destruct (completedSequence_inv (pendingFeed p1 ++ future) (sequence msg)
                    false true p1 Hinv) as (H1 & H2 & H3 & _ & H4).
        cbn zeta in *. split; [by rewrite H4|]. split; [by apply H3 | exact H2].
      - split; [exact Hinv | split; [exact Hsync | cbn; lia]]. }
    clearbody p2.
    destruct (checkpointInv_feedShrinks future p2 _
                (handleMoreChanges_feedShrinks kMaxPendingRevs p2) Hinv2)
      as (H1 & H2 & H3).
    destruct (negb (noReply msg));
      (split; [exact H1 | split; [by apply H3 | cbn; lia]]).
  - destruct (revFinderRequests p) as [|req rest] eqn:Hreq; [discriminate|].
    simplify_eq.
    set (q := set_incomingDocIDs _ (set_revFinderRequests rest p)).
    assert (pendingFeed p = announced req ++ pendingFeed q) as Hfeed.
    { unfold pendingFeed. rewrite Hreq. cbn. by rewrite app_assoc. }
    rewrite Hfeed, <- app_assoc in Hinv.
    destruct (revsFound_inv req which (pendingFeed q ++ future) q Hinv Hsync)
      as (H1 & H2 & H3 & _ & H4).
    split; [by rewrite H4 | by split].
  - destruct (incomingRevs p !! i) as [inc|]; [|discriminate].
    destruct (wasProvisionallyInserted inc); [discriminate|]. simplify_eq.
    set (q := set_incomingRevs _ p).
    destruct (checkpointInv_feedShrinks future q _
                (revWasProvisionallyHandled_feedShrinks kMaxPendingRevs
                   kMaxActiveIncomingRevs kMaxUnfinishedIncomingRevs q) Hinv)
      as (H1 & H2 & H3).
    split; [exact H1 | split; [by apply H3 | cbn in H2; lia]].
  - destruct (incomingRevs p !! i) as [inc|]; [|discriminate]. simplify_eq.
    split; [exact Hinv | split; [exact Hsync | cbn; lia]].
  - simplify_eq. by apply revsFinished_inv.
Qed.

Lemma eventsFeed_cons (ev : Event) (evs : list Event) :
  eventsFeed (ev :: evs) = eventFeed ev ++ eventsFeed evs.
Proof. reflexivity. Qed.

Lemma run_checkpoint (evs : list Event) (future : list N) (p p' : Puller) :
  checkpointInv (pendingFeed p ++ eventsFeed evs ++ future) p ->
  synced p ->
  run kMaxPendingRevs kMaxActiveIncomingRevs kMaxUnfinishedIncomingRevs p evs
    = Some p' ->
  checkpointInv (pendingFeed p' ++ future) p'
  /\ synced p'
  /\ (_lastSequence p <= _lastSequence p')%N.
Proof.
  revert p. induction evs as [|ev evs IH]; intros p Hinv Hsync Hrun; cbn in Hrun.
  - simplify_eq. split; [exact Hinv | split; [exact Hsync | lia]].
  - destruct (step _ _ _ p ev) as [p1|] eqn:Hstep; [|discriminate].
    rewrite eventsFeed_cons, <- app_assoc in Hinv.
    destruct (step_checkpoint ev (eventsFeed evs ++ future) p p1 Hinv Hsync Hstep)
      as (Hinv1 & Hsync1 & Hl1).
    destruct (IH p1 Hinv1 Hsync1 Hrun) as (Hinv2 & Hsync2 & Hl2).
    split; [exact Hinv2 | split; [exact Hsync2 | lia]].
Qed.

Lemma start_checkpoint (sinceSequence : N) (options : Options) (openServer : bool)
    (feed : list N) :
  ascendingFrom sinceSequence feed ->
  let p := _start kChangesBatchSize sinceSequence (Puller_new options openServer) in
  checkpointInv (pendingFeed p ++ feed) p /\ synced p
  /\ _lastSequence p = sinceSequence.
Proof.
  intros Ha. cbn zeta. split; [|split; reflexivity].
  assert (forall k : N, is_Some ((∅ : gmap N N) !! k) -> False) as Hempty.
  { intros k Hk. rewrite lookup_empty in Hk. by destruct Hk. }
  split; [|split].
  - split; cbn.
    + intros k Hk. by destruct (Hempty k Hk).
    + intros _. reflexivity.
  - cbn. unfold MissingSequences.since. cbn. reflexivity.
  - exists sinceSequence. split; [|exact Ha].
    split; [cbn; reflexivity|]. split; [cbn; reflexivity|].
    cbn. intros k Hk. by destruct (Hempty k Hk).
Qed.

End Trace.

(** C1, counterexample: nothing in the worker checks the order of the
    sequences the remote announces.  Started at 200, it is told of 50 and
    51: both go into the missing set while the checkpoint stays at 200,
    above them.  When 50 is then refused, [since()] is 51 and the checkpoint
    moves back from 200 to 51. *)
Lemma late_announcement_breaks_checkpoint :
  run 200 100 200 startedAt200 lateAnnouncement = Some afterLateAnnouncement
  /\ run 200 100 200 afterLateAnnouncement refusing50 = Some afterRefusing50
  /\ _lastSequence startedAt200 = 200%N
  /\ _lastSequence afterLateAnnouncement = 200%N
  /\ MissingSequences.members (_missingSequences afterLateAnnouncement) !! 50%N
     = Some 10%N
  /\ _lastSequence afterRefusing50 = 51%N
  /\ ~ checkpointHolds startedAt200 afterLateAnnouncement
  /\ ~ checkpointHolds afterLateAnnouncement afterRefusing50.
Proof.
  assert (_lastSequence afterLateAnnouncement = 200%N) as Hlate
    by (vm_compute; reflexivity).
  assert (MissingSequences.members (_missingSequences afterLateAnnouncement) !! 50%N
          = Some 10%N) as Hmember by (vm_compute; reflexivity).
  assert (_lastSequence afterRefusing50 = 51%N) as Hrefused
    by (vm_compute; reflexivity).
  split; [vm_compute; reflexivity|]. split; [vm_compute; reflexivity|].
  split; [reflexivity|]. split; [exact Hlate|]. split; [exact Hmember|].
  split; [exact Hrefused|]. split.
  - intros [_ H]. specialize (H 50%N). rewrite Hmember, Hlate in H.
    assert (200 <= 50)%N as Hle by (apply H; by eexists). lia.
  - intros [H _]. rewrite Hlate, Hrefused in H. lia.
Qed.

(** C1, amended: take any trace after [_start(sinceSequence)] in which the
    remote announces its sequences in order (none before [sinceSequence],
    none before the one announced before it).  Then the checkpoint never
    moves back: it starts at [sinceSequence] and at a later point of the
    trace it is not before what it was earlier.  After every event it
    equals [since()] of the missing set, which is what [updateLastSequence]
    always leaves in it, and it is not beyond any sequence still in the
    missing set. *)
Theorem checkpoint_monotone :
  forall (kChangesBatchSize kMaxPendingRevs kMaxActiveIncomingRevs
          kMaxUnfinishedIncomingRevs : Z) (options : Options) (openServer : bool)
         (sinceSequence : N) (evs1 evs2 : list Event) (p1 p2 : Puller),
    ascendingFrom sinceSequence (eventsFeed (evs1 ++ evs2)) ->
    run kMaxPendingRevs kMaxActiveIncomingRevs kMaxUnfinishedIncomingRevs
      (_start kChangesBatchSize sinceSequence (Puller_new options openServer)) evs1
      = Some p1 ->
    run kMaxPendingRevs kMaxActiveIncomingRevs kMaxUnfinishedIncomingRevs p1 evs2
      = Some p2 ->
    (sinceSequence <= _lastSequence p1)%N
    /\ (_lastSequence p1 <= _lastSequence p2)%N
    /\ _lastSequence p2 = MissingSequences.since (_missingSequences p2)
    /\ (forall s, is_Some (MissingSequences.members (_missingSequences p2) !! s) ->
                  (_lastSequence p2 <= s)%N)
    /\ (forall q, _lastSequence (updateLastSequence q)
                  = MissingSequences.since (_missingSequences q)).
Proof.
  intros batch capP capA capU options openServer since evs1 evs2 p1 p2 Hfeed Hrun1 Hrun2.
  unfold eventsFeed in Hfeed. rewrite flat_map_app in Hfeed.
  fold (eventsFeed evs1) in Hfeed. fold (eventsFeed evs2) in Hfeed.
  destruct (start_checkpoint batch since options openServer _ Hfeed) as (Hinv0 & Hsync0 & Hl0).
  cbn zeta in *.
  destruct (run_checkpoint capP capA capU evs1 (eventsFeed evs2) _ p1 Hinv0 Hsync0 Hrun1)
    as (Hinv1 & Hsync1 & Hl1).
  rewrite <- (app_nil_r (eventsFeed evs2)) in Hinv1.
  destruct (run_checkpoint capP capA capU evs2 [] p1 p2 Hinv1 Hsync1 Hrun2)
    as (Hinv2 & Hsync2 & Hl2).
  rewrite Hl0 in Hl1.
  split; [exact Hl1|]. split; [exact Hl2|]. split; [exact Hsync2|]. split.
  - intros s Hs. rewrite Hsync2. apply since_le_members; [apply Hinv2 | exact Hs].
  - intros q. apply updateLastSequence_spec.
Qed.

Lemma checkpoint_monotone_witness :
  _lastSequence afterSecond = 100%N
  /\ _lastSequence afterBoth = 102%N
  /\ ((100 <= _lastSequence afterSecond)%N
      /\ (_lastSequence afterSecond <= _lastSequence afterBoth)%N
      /\ _lastSequence afterBoth = MissingSequences.since (_missingSequences afterBoth)
      /\ (forall s, is_Some (MissingSequences.members (_missingSequences afterBoth) !! s) ->
                    (_lastSequence afterBoth <= s)%N)
      /\ (forall q, _lastSequence (updateLastSequence q)
                    = MissingSequences.since (_missingSequences q))).
Proof.
  split; [vm_compute; reflexivity|]. split; [vm_compute; reflexivity|].
  apply (checkpoint_monotone 200 200 100 200 oneShot false 100%N
           secondFinishesFirst thenTheFirst afterSecond afterBoth).
  - vm_compute. repeat split; discriminate.
  - vm_compute. reflexivity.
  - vm_compute. reflexivity.
Defined.

(** * Further properties of the worker *)

(** ** Accepting and refusing "changes" messages *)

(** X1: under [noIncomingConflicts] a plain "changes" message that offers
    changes and expects a reply is refused with error 409; it is not handed
    to the RevFinder, and the missing set, the counters and the caught-up
    flag stay as they were. *)
Theorem handleChangesNow_conflict_free_refusal :
  forall (req : MessageIn) (c : Change) (rest : list Change) (p : Puller),
    JSONBody req = Some (c :: rest) ->
    noReply req = false ->
    noIncomingConflicts (_options p) = true ->
    Profile req <> "proposeChanges" ->
    sent (handleChangesNow req p) = sent p ++ [RespondWithError req "BLIP" 409 ""]
    /\ sameCountersAndMissing p (handleChangesNow req p)
    /\ _caughtUp (handleChangesNow req p) = _caughtUp p.
Proof.
  intros req c rest p Hbody Hreply Hmode Hprofile.
  apply String.eqb_neq in Hprofile.
  unfold handleChangesNow. rewrite Hbody, Hreply, Hmode, Hprofile. cbn.
  unfold sameCountersAndMissing. cbn. repeat split.
Qed.

Lemma handleChangesNow_conflict_free_refusal_witness :
  sent (handleChangesNow plainChanges (Puller_new conflictFree true))
  = [RespondWithError plainChanges "BLIP" 409 ""].
Proof.
  apply (handleChangesNow_conflict_free_refusal plainChanges
           (mkChange 5%N "doc5" 40%N) [] (Puller_new conflictFree true)).
  - reflexivity.
  - reflexivity.
  - reflexivity.
  - vm_compute. discriminate.
Defined.

(** What [handleChangesNow] does to the RevFinder's side, by the guard of
    its last branch. *)
Lemma handleChangesNow_accepted (req : MessageIn) (p : Puller) :
  accepted (_options p) req = true ->
  handleChangesNow req p
  = send (FindOrRequestRevs req)
      (set_revFinderRequests (revFinderRequests p ++ [req])
         (set_pendingRevFinderCalls (increment (_pendingRevFinderCalls p) 1) p)).
Proof.
  unfold accepted, handleChangesNow. intros H.
  apply andb_true_iff in H as [H H3]. apply andb_true_iff in H as [H1 H2].
  apply negb_true_iff in H1, H2, H3.
  destruct (JSONBody req) as [[|c rest]|]; try discriminate.
  cbn in *. rewrite H2, H3. reflexivity.
Qed.

Lemma handleChangesNow_not_accepted (req : MessageIn) (p : Puller) :
  accepted (_options p) req = false ->
  revFinderRequests (handleChangesNow req p) = revFinderRequests p
  /\ _pendingRevFinderCalls (handleChangesNow req p) = _pendingRevFinderCalls p.
Proof.
  unfold accepted, handleChangesNow. intros H.
  destruct (JSONBody req) as [[|c rest]|]; cbn in *.
  - by split.
  - destruct (noReply req); cbn in *; [by split|].
    apply negb_false_iff in H. rewrite H. by split.
  - destruct (negb (String.eqb (body req) "null")); by split.
Qed.

(** X2: a "proposeChanges" message that offers changes and expects a reply
    is handed to the RevFinder also under [noIncomingConflicts], and so is
    a plain "changes" message without that option: the request joins the
    RevFinder's requests, [_pendingRevFinderCalls] goes up by one, and no
    reply is sent yet; the flags and the flow-control counters of the
    revisions stay as they were. *)
Theorem handleChangesNow_hands_over :
  forall (req : MessageIn) (c : Change) (rest : list Change) (p : Puller),
    JSONBody req = Some (c :: rest) ->
    noReply req = false ->
    noIncomingConflicts (_options p) = false \/ Profile req = "proposeChanges" ->
    let p' := handleChangesNow req p in
    sent p' = sent p ++ [FindOrRequestRevs req]
    /\ revFinderRequests p' = revFinderRequests p ++ [req]
    /\ _pendingRevFinderCalls p' = (_pendingRevFinderCalls p + 1) mod 2 ^ 32
    /\ _caughtUp p' = _caughtUp p
    /\ _skipDeleted p' = _skipDeleted p
    /\ besideChanges p' = besideChanges p.
Proof.
  intros req c rest p Hbody Hreply Hmode. cbn zeta.
  rewrite (handleChangesNow_accepted req p).
  - cbn. repeat split.
  - unfold accepted. rewrite Hbody, Hreply. cbn.
    destruct Hmode as [-> | ->]; [reflexivity|].
    cbn. by rewrite andb_false_r.
Qed.

Lemma handleChangesNow_hands_over_witness :
  sent (handleChangesNow proposedChanges (Puller_new conflictFree true))
  = [FindOrRequestRevs proposedChanges]
  /\ _pendingRevFinderCalls (handleChangesNow proposedChanges (Puller_new conflictFree true))
     = 1.
Proof.
  destruct (handleChangesNow_hands_over proposedChanges (mkChange 5%N "doc5" 40%N) []
              (Puller_new conflictFree true)) as (H1 & _ & H3 & _).
  - reflexivity.
  - reflexivity.
  - right. reflexivity.
  - split; [exact H1 | exact H3].
Defined.

(** ** The changes pump *)

Lemma handleMoreChanges_loop_unthrottled (kMaxPendingRevs : Z)
    (waiting : list MessageIn) (p : Puller) :
  _pendingRevMessages p < kMaxPendingRevs ->
  _waitingChangesMessages p = waiting ->
  _waitingChangesMessages (handleMoreChanges_loop kMaxPendingRevs waiting p) = []
  /\ revFinderRequests (handleMoreChanges_loop kMaxPendingRevs waiting p)
     = revFinderRequests p ++ List.filter (accepted (_options p)) waiting.
Proof.
  revert p. induction waiting as [|req rest IH]; intros p Hlt Hw; cbn [handleMoreChanges_loop].
  - split; [exact Hw | by rewrite app_nil_r].
  - pose proof Hlt as Hltb. apply Z.ltb_lt in Hltb. rewrite Hltb.
    set (q := handleChangesNow req (set_waitingChangesMessages rest p)).
    destruct (handleChangesNow_beside req (set_waitingChangesMessages rest p))
      as (Hb & Hwq & _). fold q in Hb, Hwq. cbn in Hwq.
    assert (_pendingRevMessages q = _pendingRevMessages p
            /\ _options q = _options p) as [Hp Ho].
    { unfold besideChanges in Hb. by simplify_eq. }
    destruct (IH q) as [H1 H2]; [lia | exact Hwq |].
    split; [exact H1|]. rewrite H2, Ho. cbn [List.filter].
    destruct (accepted (_options p) req) eqn:Hacc.
    + subst q.
      rewrite (handleChangesNow_accepted req (set_waitingChangesMessages rest p) Hacc).
      cbn. by rewrite <- app_assoc.
    + subst q.
      by destruct (handleChangesNow_not_accepted req
                     (set_waitingChangesMessages rest p) Hacc) as [-> _].
Qed.

Lemma handleMoreChanges_throttled (kMaxPendingRevs : Z) (p : Puller) :
  kMaxPendingRevs <= _pendingRevMessages p ->
  handleMoreChanges kMaxPendingRevs p = p.
Proof.
  intros Hge. unfold handleMoreChanges.
  destruct (_waitingChangesMessages p) as [|req rest]; cbn; [reflexivity|].
  apply Z.ltb_ge in Hge. by rewrite Hge.
Qed.

(** X3: the changes pump is all or nothing and keeps the order of arrival.
    Below the cap it empties the queue, however long it is, and hands the
    messages that offer changes (and are not refused) to the RevFinder in
    the order they waited, because handling a message raises
    [_pendingRevMessages] only later, in the RevFinder's callback; at the
    cap it does nothing. *)
Theorem handleMoreChanges_fifo :
  forall (kMaxPendingRevs : Z) (p : Puller),
    let p' := handleMoreChanges kMaxPendingRevs p in
    if _pendingRevMessages p <? kMaxPendingRevs
    then _waitingChangesMessages p' = []
         /\ revFinderRequests p'
            = revFinderRequests p
              ++ List.filter (accepted (_options p)) (_waitingChangesMessages p)
         /\ _pendingRevMessages p' = _pendingRevMessages p
    else p' = p.
Proof.
  intros cap p. cbn zeta. destruct (_pendingRevMessages p <? cap) eqn:Hlt.
  - apply Z.ltb_lt in Hlt.
    destruct (handleMoreChanges_loop_unthrottled cap (_waitingChangesMessages p) p Hlt eq_refl)
      as [H1 H2].
    split; [exact H1|]. split; [exact H2|].
    destruct (handleMoreChanges_beside cap p) as [Hb _].
    unfold besideChanges in Hb. by simplify_eq.
  - apply Z.ltb_ge in Hlt. by apply handleMoreChanges_throttled.
Qed.

(** X4: a throttled worker only queues: at the cap, [handleChanges] puts
    the message at the back of the queue and changes nothing else, whatever
    the message is; not even a malformed message is answered. *)
Theorem handleChanges_throttled_queues :
  forall (kMaxPendingRevs : Z) (req : MessageIn) (p : Puller),
    kMaxPendingRevs <= _pendingRevMessages p ->
    handleChanges kMaxPendingRevs req p
    = set_waitingChangesMessages (_waitingChangesMessages p ++ [req]) p.
Proof.
  intros cap req p Hge. unfold handleChanges.
  by apply handleMoreChanges_throttled.
Qed.

Lemma handleChanges_throttled_queues_witness :
  _waitingChangesMessages
    (handleChanges 200 garbageBodyMessage (set_pendingRevMessages 200 freshPuller))
  = [garbageBodyMessage]
  /\ sent (handleChanges 200 garbageBodyMessage (set_pendingRevMessages 200 freshPuller)) = [].
Proof.
  rewrite (handleChanges_throttled_queues 200 garbageBodyMessage
             (set_pendingRevMessages 200 freshPuller)).
  - split; reflexivity.
  - cbn. lia.
Defined.

(** X5: taking [_pendingRevMessages] below the cap releases the queue: when
    the counter is positive and not above the cap, a "norev" or a "rev" that
    is started leaves no "changes" message waiting. *)
Theorem lowering_pending_releases_changes :
  forall (kMaxPendingRevs : Z) (msg : MessageIn) (p : Puller),
    0 < _pendingRevMessages p <= kMaxPendingRevs ->
    kMaxPendingRevs <= 2 ^ 32 ->
    _waitingChangesMessages (handleNoRev kMaxPendingRevs msg p) = []
    /\ _waitingChangesMessages (startIncomingRev kMaxPendingRevs msg p) = [].
Proof.
  intros cap msg p Hpending Hcap.
  assert (decrement (_pendingRevMessages p) 1 < cap) as Hdec.
  { unfold decrement. rewrite Z.mod_small by lia. lia. }
  split.
  - unfold handleNoRev.
    set (p1 := set_pendingRevMessages _ (set_incomingDocIDs _ p)).
    set (p2 := if sequence_bool (sequence msg)
               then completedSequence (sequence msg) false true p1 else p1).
    assert (_pendingRevMessages p2 = decrement (_pendingRevMessages p) 1) as Hp2.
    { subst p2. destruct (sequence_bool _); [|reflexivity].
      destruct (completedSequence_spec (sequence msg) true p1) as (_ & _ & _ & Hb & _).
      unfold besideCheckpoint in Hb. by simplify_eq. }
    clearbody p2.
    destruct (handleMoreChanges_loop_unthrottled cap (_waitingChangesMessages p2) p2)
      as [H _]; [lia | reflexivity |].
    fold (handleMoreChanges cap p2) in H.
    by destruct (negb (noReply msg)).
  - unfold startIncomingRev.
    match goal with |- _waitingChangesMessages (handleMoreChanges _ ?q) = _ =>
      set (p1 := q) end.
    assert (_pendingRevMessages p1 = decrement (_pendingRevMessages p) 1) as Hp1.
    { subst p1. by destruct (_spareIncomingRevs _ =? 0). }
    clearbody p1.
    by destruct (handleMoreChanges_loop_unthrottled cap (_waitingChangesMessages p1) p1)
      as [H _]; [lia | reflexivity |].
Qed.

Lemma lowering_pending_releases_changes_witness :
  _waitingChangesMessages
    (handleNoRev 200 (mkMessageIn 9 "norev" "" None false "doc" nullslice)
       (set_waitingChangesMessages [plainChanges] (set_pendingRevMessages 200 freshPuller)))
  = [].
Proof.
  apply (lowering_pending_releases_changes 200
           (mkMessageIn 9 "norev" "" None false "doc" nullslice)
           (set_waitingChangesMessages [plainChanges] (set_pendingRevMessages 200 freshPuller))).
  - cbn. lia.
  - lia.
Defined.

(** ** The RevFinder's callback *)

Lemma countTrue_nonneg (which : list bool) : 0 <= countTrue which.
Proof. induction which as [|[] which IH]; cbn [countTrue]; lia. Qed.

Lemma revsFound_step_pending (changes : option (list Change)) (i : nat)
    (requesting : bool) (p : Puller) :
  _pendingRevMessages (revsFound_step changes i requesting p)
  = if requesting then (_pendingRevMessages p + 1) mod 2 ^ 32 else _pendingRevMessages p.
Proof.
  unfold revsFound_step.
  match goal with |- context [if requesting then set_pendingRevMessages _ ?q else _] =>
    set (p1 := q) end.
  assert (_pendingRevMessages p1 = _pendingRevMessages p) as Hp.
  { subst p1. destruct (nonPassive p); [|reflexivity].
    match goal with |- context [addProgress ?d ?q] => set (p0 := addProgress d q) end.
    assert (_pendingRevMessages p0 = _pendingRevMessages p) as H0
      by (subst p0; by destruct (sequence_bool _)).
    destruct requesting; cbn [negb]; [exact H0|].
    destruct (completedSequence_spec (change_sequence (Array_get changes i)) true p0)
      as (_ & _ & _ & Hb & _).
    unfold besideCheckpoint in Hb. simplify_eq. congruence. }
  clearbody p1. destruct requesting; cbn; [unfold increment|]; by rewrite Hp.
Qed.

Lemma revsFound_loop_pending (changes : option (list Change)) (which : list bool)
    (i : nat) (p : Puller) :
  0 <= _pendingRevMessages p < 2 ^ 32 ->
  _pendingRevMessages (revsFound_loop changes i which p)
  = (_pendingRevMessages p + countTrue which) mod 2 ^ 32.
Proof.
  revert i p. induction which as [|w which IH]; intros i p Hp; cbn [revsFound_loop countTrue].
  - rewrite Z.add_0_r, Z.mod_small by lia. reflexivity.
  - pose proof (revsFound_step_pending changes i w p) as Hs.
    rewrite IH.
    + rewrite Hs. destruct w.
      * rewrite Zplus_mod_idemp_l. f_equal. lia.
      * f_equal.
    + rewrite Hs. destruct w; [apply Z.mod_pos_bound; lia | exact Hp].
Qed.

(** X6: when the RevFinder answers, [_pendingRevFinderCalls] goes down by
    one and [_pendingRevMessages] goes up by the number of revisions it
    wants, whatever [kMaxPendingRevs] is: the callback never looks at the
    cap.  The queues, the workers and their counters are left alone. *)
Theorem revsFound_counts_wanted :
  forall (req : MessageIn) (which : list bool) (p : Puller),
    0 <= _pendingRevMessages p < 2 ^ 32 ->
    _pendingRevMessages (revsFound req which p)
    = (_pendingRevMessages p + countTrue which) mod 2 ^ 32
    /\ _pendingRevFinderCalls (revsFound req which p)
       = (_pendingRevFinderCalls p - 1) mod 2 ^ 32
    /\ besideFound (revsFound req which p) = besideFound p.
Proof.
  intros req which p Hp. split; [|split].
  - unfold revsFound. by rewrite revsFound_loop_pending.
  - unfold revsFound.
    match goal with |- _pendingRevFinderCalls (revsFound_loop ?c ?i ?w ?q) = _ =>
      pose proof (revsFound_loop_beside c w i q) as Hb;
      assert (_pendingRevFinderCalls (revsFound_loop c i w q) = _pendingRevFinderCalls q)
        as ->
    end; [|reflexivity].
    clear Hb. generalize 0%nat.
    match goal with |- forall n, _ (revsFound_loop ?c n which ?q) = _ => generalize q end.
    induction which as [|w which IH]; intros q n; cbn [revsFound_loop]; [reflexivity|].
    rewrite IH. unfold revsFound_step.
    assert (forall q', _pendingRevFinderCalls
                         (if w then set_pendingRevMessages (increment (_pendingRevMessages q') 1) q'
                          else q') = _pendingRevFinderCalls q') as Hw by (by destruct w).
    rewrite Hw. destruct (nonPassive q); [|reflexivity].
    match goal with |- context [addProgress ?d ?q'] => set (p0 := addProgress d q') end.
    assert (_pendingRevFinderCalls p0 = _pendingRevFinderCalls q) as H0
      by (subst p0; by destruct (sequence_bool _)).
    destruct w; cbn [negb]; [exact H0|].
    destruct (completedSequence_spec
                (change_sequence (Array_get (JSONBody req) n)) true p0)
      as (_ & _ & _ & Hb & _).
    unfold besideCheckpoint in Hb. simplify_eq. congruence.
  - apply revsFound_beside.
Qed.

Lemma revsFound_counts_wanted_witness :
  _pendingRevMessages
    (revsFound (announcing 1 101 3) [true; false; true]
       (set_pendingRevMessages 199 freshPuller)) = 201.
Proof.
  destruct (revsFound_counts_wanted (announcing 1 101 3) [true; false; true]
              (set_pendingRevMessages 199 freshPuller)) as [H _].
  - cbn. lia.
  - rewrite H. reflexivity.
Defined.

Lemma revsFound_loop_passive (changes : option (list Change)) (which : list bool)
    (i : nat) (p : Puller) :
  nonPassive p = false ->
  let p' := revsFound_loop changes i which p in
  _missingSequences p' = _missingSequences p
  /\ _lastSequence p' = _lastSequence p
  /\ progress p' = progress p
  /\ sent p' = sent p.
Proof.
  revert i p. induction which as [|w which IH]; intros i p Hpassive; cbn zeta;
    cbn [revsFound_loop]; [done|].
  assert (revsFound_step changes i w p
          = if w then set_pendingRevMessages (increment (_pendingRevMessages p) 1) p
            else p) as ->.
  { unfold revsFound_step. by rewrite Hpassive. }
  destruct (IH (S i) (if w then set_pendingRevMessages (increment (_pendingRevMessages p) 1) p
                      else p)) as (H1 & H2 & H3 & H4).
  { by destruct w. }
  rewrite H1, H2, H3, H4. by destruct w.
Qed.

(** X7: in a passive pull the RevFinder's callback only counts: the missing
    set, the checkpoint and the progress stay as they were and nothing is
    sent, whatever the RevFinder wants. *)
Theorem revsFound_passive_only_counts :
  forall (req : MessageIn) (which : list bool) (p : Puller),
    nonPassive p = false ->
    let p' := revsFound req which p in
    _missingSequences p' = _missingSequences p
    /\ _lastSequence p' = _lastSequence p
    /\ progress p' = progress p
    /\ sent p' = sent p.
Proof.
  intros req which p Hpassive. cbn zeta. unfold revsFound.
  by apply (revsFound_loop_passive (JSONBody req) which 0
              (set_pendingRevFinderCalls (decrement (_pendingRevFinderCalls p) 1) p)).
Qed.

Lemma revsFound_passive_only_counts_witness :
  progress (revsFound proposedChanges [true] (Puller_new conflictFree true)) = (0%N, 0%N).
Proof.
  destruct (revsFound_passive_only_counts proposedChanges [true]
              (Puller_new conflictFree true)) as (_ & _ & H & _).
  - reflexivity.
  - exact H.
Defined.

Lemma revsFound_step_total (changes : option (list Change)) (i : nat)
    (requesting : bool) (p : Puller) :
  nonPassive p = true ->
  nonPassive (revsFound_step changes i requesting p) = true
  /\ snd (progress (revsFound_step changes i requesting p))
     = (snd (progress p)
        + (if requesting then N.max (change_bodySize (Array_get changes i)) 1 else 0))%N.
Proof.
  intros Hactive.
  pose proof (revsFound_step_beside changes i requesting p) as Hb.
  split.
  { unfold nonPassive in *. unfold besideFound in Hb. simplify_eq. congruence. }
  clear Hb. unfold revsFound_step. rewrite Hactive.
  match goal with |- context [addProgress ?d ?q] => set (p0 := addProgress d q) end.
  assert (snd (progress p0)
          = (snd (progress p)
             + (if requesting then N.max (change_bodySize (Array_get changes i)) 1 else 0))%N)
    as H0 by (subst p0; by destruct (sequence_bool _)).
  clearbody p0. destruct requesting; cbn [negb]; [exact H0|].
  destruct (completedSequence_spec (change_sequence (Array_get changes i)) true p0)
    as (_ & _ & Hp & _).
  cbn zeta in Hp. rewrite Hp. cbn [snd]. rewrite H0. lia.
Qed.

(** X8: in an active pull the RevFinder's callback adds to the total of the
    progress, for every revision it wants, the announced body size, and 1
    for a revision announced with size 0; a revision it does not want adds
    nothing. *)
Theorem revsFound_total_grows_by_wanted :
  forall (req : MessageIn) (which : list bool) (p : Puller),
    nonPassive p = true ->
    snd (progress (revsFound req which p))
    = (snd (progress p) + wantedUnits (JSONBody req) 0 which)%N.
Proof.
  intros req which p Hactive. unfold revsFound.
  set (q := set_pendingRevFinderCalls _ p).
  change (snd (progress p)) with (snd (progress q)).
  assert (nonPassive q = true) as Hq by exact Hactive.
  clearbody q. clear Hactive p. generalize 0%nat. revert q Hq.
  induction which as [|w which IH]; intros q Hq n; cbn [revsFound_loop wantedUnits].
  - lia.
  - destruct (revsFound_step_total (JSONBody req) n w q Hq) as [Ha Ht].
    rewrite IH by exact Ha. rewrite Ht. lia.
Qed.

Lemma revsFound_total_grows_by_wanted_witness :
  snd (progress (revsFound (mkMessageIn 1 "changes" "[[...]]"
                              (Some [mkChange 101%N "a" 0%N; mkChange 102%N "b" 30%N;
                                     mkChange 103%N "c" 40%N])
                              false "" nullslice)
                   [true; false; true] freshPuller))
  = 41%N.
Proof.
  rewrite (revsFound_total_grows_by_wanted _ [true; false; true] freshPuller).
  - reflexivity.
  - reflexivity.
Defined.

(** ** What only the handling of "changes" messages can touch *)

Lemma updateLastSequence_flagsView (p : Puller) :
  flagsView (updateLastSequence p) = flagsView p.
Proof. unfold updateLastSequence. by destruct (negb _). Qed.

Lemma completedSequence_flagsView (seq : RemoteSequence) (transient update : bool)
    (p : Puller) :
  flagsView (completedSequence seq transient update p) = flagsView p.
Proof.
  destruct transient; [reflexivity|].
  destruct (completedSequence_spec seq update p) as (_ & _ & _ & Hb & _).
  unfold besideCheckpoint in Hb. unfold flagsView. simplify_eq. congruence.
Qed.

Lemma revsFound_loop_flagsView (changes : option (list Change)) (which : list bool)
    (i : nat) (p : Puller) :
  flagsView (revsFound_loop changes i which p) = flagsView p.
Proof.
  revert i p. induction which as [|w which IH]; intros i p; cbn [revsFound_loop];
    [reflexivity|].
  rewrite IH. unfold revsFound_step.
  assert (forall q, flagsView
                      (if w then set_pendingRevMessages (increment (_pendingRevMessages q) 1) q
                       else q) = flagsView q) as Hw by (by destruct w).
  rewrite Hw. destruct (nonPassive p); [|reflexivity].
  match goal with |- context [addProgress ?d ?q] => set (p0 := addProgress d q) end.
  assert (flagsView p0 = flagsView p) as H0 by (subst p0; by destruct (sequence_bool _)).
  destruct w; cbn [negb]; [exact H0|].
  by rewrite completedSequence_flagsView.
Qed.

Section Kept.

Variables kMaxPendingRevs kMaxActiveIncomingRevs kMaxUnfinishedIncomingRevs : Z.

(** A property of the members of [flagsView] that handling a "changes"
    message keeps. *)
Variable I : Puller -> Prop.
Hypothesis I_view : forall p p', flagsView p' = flagsView p -> I p -> I p'.
Hypothesis I_changes : forall req p, I p -> I (handleChangesNow req p).

Lemma kept_handleMoreChanges_loop (waiting : list MessageIn) (p : Puller) :
  I p -> I (handleMoreChanges_loop kMaxPendingRevs waiting p).
Proof.
  revert p. induction waiting as [|req rest IH]; intros p Hp; cbn; [exact Hp|].
  destruct (_pendingRevMessages p <? kMaxPendingRevs); [|exact Hp].
  apply IH, I_changes. by apply (I_view p).
Qed.

Lemma kept_handleMoreChanges (p : Puller) :
  I p -> I (handleMoreChanges kMaxPendingRevs p).
Proof. apply kept_handleMoreChanges_loop. Qed.

Lemma kept_startIncomingRev (msg : MessageIn) (p : Puller) :
  I p -> I (startIncomingRev kMaxPendingRevs msg p).
Proof.
  intros Hp. unfold startIncomingRev. apply kept_handleMoreChanges.
  apply (I_view p); [|exact Hp]. by destruct (_spareIncomingRevs _ =? 0).
Qed.

Lemma kept_handleRev (msg : MessageIn) (p : Puller) :
  I p -> I (handleRev kMaxPendingRevs kMaxActiveIncomingRevs
              kMaxUnfinishedIncomingRevs msg p).
Proof.
  intros Hp. unfold handleRev. destruct (_ && _).
  - by apply kept_startIncomingRev.
  - by apply (I_view p).
Qed.

Lemma kept_completedSequence (seq : RemoteSequence) (transient update : bool)
    (p : Puller) :
  I p -> I (completedSequence seq transient update p).
Proof. apply I_view, completedSequence_flagsView. Qed.

Lemma kept_handleNoRev (msg : MessageIn) (p : Puller) :
  I p -> I (handleNoRev kMaxPendingRevs msg p).
Proof.
  intros Hp. unfold handleNoRev.
  set (p1 := set_pendingRevMessages _ (set_incomingDocIDs _ p)).
  assert (I p1) as H1 by (by apply (I_view p)).
  set (p2 := if sequence_bool (sequence msg)
             then completedSequence (sequence msg) false true p1 else p1).
  assert (I p2) as H2.
  { subst p2. destruct (sequence_bool _); [by apply kept_completedSequence | exact H1]. }
  clearbody p2. apply kept_handleMoreChanges in H2.
  destruct (negb (noReply msg)); [|exact H2].
  by apply (I_view (handleMoreChanges kMaxPendingRevs p2)).
Qed.

Lemma kept_revWasProvisionallyHandled (p : Puller) :
  I p -> I (_revWasProvisionallyHandled kMaxPendingRevs kMaxActiveIncomingRevs
              kMaxUnfinishedIncomingRevs p).
Proof.
  intros Hp. unfold _revWasProvisionallyHandled.
  set (p1 := set_activeIncomingRevs _ p).
  assert (I p1) as H1 by (by apply (I_view p)).
  clearbody p1. destruct (_ && _); [|exact H1].
  destruct (_waitingRevMessages p1) as [|msg rest]; [exact H1|].
  apply kept_handleMoreChanges, kept_startIncomingRev. by apply (I_view p1).
Qed.

Lemma kept_revsFinished_step (inc : IncomingRev) (p : Puller) :
  I p -> I (revsFinished_step kMaxPendingRevs kMaxActiveIncomingRevs
              kMaxUnfinishedIncomingRevs inc p).
Proof.
  intros Hp. unfold revsFinished_step.
  set (p1 := if negb (wasProvisionallyInserted inc)
             then _revWasProvisionallyHandled kMaxPendingRevs kMaxActiveIncomingRevs
                    kMaxUnfinishedIncomingRevs p
             else p).
  assert (I p1) as H1.
  { subst p1. destruct (negb _); [by apply kept_revWasProvisionallyHandled | exact Hp]. }
  clearbody p1.
  set (p2 := if nonPassive p1
             then completedSequence (remoteSequence inc) (errorIsTransient (rev inc)) false p1
             else p1).
  assert (I p2) as H2.
  { subst p2. destruct (nonPassive p1); [by apply kept_completedSequence | exact H1]. }
  by apply (I_view p2).
Qed.

Lemma kept_revsFinished_loop (revs : list IncomingRev) (p : Puller) :
  I p -> I (revsFinished_loop kMaxPendingRevs kMaxActiveIncomingRevs
              kMaxUnfinishedIncomingRevs revs p).
Proof.
  revert p. induction revs as [|inc rest IH]; intros p Hp; cbn; [exact Hp|].
  by apply IH, kept_revsFinished_step.
Qed.

Lemma kept_revsFinished (p : Puller) :
  I p -> I (_revsFinished kMaxPendingRevs kMaxActiveIncomingRevs
              kMaxUnfinishedIncomingRevs p).
Proof.
  intros Hp. unfold _revsFinished.
  set (p1 := revsFinished_loop _ _ _ _ _).
  assert (I p1) as H1.
  { subst p1. apply kept_revsFinished_loop. by apply (I_view p). }
  clearbody p1.
  set (p2 := set_unfinishedIncomingRevs _ p1).
  assert (I p2) as H2 by (by apply (I_view p1)).
  clearbody p2.
  set (p3 := if nonPassive p2 then updateLastSequence p2 else p2).
  assert (I p3) as H3.
  { subst p3. destruct (nonPassive p2); [|exact H2].
    apply (I_view p2); [apply updateLastSequence_flagsView | exact H2]. }
  clearbody p3. destruct (_ >? 0); [|exact H3]. by apply (I_view p3).
Qed.

Lemma kept_start (kChangesBatchSize : Z) (sinceSequence : N) (p : Puller) :
  I p -> I (_start kChangesBatchSize sinceSequence p).
Proof. by apply I_view. Qed.

(** What the transport and the RevFinder do to the property. *)
Hypothesis I_reply : forall isError p, I p -> I (subChangesReply isError p).
Hypothesis I_closed : forall p, I p -> I (set_connection false p).
Hypothesis I_answered :
  forall req rest p,
    revFinderRequests p = req :: rest ->
    I p ->
    I (set_pendingRevFinderCalls (decrement (_pendingRevFinderCalls p) 1)
         (set_revFinderRequests rest p)).

Lemma kept_step (p : Puller) (ev : Event) (p' : Puller) :
  I p ->
  step kMaxPendingRevs kMaxActiveIncomingRevs kMaxUnfinishedIncomingRevs p ev = Some p' ->
  I p'.
Proof.
  intros Hp Hstep. destruct ev; unfold step in Hstep.
  - simplify_eq. by apply I_reply.
  - simplify_eq. by apply I_closed.
  - simplify_eq. unfold handleChanges. apply kept_handleMoreChanges.
    by apply (I_view p).
  - simplify_eq. by apply kept_handleRev.
  - simplify_eq. by apply kept_handleNoRev.
  - destruct (revFinderRequests p) as [|req rest] eqn:Hreqs; [discriminate|].
    simplify_eq. unfold revsFound.
    eapply I_view; [apply revsFound_loop_flagsView|].
    eapply I_view; [|exact (I_answered req rest p Hreqs Hp)]. reflexivity.
  - destruct (incomingRevs p !! i) as [inc|]; [|discriminate].
    destruct (wasProvisionallyInserted inc); [discriminate|].
    simplify_eq. apply kept_revWasProvisionallyHandled. by apply (I_view p).
  - destruct (incomingRevs p !! i) as [inc|]; [|discriminate].
    simplify_eq. by apply (I_view p).
  - simplify_eq. by apply kept_revsFinished.
Qed.

Lemma kept_run (evs : list Event) (p p' : Puller) :
  I p ->
  run kMaxPendingRevs kMaxActiveIncomingRevs kMaxUnfinishedIncomingRevs p evs = Some p' ->
  I p'.
Proof.
  revert p. induction evs as [|ev evs IH]; intros p Hp Hrun; cbn in Hrun.
  - by simplify_eq.
  - destruct (step _ _ _ p ev) as [q|] eqn:Hstep; [|discriminate].
    eapply IH; [|exact Hrun]. by eapply kept_step.
Qed.

Hypothesis I_new : forall options openServer, I (Puller_new options openServer).

Lemma kept_reachable (kChangesBatchSize : Z) (p : Puller) :
  reachable kChangesBatchSize kMaxPendingRevs kMaxActiveIncomingRevs
    kMaxUnfinishedIncomingRevs p ->
  I p.
Proof.
  induction 1 as [options openServer | since p _ IH | p ev p' _ IH Hstep].
  - apply I_new.
  - by apply kept_start.
  - by eapply kept_step.
Qed.

End Kept.

(** ** A worker that has stopped *)

Lemma stoppedForGood_run (kMaxPendingRevs kMaxActiveIncomingRevs
    kMaxUnfinishedIncomingRevs : Z) (evs : list Event) (p p' : Puller) :
  stoppedForGood p ->
  run kMaxPendingRevs kMaxActiveIncomingRevs kMaxUnfinishedIncomingRevs p evs = Some p' ->
  stoppedForGood p'.
Proof.
  apply (kept_run kMaxPendingRevs kMaxActiveIncomingRevs kMaxUnfinishedIncomingRevs
           stoppedForGood).
  - intros q q' Hv. unfold flagsView in Hv. unfold stoppedForGood.
    simplify_eq. congruence.
  - intros req q. destruct (handleChangesNow_beside req q) as [Hb _].
    unfold besideChanges in Hb. unfold stoppedForGood. simplify_eq. congruence.
  - intros isError q. unfold stoppedForGood, subChangesReply.
    destruct isError; cbn; tauto.
  - intros q _. by right.
  - intros req rest q _. unfold stoppedForGood. cbn. tauto.
Qed.

(** X9: a fatal error and a lost connection are for good.  Once the reply
    to "subChanges" was an error, or the connection was closed, no message,
    callback or restart brings the worker back: after any further events
    [computeActivityLevel] answers [kC4Stopped], also while revisions are
    pending. *)
Theorem stopped_for_good :
  forall (kChangesBatchSize kMaxPendingRevs kMaxActiveIncomingRevs
          kMaxUnfinishedIncomingRevs : Z) (p : Puller) (evs : list Event) (p' : Puller)
         (sinceSequence : N) (workerLevel : C4ReplicatorActivityLevel),
    _fatalError p = true \/ connection p = false ->
    run kMaxPendingRevs kMaxActiveIncomingRevs kMaxUnfinishedIncomingRevs p evs = Some p' ->
    computeActivityLevel workerLevel p' = (kC4Stopped, p')
    /\ fst (computeActivityLevel workerLevel (_start kChangesBatchSize sinceSequence p'))
       = kC4Stopped.
Proof.
  intros batch capP capA capU p evs p' since w Hp Hrun.
  pose proof (stoppedForGood_run capP capA capU evs p p' Hp Hrun) as Hs.
  assert (_fatalError p' || negb (connection p') = true) as Hb.
  { destruct Hs as [-> | ->]; [reflexivity | apply orb_true_r]. }
  split.
  - unfold computeActivityLevel. by rewrite Hb.
  - unfold computeActivityLevel.
    change (_fatalError (_start batch since p')) with (_fatalError p').
    change (connection (_start batch since p')) with (connection p').
    by rewrite Hb.
Qed.

Lemma stopped_for_good_witness :
  fst (computeActivityLevel kC4Busy
         (default freshPuller
            (run 200 100 200 (subChangesReply true startedAt100)
               [EvChanges oneDocument; EvRevsFound [true]])))
  = kC4Stopped.
Proof.
  destruct (stopped_for_good 200 200 100 200 (subChangesReply true startedAt100)
              [EvChanges oneDocument; EvRevsFound [true]]
              (default freshPuller
                 (run 200 100 200 (subChangesReply true startedAt100)
                    [EvChanges oneDocument; EvRevsFound [true]]))
              nullslice kC4Busy) as [H _].
  - left. reflexivity.
  - vm_compute. reflexivity.
  - rewrite H. reflexivity.
Defined.

(** ** The calls to the RevFinder *)

Lemma countsRevFinderCalls_reachable (kChangesBatchSize kMaxPendingRevs
    kMaxActiveIncomingRevs kMaxUnfinishedIncomingRevs : Z) (p : Puller) :
  reachable kChangesBatchSize kMaxPendingRevs kMaxActiveIncomingRevs
    kMaxUnfinishedIncomingRevs p ->
  countsRevFinderCalls p.
Proof.
  apply (kept_reachable kMaxPendingRevs kMaxActiveIncomingRevs kMaxUnfinishedIncomingRevs
           countsRevFinderCalls).
  - intros q q' Hv. unfold flagsView in Hv. unfold countsRevFinderCalls.
    simplify_eq. congruence.
  - intros req q Hq. unfold countsRevFinderCalls in *.
    destruct (accepted (_options q) req) eqn:Hacc.
    + rewrite (handleChangesNow_accepted req q Hacc). cbn. unfold increment.
      rewrite Hq, length_app, Zplus_mod_idemp_l. cbn. f_equal. lia.
    + by destruct (handleChangesNow_not_accepted req q Hacc) as [-> ->].
  - intros isError q. unfold countsRevFinderCalls, subChangesReply.
    by destruct isError.
  - by intros q.
  - intros req rest q Hreqs Hq. unfold countsRevFinderCalls in *. cbn.
    unfold decrement. rewrite Hq, Hreqs, Zminus_mod_idemp_l. cbn [length].
    f_equal. lia.
  - intros options openServer. reflexivity.
Qed.

(** X10: in every reachable state [_pendingRevFinderCalls] is the number of
    requests the RevFinder has not answered yet (modulo 2^32, the counter
    being [unsigned]).  So a connected worker without a fatal error is busy
    as long as the RevFinder owes it an answer. *)
Theorem pendingRevFinderCalls_counts_requests :
  forall (kChangesBatchSize kMaxPendingRevs kMaxActiveIncomingRevs
          kMaxUnfinishedIncomingRevs : Z) (p : Puller),
    reachable kChangesBatchSize kMaxPendingRevs kMaxActiveIncomingRevs
      kMaxUnfinishedIncomingRevs p ->
    _pendingRevFinderCalls p = Z.of_nat (length (revFinderRequests p)) mod 2 ^ 32
    /\ (forall workerLevel,
           revFinderRequests p <> [] ->
           Z.of_nat (length (revFinderRequests p)) < 2 ^ 32 ->
           _fatalError p = false ->
           connection p = true ->
           computeActivityLevel workerLevel p = (kC4Busy, p)).
Proof.
  intros batch capP capA capU p Hr.
  pose proof (countsRevFinderCalls_reachable batch capP capA capU p Hr) as Hc.
  split; [exact Hc|].
  intros w Hne Hlt Hf Hconn. unfold computeActivityLevel.
  rewrite Hf, Hconn. cbn [orb negb].
  assert ((_pendingRevFinderCalls p >? 0) = true) as ->.
  { apply Z.gtb_lt. unfold countsRevFinderCalls in Hc. rewrite Hc, Z.mod_small by lia.
    destruct (revFinderRequests p); [done|]. cbn [length]. lia. }
  by rewrite !orb_true_r.
Qed.

Lemma pendingRevFinderCalls_counts_requests_witness :
  _pendingRevFinderCalls (handleChanges 200 plainChanges (Puller_new oneShot false)) = 1.
Proof.
  destruct (pendingRevFinderCalls_counts_requests 200 200 100 200
              (handleChanges 200 plainChanges (Puller_new oneShot false))) as [H _].
  - apply (reachable_step 200 200 100 200 (Puller_new oneShot false) (EvChanges plainChanges)).
    + apply reachable_new.
    + reflexivity.
  - rewrite H. reflexivity.
Defined.

(** ** Skipping deleted revisions *)

Lemma caughtUpClearsSkipDeleted_reachable (kChangesBatchSize kMaxPendingRevs
    kMaxActiveIncomingRevs kMaxUnfinishedIncomingRevs : Z) (p : Puller) :
  reachable kChangesBatchSize kMaxPendingRevs kMaxActiveIncomingRevs
    kMaxUnfinishedIncomingRevs p ->
  caughtUpClearsSkipDeleted p.
Proof.
  apply (kept_reachable kMaxPendingRevs kMaxActiveIncomingRevs kMaxUnfinishedIncomingRevs
           caughtUpClearsSkipDeleted).
  - intros q q' Hv. unfold caughtUpClearsSkipDeleted.
    assert (_caughtUp q' = _caughtUp q /\ _skipDeleted q' = _skipDeleted q) as [-> ->]
      by (unfold flagsView in Hv; by simplify_eq).
    done.
  - intros req q Hq. unfold caughtUpClearsSkipDeleted, handleChangesNow in *.
    repeat match goal with |- context [if ?b then _ else _] => destruct b end;
      cbn; auto.
  - intros isError q. unfold caughtUpClearsSkipDeleted, subChangesReply.
    by destruct isError.
  - by intros q.
  - by intros req rest q _.
  - intros options openServer. unfold caughtUpClearsSkipDeleted. cbn. discriminate.
Qed.

(** X11: [_skipDeleted] does not survive catching up.  In every reachable
    state in which [_caughtUp] is set, [_skipDeleted] is clear, so a pull
    that is started again after it caught up does not ask for
    [activeOnly], whatever the options say. *)
Theorem caught_up_pull_restarts_without_activeOnly :
  forall (kChangesBatchSize kMaxPendingRevs kMaxActiveIncomingRevs
          kMaxUnfinishedIncomingRevs : Z) (p : Puller) (sinceSequence : N),
    reachable kChangesBatchSize kMaxPendingRevs kMaxActiveIncomingRevs
      kMaxUnfinishedIncomingRevs p ->
    _caughtUp p = true ->
    _skipDeleted p = false
    /\ ~ In "activeOnly" (commonKeys kChangesBatchSize (set_lastSequence sinceSequence p)).
Proof.
  intros batch capP capA capU p since Hr Hc.
  pose proof (caughtUpClearsSkipDeleted_reachable batch capP capA capU p Hr Hc) as Hs.
  split; [exact Hs|].
  unfold commonKeys, subChangesCommon. cbn. rewrite Hs.
  destruct (sequence_bool since), (pull (_options p)); cbn;
    intros H; repeat destruct H as [H | H]; try discriminate; exact H.
Qed.

Lemma caught_up_pull_restarts_without_activeOnly_witness :
  _skipDeleted (handleChanges 200 emptyChangesMessage skippingPuller) = false.
Proof.
  destruct (caught_up_pull_restarts_without_activeOnly 200 200 100 200
              (handleChanges 200 emptyChangesMessage skippingPuller) nullslice) as [H _].
  - apply (reachable_step 200 200 100 200 skippingPuller (EvChanges emptyChangesMessage)).
    + apply reachable_new.
    + reflexivity.
  - reflexivity.
  - exact H.
Defined.

(** ** The pool of spare workers *)

Section Spare.

Variables kMaxPendingRevs kMaxActiveIncomingRevs kMaxUnfinishedIncomingRevs : Z.

Lemma handleMoreChanges_spare (p : Puller) :
  _spareIncomingRevs (handleMoreChanges kMaxPendingRevs p) = _spareIncomingRevs p.
Proof.
  destruct (handleMoreChanges_beside kMaxPendingRevs p) as [Hb _].
  unfold besideChanges in Hb. by simplify_eq.
Qed.

Lemma completedSequence_spare (seq : RemoteSequence) (transient update : bool)
    (p : Puller) :
  _spareIncomingRevs (completedSequence seq transient update p) = _spareIncomingRevs p.
Proof.
  destruct transient; [reflexivity|].
  destruct (completedSequence_spec seq update p) as (_ & _ & _ & Hb & _).
  unfold besideCheckpoint in Hb. by simplify_eq.
Qed.

Lemma startIncomingRev_spare (msg : MessageIn) (p : Puller) :
  sparePoolBounded kMaxActiveIncomingRevs p ->
  sparePoolBounded kMaxActiveIncomingRevs (startIncomingRev kMaxPendingRevs msg p).
Proof.
  unfold sparePoolBounded, startIncomingRev. intros Hp.
  rewrite handleMoreChanges_spare.
  destruct (_spareIncomingRevs _ =? 0) eqn:E; cbn in *; lia.
Qed.

Lemma revWasProvisionallyHandled_spare (p : Puller) :
  sparePoolBounded kMaxActiveIncomingRevs p ->
  sparePoolBounded kMaxActiveIncomingRevs
    (_revWasProvisionallyHandled kMaxPendingRevs kMaxActiveIncomingRevs
       kMaxUnfinishedIncomingRevs p).
Proof.
  intros Hp. unfold _revWasProvisionallyHandled.
  set (p1 := set_activeIncomingRevs _ p).
  assert (sparePoolBounded kMaxActiveIncomingRevs p1) as H1 by exact Hp.
  clearbody p1. destruct (_ && _); [|exact H1].
  destruct (_waitingRevMessages p1) as [|msg rest]; [exact H1|].
  unfold sparePoolBounded. rewrite handleMoreChanges_spare.
  by apply startIncomingRev_spare.
Qed.

Lemma revsFinished_step_spare (inc : IncomingRev) (p : Puller) :
  sparePoolBounded kMaxActiveIncomingRevs p ->
  sparePoolBounded kMaxActiveIncomingRevs
    (revsFinished_step kMaxPendingRevs kMaxActiveIncomingRevs
       kMaxUnfinishedIncomingRevs inc p).
Proof.
  intros Hp. unfold revsFinished_step.
  set (p1 := if negb (wasProvisionallyInserted inc)
             then _revWasProvisionallyHandled kMaxPendingRevs kMaxActiveIncomingRevs
                    kMaxUnfinishedIncomingRevs p
             else p).
  assert (sparePoolBounded kMaxActiveIncomingRevs p1) as H1.
  { subst p1. destruct (negb _); [by apply revWasProvisionallyHandled_spare | exact Hp]. }
  clearbody p1. unfold sparePoolBounded, finishedDocument, send. cbn.
  destruct (nonPassive p1); [|exact H1].
  by rewrite completedSequence_spare.
Qed.

Lemma revsFinished_loop_spare (revs : list IncomingRev) (p : Puller) :
  sparePoolBounded kMaxActiveIncomingRevs p ->
  sparePoolBounded kMaxActiveIncomingRevs
    (revsFinished_loop kMaxPendingRevs kMaxActiveIncomingRevs
       kMaxUnfinishedIncomingRevs revs p).
Proof.
  revert p. induction revs as [|inc rest IH]; intros p Hp; cbn; [exact Hp|].
  by apply IH, revsFinished_step_spare.
Qed.

Lemma revsFinished_spare (p : Puller) :
  sparePoolBounded kMaxActiveIncomingRevs p ->
  sparePoolBounded kMaxActiveIncomingRevs
    (_revsFinished kMaxPendingRevs kMaxActiveIncomingRevs
       kMaxUnfinishedIncomingRevs p).
Proof.
  intros Hp. unfold _revsFinished.
  set (p1 := revsFinished_loop _ _ _ _ _).
  assert (sparePoolBounded kMaxActiveIncomingRevs p1) as H1.
  { subst p1. by apply revsFinished_loop_spare. }
  clearbody p1.
  set (p2 := set_unfinishedIncomingRevs _ p1).
  assert (sparePoolBounded kMaxActiveIncomingRevs p2) as H2 by exact H1.
  clearbody p2.
  set (p3 := if nonPassive p2 then updateLastSequence p2 else p2).
  assert (sparePoolBounded kMaxActiveIncomingRevs p3) as H3.
  { subst p3. destruct (nonPassive p2); [|exact H2].
    unfold sparePoolBounded, updateLastSequence. by destruct (negb _). }
  clearbody p3. unfold sparePoolBounded in *.
  destruct (_ >? 0) eqn:E; [|exact H3]. cbn. lia.
Qed.

Lemma step_spare (p : Puller) (ev : Event) (p' : Puller) :
  sparePoolBounded kMaxActiveIncomingRevs p ->
  step kMaxPendingRevs kMaxActiveIncomingRevs kMaxUnfinishedIncomingRevs p ev = Some p' ->
  sparePoolBounded kMaxActiveIncomingRevs p'.
Proof.
  intros Hp Hstep. destruct ev; unfold step in Hstep.
  - simplify_eq. unfold subChangesReply. by destruct isError.
  - by simplify_eq.
  - simplify_eq. unfold sparePoolBounded, handleChanges.
    by rewrite handleMoreChanges_spare.
  - simplify_eq. unfold handleRev. destruct (_ && _); [|exact Hp].
    by apply startIncomingRev_spare.
  - simplify_eq. unfold sparePoolBounded, handleNoRev.
    assert (forall q, _spareIncomingRevs (if negb (noReply msg) then respond msg q else q)
                      = _spareIncomingRevs q) as -> by (intros q; by destruct (negb _)).
    rewrite handleMoreChanges_spare.
    destruct (sequence_bool (sequence msg)); [|exact Hp].
    by rewrite completedSequence_spare.
  - destruct (revFinderRequests p) as [|req rest]; [discriminate|].
    simplify_eq. unfold sparePoolBounded.
    match goal with |- context [revsFound req which ?q] =>
      pose proof (revsFound_beside req which q) as Hb end.
    unfold besideFound in Hb. simplify_eq.
    repeat match goal with H : _spareIncomingRevs _ = _ |- _ => rewrite H end.
    exact Hp.
  - destruct (incomingRevs p !! i) as [inc|]; [|discriminate].
    destruct (wasProvisionallyInserted inc); [discriminate|].
    simplify_eq. by apply revWasProvisionallyHandled_spare.
  - destruct (incomingRevs p !! i) as [inc|]; [|discriminate].
    by simplify_eq.
  - simplify_eq. by apply revsFinished_spare.
Qed.

End Spare.

(** X12: the pool of spare workers stays within what the constructor
    reserves for it: in every reachable state it holds at most
    [kMaxActiveIncomingRevs] workers.  Starting a revision takes one out
    when there is one, and draining a batch puts back only as many as
    fit. *)
Theorem spare_pool_within_reservation :
  forall (kChangesBatchSize kMaxPendingRevs kMaxActiveIncomingRevs
          kMaxUnfinishedIncomingRevs : Z) (p : Puller),
    0 <= kMaxActiveIncomingRevs ->
    reachable kChangesBatchSize kMaxPendingRevs kMaxActiveIncomingRevs
      kMaxUnfinishedIncomingRevs p ->
    0 <= _spareIncomingRevs p <= kMaxActiveIncomingRevs.
Proof.
  intros batch capP capA capU p Hcap Hr.
  change (sparePoolBounded capA p).
  induction Hr as [options openServer | since p _ IH | p ev p' _ IH Hstep].
  - unfold sparePoolBounded. cbn. lia.
  - exact IH.
  - by eapply step_spare.
Qed.

Lemma spare_pool_within_reservation_witness :
  0 <= _spareIncomingRevs
         (default freshPuller (run 200 100 200 startedAt100 (pullOneDocument false)))
    <= 100.
Proof.
  apply (spare_pool_within_reservation 200 200 100 200).
  - lia.
  - apply (run_reachable 200 200 100 200 startedAt100 _ (pullOneDocument false)).
    + apply reachable_start, reachable_new.
    + vm_compute. reflexivity.
Defined.

(** ** The reports to the delegate *)

Lemma finishedDocuments_app (l1 l2 : list Output) :
  finishedDocuments (l1 ++ l2) = finishedDocuments l1 ++ finishedDocuments l2.
Proof.
  induction l1 as [|o l1 IH]; cbn; [reflexivity|].
  destruct o; cbn; by rewrite IH.
Qed.

Lemma finishedDocuments_changes (waiting : list MessageIn) (outs : list Output) :
  Forall (changesOutput waiting) outs -> finishedDocuments outs = [].
Proof.
  induction 1 as [|o outs Ho _ IH]; cbn; [reflexivity|]. by destruct Ho.
Qed.

Lemma finishedDocuments_checkpoint (outs : list Output) :
  Forall isCheckpointUpdate outs -> finishedDocuments outs = [].
Proof.
  induction 1 as [|o outs Ho _ IH]; cbn; [reflexivity|]. by destruct Ho as [s ->].
Qed.

Section Reports.

Variables kMaxPendingRevs kMaxActiveIncomingRevs kMaxUnfinishedIncomingRevs : Z.

Lemma handleMoreChanges_reports (p : Puller) :
  finishedDocuments (sent (handleMoreChanges kMaxPendingRevs p))
  = finishedDocuments (sent p)
  /\ _returningRevs (handleMoreChanges kMaxPendingRevs p) = _returningRevs p.
Proof.
  destruct (handleMoreChanges_beside kMaxPendingRevs p) as (Hb & outs & Hs & Ho).
  split.
  - by rewrite Hs, finishedDocuments_app, (finishedDocuments_changes _ _ Ho), app_nil_r.
  - unfold besideChanges in Hb. by simplify_eq.
Qed.

Lemma completedSequence_reports (seq : RemoteSequence) (transient update : bool)
    (p : Puller) :
  finishedDocuments (sent (completedSequence seq transient update p))
  = finishedDocuments (sent p)
  /\ _returningRevs (completedSequence seq transient update p) = _returningRevs p.
Proof.
  destruct transient; [by split|].
  destruct (completedSequence_spec seq update p) as (_ & _ & _ & Hb & outs & Hs & Ho).
  split.
  - by rewrite Hs, finishedDocuments_app, (finishedDocuments_checkpoint _ Ho), app_nil_r.
  - unfold besideCheckpoint in Hb. by simplify_eq.
Qed.

Lemma updateLastSequence_reports (p : Puller) :
  finishedDocuments (sent (updateLastSequence p)) = finishedDocuments (sent p)
  /\ _returningRevs (updateLastSequence p) = _returningRevs p.
Proof.
  destruct (updateLastSequence_spec p) as (_ & _ & _ & Hb & outs & Hs & Ho).
  split.
  - by rewrite Hs, finishedDocuments_app, (finishedDocuments_checkpoint _ Ho), app_nil_r.
  - unfold besideCheckpoint in Hb. by simplify_eq.
Qed.

Lemma startIncomingRev_reports (msg : MessageIn) (p : Puller) :
  finishedDocuments (sent (startIncomingRev kMaxPendingRevs msg p))
  = finishedDocuments (sent p)
  /\ _returningRevs (startIncomingRev kMaxPendingRevs msg p) = _returningRevs p.
Proof.
  unfold startIncomingRev.
  match goal with |- context [handleMoreChanges _ ?q] => set (p1 := q) end.
  destruct (handleMoreChanges_reports p1) as [-> ->].
  subst p1. by destruct (_spareIncomingRevs _ =? 0).
Qed.

Lemma revWasProvisionallyHandled_reports (p : Puller) :
  let p' := _revWasProvisionallyHandled kMaxPendingRevs kMaxActiveIncomingRevs
              kMaxUnfinishedIncomingRevs p in
  finishedDocuments (sent p') = finishedDocuments (sent p)
  /\ _returningRevs p' = _returningRevs p.
Proof.
  cbn zeta. unfold _revWasProvisionallyHandled.
  set (p1 := set_activeIncomingRevs _ p).
  change (sent p) with (sent p1). change (_returningRevs p) with (_returningRevs p1).
  clearbody p1. destruct (_ && _); [|by split].
  destruct (_waitingRevMessages p1) as [|msg rest]; [by split|].
  match goal with |- context [handleMoreChanges _ ?q] =>
    destruct (handleMoreChanges_reports q) as [-> ->] end.
  by destruct (startIncomingRev_reports msg (set_waitingRevMessages rest p1)) as [-> ->].
Qed.

Lemma revsFinished_step_reports (inc : IncomingRev) (p : Puller) :
  let p' := revsFinished_step kMaxPendingRevs kMaxActiveIncomingRevs
              kMaxUnfinishedIncomingRevs inc p in
  finishedDocuments (sent p') = finishedDocuments (sent p) ++ [rev inc]
  /\ _returningRevs p' = _returningRevs p.
Proof.
  cbn zeta. unfold revsFinished_step.
  set (p1 := if negb (wasProvisionallyInserted inc)
             then _revWasProvisionallyHandled kMaxPendingRevs kMaxActiveIncomingRevs
                    kMaxUnfinishedIncomingRevs p
             else p).
  assert (finishedDocuments (sent p1) = finishedDocuments (sent p)
          /\ _returningRevs p1 = _returningRevs p) as [<- <-].
  { subst p1. destruct (negb _); [apply revWasProvisionallyHandled_reports | by split]. }
  clearbody p1.
  set (p2 := if nonPassive p1
             then completedSequence (remoteSequence inc) (errorIsTransient (rev inc)) false p1
             else p1).
  assert (finishedDocuments (sent p2) = finishedDocuments (sent p1)
          /\ _returningRevs p2 = _returningRevs p1) as [<- <-].
  { subst p2. destruct (nonPassive p1); [apply completedSequence_reports | by split]. }
  clearbody p2. unfold finishedDocument, send. cbn.
  by rewrite finishedDocuments_app.
Qed.

Lemma revsFinished_loop_reports (revs : list IncomingRev) (p : Puller) :
  let p' := revsFinished_loop kMaxPendingRevs kMaxActiveIncomingRevs
              kMaxUnfinishedIncomingRevs revs p in
  finishedDocuments (sent p') = finishedDocuments (sent p) ++ map rev revs
  /\ _returningRevs p' = _returningRevs p.
Proof.
  revert p. induction revs as [|inc rest IH]; intros p; cbn zeta; cbn [revsFinished_loop map].
  - by rewrite app_nil_r.
  - destruct (IH (revsFinished_step kMaxPendingRevs kMaxActiveIncomingRevs
                    kMaxUnfinishedIncomingRevs inc p)) as [-> ->].
    destruct (revsFinished_step_reports inc p) as [-> ->].
    by rewrite <- app_assoc.
Qed.

End Reports.

(** X13: draining a batch reports every returned worker's revision to the
    delegate exactly once, in the order the workers came back, successful or
    not, in an active and in a passive pull, and empties the batch; nothing
    else the drain sets off (a waiting "rev" that is started, "changes"
    messages that are handled, checkpoint updates) reports a document. *)
Theorem revsFinished_reports_each_once :
  forall (kMaxPendingRevs kMaxActiveIncomingRevs kMaxUnfinishedIncomingRevs : Z)
         (p : Puller),
    let p' := _revsFinished kMaxPendingRevs kMaxActiveIncomingRevs
                kMaxUnfinishedIncomingRevs p in
    finishedDocuments (sent p') = finishedDocuments (sent p) ++ map rev (_returningRevs p)
    /\ _returningRevs p' = [].
Proof.
  intros capP capA capU p. cbn zeta. unfold _revsFinished.
  destruct (revsFinished_loop_reports capP capA capU (_returningRevs p)
              (set_returningRevs [] p)) as [H1 H2].
  cbn zeta in H1, H2.
  set (p1 := revsFinished_loop _ _ _ _ _) in *.
  change (sent (set_returningRevs [] p)) with (sent p) in H1.
  change (_returningRevs (set_returningRevs [] p)) with (@nil IncomingRev) in H2.
  rewrite <- H1, <- H2. clearbody p1.
  set (p2 := set_unfinishedIncomingRevs _ p1).
  change (sent p1) with (sent p2). change (_returningRevs p1) with (_returningRevs p2).
  clearbody p2.
  set (p3 := if nonPassive p2 then updateLastSequence p2 else p2).
  assert (finishedDocuments (sent p3) = finishedDocuments (sent p2)
          /\ _returningRevs p3 = _returningRevs p2) as [<- <-].
  { subst p3. destruct (nonPassive p2); [apply updateLastSequence_reports | by split]. }
  clearbody p3. by destruct (_ >? 0).
Qed.

(** ** The activity level of a working worker *)

(** X14: a connected worker without a fatal error is busy when the base
    class says so, when an active pull has not caught up, or when one of
    [_pendingRevMessages], [_unfinishedIncomingRevs] and
    [_pendingRevFinderCalls] is positive; asking leaves the state as it
    is. *)
Theorem computeActivityLevel_busy :
  forall (workerLevel : C4ReplicatorActivityLevel) (p : Puller),
    _fatalError p = false ->
    connection p = true ->
    workerLevel = kC4Busy
    \/ (_caughtUp p = false /\ nonPassive p = true)
    \/ 0 < _pendingRevMessages p
    \/ 0 < _unfinishedIncomingRevs p
    \/ 0 < _pendingRevFinderCalls p ->
    computeActivityLevel workerLevel p = (kC4Busy, p).
Proof.
  intros w p Hf Hc Hbusy. unfold computeActivityLevel. rewrite Hf, Hc. cbn [orb negb].
  assert (bool_decide (w = kC4Busy)
          || (negb (_caughtUp p) && nonPassive p)
          || (_pendingRevMessages p >? 0)
          || (_unfinishedIncomingRevs p >? 0)
          || (_pendingRevFinderCalls p >? 0) = true) as ->; [|reflexivity].
  destruct Hbusy as [Hw | [[Hcu Ha] | [H | [H | H]]]].
  - by rewrite (bool_decide_eq_true_2 _ Hw).
  - rewrite Hcu, Ha. cbn. by rewrite orb_true_r.
  - apply Z.gtb_lt in H. rewrite H. by rewrite !orb_true_r.
  - apply Z.gtb_lt in H. rewrite H. by rewrite !orb_true_r.
  - apply Z.gtb_lt in H. rewrite H. by rewrite !orb_true_r.
Qed.

Lemma computeActivityLevel_busy_witness :
  computeActivityLevel kC4Idle startedAt100 = (kC4Busy, startedAt100).
Proof.
  apply (computeActivityLevel_busy kC4Idle startedAt100).
  - reflexivity.
  - reflexivity.
  - right. left. split; reflexivity.
Defined.

(** X15: a connected worker without a fatal error that has nothing left
    to do (the base class is not busy, the pull has caught up or is
    passive, the three counters are at zero) is idle when the pull is
    continuous or the replicator is an open server, and then it drops its
    spare workers; otherwise it has stopped.  Neither [_activeIncomingRevs]
    nor the queues are looked at. *)
Theorem computeActivityLevel_at_rest :
  forall (workerLevel : C4ReplicatorActivityLevel) (p : Puller),
    _fatalError p = false ->
    connection p = true ->
    workerLevel <> kC4Busy ->
    _caughtUp p = true \/ nonPassive p = false ->
    _pendingRevMessages p = 0 ->
    _unfinishedIncomingRevs p = 0 ->
    _pendingRevFinderCalls p = 0 ->
    computeActivityLevel workerLevel p
    = if bool_decide (pull (_options p) = kC4Continuous) || isOpenServer p
      then (kC4Idle, set_spareIncomingRevs 0 p)
      else (kC4Stopped, p).
Proof.
  intros w p Hf Hc Hw Hcu Hp Hu Hr. unfold computeActivityLevel.
  rewrite Hf, Hc, Hp, Hu, Hr. cbn [orb negb].
  rewrite (bool_decide_eq_false_2 _ Hw).
  assert (negb (_caughtUp p) && nonPassive p = false) as ->.
  { destruct Hcu as [-> | ->]; [reflexivity | apply andb_false_r]. }
  reflexivity.
Qed.

Lemma computeActivityLevel_at_rest_witness :
  fst (computeActivityLevel kC4Idle
         (default freshPuller
            (run 200 100 200 startedAt100
               (pullOneDocument false ++ [EvChanges emptyChangesMessage]))))
  = kC4Stopped
  /\ computeActivityLevel kC4Idle
       (set_caughtUp true (set_spareIncomingRevs 3 (Puller_new continuousServer false)))
     = (kC4Idle, set_caughtUp true (Puller_new continuousServer false)).
Proof.
  split.
  - rewrite (computeActivityLevel_at_rest kC4Idle
               (default freshPuller
                  (run 200 100 200 startedAt100
                     (pullOneDocument false ++ [EvChanges emptyChangesMessage])))).
    + vm_compute. reflexivity.
    + vm_compute. reflexivity.
    + vm_compute. reflexivity.
    + discriminate.
    + left. vm_compute. reflexivity.
    + vm_compute. reflexivity.
    + vm_compute. reflexivity.
    + vm_compute. reflexivity.
  - rewrite (computeActivityLevel_at_rest kC4Idle
               (set_caughtUp true
                  (set_spareIncomingRevs 3 (Puller_new continuousServer false)))).
    + reflexivity.
    + reflexivity.
    + reflexivity.
    + discriminate.
    + left. reflexivity.
    + reflexivity.
    + reflexivity.
    + reflexivity.
Defined.

(** ** The filters of the "subChanges" request *)

(** X16: without the [channels] option, the custom filter decides.  When a
    filter is configured the request carries it and, after it, every
    filter parameter as a property of its own, with the parameter's text
    (the null slice for a parameter that is not a string); when none is
    configured the filter parameters are ignored and the request carries
    only the common properties. *)
Theorem start_custom_filter :
  forall (kChangesBatchSize : Z) (sinceSequence : N) (p : Puller),
    channels (_options p) = None ->
    sent (_start kChangesBatchSize sinceSequence p)
    = sent p ++
      [SendRequest
         (mkMessageBuilder "subChanges"
            (subChangesCommon kChangesBatchSize (set_lastSequence sinceSequence p)
               ++ match filter (_options p) with
                  | Some name =>
                      ("filter", PText (Some name))
                      :: map (fun kv => (fst kv, PText (asString (snd kv))))
                           (filterParams (_options p))
                  | None => []
                  end)
            (docIDs (_options p)))].
Proof.
  intros batch since p Hch. unfold _start, send, subChangesProperties. cbn.
  rewrite Hch. destruct (filter (_options p)) as [name|]; cbn; [reflexivity|].
  by rewrite app_nil_r.
Qed.

Lemma start_custom_filter_witness :
  sent (_start 200 100%N
          (Puller_new (mkOptions kC4OneShot false false None None
                         [("level", VString "3")] None) false))
  = [SendRequest
       (mkMessageBuilder "subChanges"
          [("since", PSequence 100%N); ("batch", PNumber 200)] None)]
  /\ sent (_start 200 100%N
             (Puller_new (mkOptions kC4OneShot false false None (Some "byLevel")
                            [("level", VString "3"); ("deep", VBool true)] None) false))
     = [SendRequest
          (mkMessageBuilder "subChanges"
             [("since", PSequence 100%N); ("batch", PNumber 200);
              ("filter", PText (Some "byLevel")); ("level", PText (Some "3"));
              ("deep", PText None)] None)].
Proof.
  split.
  - rewrite (start_custom_filter 200 100%N
               (Puller_new (mkOptions kC4OneShot false false None None
                              [("level", VString "3")] None) false));
      reflexivity.
  - rewrite (start_custom_filter 200 100%N
               (Puller_new (mkOptions kC4OneShot false false None (Some "byLevel")
                              [("level", VString "3"); ("deep", VBool true)] None) false));
      reflexivity.
Defined.
